(** * Solace voice client: capture / transcribe / speak / auto-listen

    A shallow embedding of the voice orchestration of the Solace front end:

    - [VoiceControls] (src/frontend/src/components/SessionActions.js,
      lines 334-1009): microphone capture, the 60 second cap, the hand-off to
      the transcription endpoint and the auto-listen timer;
    - the application shell (src/unnamed/part_002): [handleVoiceMessage],
      [sendVoiceMessage], [synthesizeAndPlayVoice] and [playAudioFromBase64].

    The source is a pair of React function components.  Two facts of that
    programming model shape the embedding.

    - Every function declared in a component body ([handleVoiceRecord],
      [startRecording], [processRecording], [scheduleAutoListening], ...) is
      re-created at each render and closes over the values the [useState]
      variables had in that render.  A callback that is installed once and
      called later (the recorder's [onstop], the [setTimeout] of the
      auto-listen timer) therefore still reads the values of the render in
      which it was installed.  The embedding makes the captured values an
      explicit argument, a [Render], of every such function.
    - Values kept in [useRef] cells and the objects of the browser (recorders,
      timers, requests in flight) are shared and mutable; they live in the
      [State] that the functions pass along.

    Everything the browser and the network decide (whether a recorder can be
    created, what a request answers, when a timer fires) is an input of the
    model: an oracle argument of a function, or an event of a trace.

    The capture machine [Voice] is the life of one mounted component
    whose microphone was granted or not.  It leaves out the recorder's
    [onerror], which only sets the error text, and the [disabled]
    attribute of the microphone button, so that the runs considered
    include every run the page allows.  Around it:

    - [Lifecycle]: the mount ([initializeMediaRecorder]) and the unmount
      ([cleanup]);
    - [Level]: the level monitor, which only feeds the display;
    - [Display]: the clock texts;
    - [Actions]: the dialog of suggested actions, the first component of
      SessionActions.js;
    - [Shell]: the conversation logic of the application shell, from the
      start of a session to its end. *)

From Stdlib Require Import String Ascii List Arith Bool Lia.
From Stdlib Require Import ZArith QArith Qminmax DecimalString DecimalNat.
From Stdlib.Strings Require Import Byte.
From stdpp Require Import base list.
Import ListNotations.
Local Open Scope string_scope.
Local Open Scope list_scope.

(** ** Format negotiation ([startRecording], lines 489-509) and the tag of the
       uploaded payload ([processRecording], lines 600-618) *)

Module Format.

(** [const formats = [...]], in source order. *)
Definition formats : list string :=
  [ "audio/wav";
    "audio/webm;codecs=opus";
    "audio/webm";
    "audio/mp3";
    "audio/ogg;codecs=opus";
    "audio/ogg" ].

(** The [for (const format of formats)] loop with its [break]; the result
    is the value of [mimeType], which starts as the empty string. *)
Fixpoint firstSupported (isTypeSupported : string -> bool)
         (fs : list string) : string :=
  match fs with
  | [] => ""
  | format :: rest =>
      if isTypeSupported format then format
      else firstSupported isTypeSupported rest
  end.

Definition negotiate (isTypeSupported : string -> bool) : string :=
  firstSupported isTypeSupported formats.

(** The [if / else if / else] chain that picks the type and the file name
    of the blob sent to the transcription endpoint. *)
Definition blobFormat (isTypeSupported : string -> bool) : string * string :=
  if isTypeSupported "audio/wav" then ("audio/wav", "recording.wav")
  else if isTypeSupported "audio/mp3" then ("audio/mp3", "recording.mp3")
  else ("audio/webm", "recording.webm").

Definition blobType (isTypeSupported : string -> bool) : string :=
  fst (blobFormat isTypeSupported).

(** A runtime that supports exactly the listed types. *)
Definition supportsOnly (ts : list string) : string -> bool :=
  fun t => existsb (String.eqb t) ts.

End Format.

(** ** JavaScript truthiness of the string values the code tests *)

(** [!!v] for a value that is a string or absent: the empty string and a
    missing value are falsy. *)
Definition truthy (v : option string) : bool :=
  match v with
  | Some s => negb (String.eqb s "")
  | None => false
  end.

(** [s.trim()] is truthy when [s] has a character that [trim] does not
    strip.  [trim] strips the white space and the line terminators of
    ECMAScript: U+0009 to U+000D and U+0020, and beyond ASCII U+00A0,
    U+1680, U+2000 to U+200A, U+2028, U+2029, U+202F, U+205F, U+3000 and
    U+FEFF.  Strings are byte strings here and hold UTF-8, so each of the
    latter is the two or three bytes of its encoding. *)
Definition isTrimWhitespace (c : ascii) : bool :=
  let n := nat_of_ascii c in
  ((n =? 9) || (n =? 10) || (n =? 11) || (n =? 12) || (n =? 13) || (n =? 32))%nat.

(** U+00A0 is [C2 A0]. *)
Definition isTrimWhitespace2 (a b : ascii) : bool :=
  ((nat_of_ascii a =? 194) && (nat_of_ascii b =? 160))%nat.

(** U+1680 is [E1 9A 80]; U+2000 to U+200A are [E2 80 80] to [E2 80 8A];
    U+2028, U+2029 and U+202F are [E2 80 A8], [E2 80 A9] and [E2 80 AF];
    U+205F is [E2 81 9F]; U+3000 is [E3 80 80]; U+FEFF is [EF BB BF]. *)
Definition isTrimWhitespace3 (a b c : ascii) : bool :=
  let x := nat_of_ascii a in
  let y := nat_of_ascii b in
  let z := nat_of_ascii c in
  (((x =? 225) && (y =? 154) && (z =? 128))
   || ((x =? 226) && (y =? 128)
       && (((128 <=? z) && (z <=? 138)) || (z =? 168) || (z =? 169)
           || (z =? 175)))
   || ((x =? 226) && (y =? 129) && (z =? 159))
   || ((x =? 227) && (y =? 128) && (z =? 128))
   || ((x =? 239) && (y =? 187) && (z =? 191)))%nat.

(** [s.trim()] is the empty string: [s] is a sequence of the characters
    above.  A character that is none of them ends the scan, so the scan
    only ever steps over whole characters. *)
Fixpoint trimsToEmpty (s : string) : bool :=
  match s with
  | EmptyString => true
  | String a s1 =>
      if isTrimWhitespace a then trimsToEmpty s1
      else
        match s1 with
        | EmptyString => false
        | String b s2 =>
            if isTrimWhitespace2 a b then trimsToEmpty s2
            else
              match s2 with
              | EmptyString => false
              | String c s3 =>
                  if isTrimWhitespace3 a b c then trimsToEmpty s3 else false
              end
        end
  end.

Definition trimTruthy (s : string) : bool := negb (trimsToEmpty s).

(** ** Promises, as far as their callers can observe them *)

Inductive Settled : Type :=
| Resolved
| Rejected (reason : string).

(** ** [atob]: the forgiving base64 check of the platform

    [atob] throws [InvalidCharacterError] unless, after ASCII whitespace is
    removed and up to two trailing [=] of a length that is a multiple of four
    are dropped, the remaining length is not 1 modulo 4 and every character
    is in the base64 alphabet.  Only whether it throws matters here. *)

Module Base64.

Definition isWhitespace (c : ascii) : bool :=
  let n := nat_of_ascii c in
  ((n =? 9) || (n =? 10) || (n =? 12) || (n =? 13) || (n =? 32))%nat.

Definition isAlphabet (c : ascii) : bool :=
  let n := nat_of_ascii c in
  (((65 <=? n) && (n <=? 90)) || ((97 <=? n) && (n <=? 122))
   || ((48 <=? n) && (n <=? 57)) || (n =? 43) || (n =? 47))%nat.

Definition isPad (c : ascii) : bool := (nat_of_ascii c =? 61)%nat.

(** Drop up to [k] trailing padding characters. *)
Fixpoint dropPad (k : nat) (rev_cs : list ascii) : list ascii :=
  match k, rev_cs with
  | S k', c :: rest => if isPad c then dropPad k' rest else rev_cs
  | _, _ => rev_cs
  end.

Definition atobAccepts (data : string) : bool :=
  let cs := List.filter (fun c => negb (isWhitespace c))
                        (list_ascii_of_string data) in
  let cs := if (length cs mod 4 =? 0)%nat then rev (dropPad 2 (rev cs)) else cs in
  negb (length cs mod 4 =? 1)%nat && forallb isAlphabet cs.

End Base64.

(** ** Synthesis and playback ([synthesizeAndPlayVoice], part_002 lines
       412-432, and [playAudioFromBase64], lines 517-548) *)

Module Speech.

(** What [response.json()] yields.  A missing [audio_data] and an empty one
    are both falsy; both are the empty string here. *)
Inductive JsonBody : Type :=
| JsonInvalid
| JsonVoice (audio_data audio_format : string).

(** What the [fetch] of [/api/voice/synthesize] does. *)
Inductive SynthResponse : Type :=
| SynthNetworkError
| SynthHttp (ok : bool) (body : JsonBody).

(** The terminal event of an [Audio] element whose [play()] was called. *)
Inductive Playback : Type :=
| PlaybackEnded              (* [onended] *)
| PlaybackErrorEvent         (* [onerror] *)
| PlayRejected.              (* the promise of [play()] rejects *)

(** Where a call of [synthesizeAndPlayVoice] stands. *)
Inductive Progress : Type :=
| Done (outcome : Settled)
| AwaitingSynthesis
| AwaitingPlayback.

(** [playAudioFromBase64] up to [audio.play()]: the executor's [try] turns
    a throwing [atob] into [reject(error)]. *)
Definition playAudioFromBase64_start (audioData format : string) : Progress :=
  if Base64.atobAccepts audioData then AwaitingPlayback
  else Done (Rejected "InvalidCharacterError").

(** [playAudioFromBase64] from the terminal event of the element on. *)
Definition playAudioFromBase64_finish (p : Playback) : Settled :=
  match p with
  | PlaybackEnded => Resolved
  | PlaybackErrorEvent => Rejected "audio error event"
  | PlayRejected => Rejected "play() rejected"
  end.

(** [synthesizeAndPlayVoice] up to its [await fetch(...)]. *)
Definition synthesizeAndPlayVoice_start (voiceEnabled : bool)
           (sessionId : option string) : Progress :=
  if negb voiceEnabled || negb (truthy sessionId)
  then Done Resolved
  else AwaitingSynthesis.

(** [synthesizeAndPlayVoice] after the [fetch] settled.  A rejected [fetch]
    and a throwing [json()] are awaited inside the [try] and reach the
    [catch]; the promise of [playAudioFromBase64] is returned without
    [await], so the promise of the [async] function adopts it and its
    rejection does not pass through the [catch]. *)
Definition synthesizeAndPlayVoice_response (resp : SynthResponse) : Progress :=
  match resp with
  | SynthNetworkError => Done Resolved                    (* catch *)
  | SynthHttp ok body =>
      if ok then
        match body with
        | JsonInvalid => Done Resolved                    (* catch *)
        | JsonVoice audio_data audio_format =>
            if negb (String.eqb audio_data "")
            then playAudioFromBase64_start audio_data audio_format
            else Done Resolved
        end
      else Done Resolved
  end.

(** One whole call, given everything the environment decides. *)
Record SpeakEnv : Type := mkSpeakEnv {
  env_synth : SynthResponse;
  env_playback : Playback
}.

Definition synthesizeAndPlayVoice (voiceEnabled : bool)
           (sessionId : option string) (env : SpeakEnv) : Settled :=
  match synthesizeAndPlayVoice_start voiceEnabled sessionId with
  | Done o => o
  | _ =>
      match synthesizeAndPlayVoice_response (env_synth env) with
      | Done o => o
      | _ => playAudioFromBase64_finish (env_playback env)
      end
  end.

End Speech.


(** ** The voice controls and the shell around them *)

Module Voice.

(** *** Data *)

(** The values of a render that the callbacks created in it close over:
    the [useState] variables of [VoiceControls] that its functions read,
    the [sessionId] prop, and, through the [onVoiceMessage] prop (the
    shell's [handleVoiceMessage] of the same render), the shell's
    [isLoading] and [voiceEnabled]. *)
Record Render : Type := mkRender {
  r_isRecording : bool;
  r_isProcessing : bool;
  r_autoMode : bool;
  r_sessionId : option string;
  r_isLoading : bool;
  r_voiceEnabled : bool
}.

(** One [event.data] of a recorder. *)
Definition Chunk : Type := list byte.

(** [new Blob(chunks, { type })]: the chunks joined in list order. *)
Record Blob : Type := mkBlob {
  blob_bytes : list byte;
  blob_type : string
}.

Definition newBlob (chunks : list Chunk) (type : string) : Blob :=
  mkBlob (concat chunks) type.

Definition blob_size (b : Blob) : nat := length (blob_bytes b).

(** A [MediaRecorder].  The code never pauses one, so two states occur.
    [rec_stopQueued] holds between a call of [stop()] and the stop event
    that runs [onstop]; [rec_handlers] is the render whose [startRecording]
    installed [ondataavailable] and [onstop]. *)
Inductive RecorderState : Type := inactive | recording.

Record Recorder : Type := mkRecorder {
  rec_state : RecorderState;
  rec_mimeType : string;
  rec_stopQueued : bool;
  rec_handlers : Render
}.

Definition isRecordingState (st : RecorderState) : bool :=
  match st with recording => true | inactive => false end.

(** A [fetch] of [/api/voice/transcribe] in flight, with the render of the
    suspended [processRecording]. *)
Record Upload : Type := mkUpload {
  up_blob : Blob;
  up_fileName : string;
  up_session : string;
  up_render : Render
}.

(** What reaches the conversation through [onVoiceMessage]. [isFallback]
    marks the calls that pass the local [fallbackMessage]. *)
Record TranscriptionResult : Type := mkResult {
  text : string;
  isFallback : bool
}.

(** One run of the shell's [sendVoiceMessage]. The reply's emotion tag
    only travels into the query string and is left out. *)
Inductive Phase : Type :=
| AwaitChat                                   (* fetch of /api/chat *)
| TypingDelay (due : nat) (response : string) (* setTimeout(..., 800) *)
| Speaking (p : Speech.Progress)
| Finished.

Record Job : Type := mkJob {
  job_phase : Phase;
  job_render : Render
}.

(** What an observer of a run can see, each stamped with the clock. *)
Inductive Obs : Type :=
| ObsRecorderStarted (id : nat)          (* [start(250)] returned *)
| ObsTranscribe (u : Upload)             (* the transcribe fetch is sent *)
| ObsVoiceMessage (res : TranscriptionResult)  (* [onVoiceMessage(...)] *)
| ObsProcessed                           (* [processRecording] has ended *)
| ObsAutoRearm                           (* the timer called [handleVoiceRecord] *)
| ObsSpeak (o : Settled).                (* [synthesizeAndPlayVoice] settled *)

(** The state: the [useState] cells of [VoiceControls], its [useRef]
    cells, the browser objects it created, the part of the shell that the
    voice path reads, the clock (milliseconds) and the observations.

    [autoListenTimeout] is the pending timeout whose id
    [autoListenTimeoutRef] holds, with its due time and the render of its
    callback; [scheduleAutoListening] is the only place that creates one
    and clears the previous one first, so there is one slot.  [intervals]
    are the ids of the live [setInterval] timers.  The level monitor
    ([audioLevel], [recordingQuality], the animation frame) feeds only the
    display and is left out. *)
Record State : Type := mkState {
  isRecording : bool;
  recordingTime : nat;
  voiceError : option string;
  isProcessing : bool;
  autoMode : bool;
  mediaRecorderRef : option nat;
  audioChunksRef : list Chunk;
  recordingTimerRef : option nat;
  streamRef : bool;
  recorders : list Recorder;
  intervals : list nat;
  nextInterval : nat;
  autoListenTimeout : option (nat * Render);
  uploads : list Upload;
  sessionId : option string;
  voiceEnabled : bool;
  isLoading : bool;
  jobs : list Job;
  now : nat;
  log : list (nat * Obs)
}.

Definition set_isRecording (v : bool) (s : State) : State :=
  mkState v (recordingTime s) (voiceError s) (isProcessing s) (autoMode s)
    (mediaRecorderRef s) (audioChunksRef s) (recordingTimerRef s)
    (streamRef s) (recorders s) (intervals s) (nextInterval s)
    (autoListenTimeout s) (uploads s) (sessionId s) (voiceEnabled s)
    (isLoading s) (jobs s) (now s) (log s).

Definition set_recordingTime (v : nat) (s : State) : State :=
  mkState (isRecording s) v (voiceError s) (isProcessing s) (autoMode s)
    (mediaRecorderRef s) (audioChunksRef s) (recordingTimerRef s)
    (streamRef s) (recorders s) (intervals s) (nextInterval s)
    (autoListenTimeout s) (uploads s) (sessionId s) (voiceEnabled s)
    (isLoading s) (jobs s) (now s) (log s).

Definition set_voiceError (v : option string) (s : State) : State :=
  mkState (isRecording s) (recordingTime s) v (isProcessing s) (autoMode s)
    (mediaRecorderRef s) (audioChunksRef s) (recordingTimerRef s)
    (streamRef s) (recorders s) (intervals s) (nextInterval s)
    (autoListenTimeout s) (uploads s) (sessionId s) (voiceEnabled s)
    (isLoading s) (jobs s) (now s) (log s).

Definition set_isProcessing (v : bool) (s : State) : State :=
  mkState (isRecording s) (recordingTime s) (voiceError s) v (autoMode s)
    (mediaRecorderRef s) (audioChunksRef s) (recordingTimerRef s)
    (streamRef s) (recorders s) (intervals s) (nextInterval s)
    (autoListenTimeout s) (uploads s) (sessionId s) (voiceEnabled s)
    (isLoading s) (jobs s) (now s) (log s).

Definition set_autoMode (v : bool) (s : State) : State :=
  mkState (isRecording s) (recordingTime s) (voiceError s) (isProcessing s)
    v (mediaRecorderRef s) (audioChunksRef s) (recordingTimerRef s)
    (streamRef s) (recorders s) (intervals s) (nextInterval s)
    (autoListenTimeout s) (uploads s) (sessionId s) (voiceEnabled s)
    (isLoading s) (jobs s) (now s) (log s).

Definition set_mediaRecorderRef (v : option nat) (s : State) : State :=
  mkState (isRecording s) (recordingTime s) (voiceError s) (isProcessing s)
    (autoMode s) v (audioChunksRef s) (recordingTimerRef s) (streamRef s)
    (recorders s) (intervals s) (nextInterval s) (autoListenTimeout s)
    (uploads s) (sessionId s) (voiceEnabled s) (isLoading s) (jobs s)
    (now s) (log s).

Definition set_audioChunksRef (v : list Chunk) (s : State) : State :=
  mkState (isRecording s) (recordingTime s) (voiceError s) (isProcessing s)
    (autoMode s) (mediaRecorderRef s) v (recordingTimerRef s) (streamRef s)
    (recorders s) (intervals s) (nextInterval s) (autoListenTimeout s)
    (uploads s) (sessionId s) (voiceEnabled s) (isLoading s) (jobs s)
    (now s) (log s).

Definition set_recordingTimerRef (v : option nat) (s : State) : State :=
  mkState (isRecording s) (recordingTime s) (voiceError s) (isProcessing s)
    (autoMode s) (mediaRecorderRef s) (audioChunksRef s) v (streamRef s)
    (recorders s) (intervals s) (nextInterval s) (autoListenTimeout s)
    (uploads s) (sessionId s) (voiceEnabled s) (isLoading s) (jobs s)
    (now s) (log s).

Definition set_recorders (v : list Recorder) (s : State) : State :=
  mkState (isRecording s) (recordingTime s) (voiceError s) (isProcessing s)
    (autoMode s) (mediaRecorderRef s) (audioChunksRef s)
    (recordingTimerRef s) (streamRef s) v (intervals s) (nextInterval s)
    (autoListenTimeout s) (uploads s) (sessionId s) (voiceEnabled s)
    (isLoading s) (jobs s) (now s) (log s).

Definition set_intervals (v : list nat) (s : State) : State :=
  mkState (isRecording s) (recordingTime s) (voiceError s) (isProcessing s)
    (autoMode s) (mediaRecorderRef s) (audioChunksRef s)
    (recordingTimerRef s) (streamRef s) (recorders s) v (nextInterval s)
    (autoListenTimeout s) (uploads s) (sessionId s) (voiceEnabled s)
    (isLoading s) (jobs s) (now s) (log s).

Definition set_nextInterval (v : nat) (s : State) : State :=
  mkState (isRecording s) (recordingTime s) (voiceError s) (isProcessing s)
    (autoMode s) (mediaRecorderRef s) (audioChunksRef s)
    (recordingTimerRef s) (streamRef s) (recorders s) (intervals s) v
    (autoListenTimeout s) (uploads s) (sessionId s) (voiceEnabled s)
    (isLoading s) (jobs s) (now s) (log s).

Definition set_autoListenTimeout (v : option (nat * Render)) (s : State) : State :=
  mkState (isRecording s) (recordingTime s) (voiceError s) (isProcessing s)
    (autoMode s) (mediaRecorderRef s) (audioChunksRef s)
    (recordingTimerRef s) (streamRef s) (recorders s) (intervals s)
    (nextInterval s) v (uploads s) (sessionId s) (voiceEnabled s)
    (isLoading s) (jobs s) (now s) (log s).

Definition set_uploads (v : list Upload) (s : State) : State :=
  mkState (isRecording s) (recordingTime s) (voiceError s) (isProcessing s)
    (autoMode s) (mediaRecorderRef s) (audioChunksRef s)
    (recordingTimerRef s) (streamRef s) (recorders s) (intervals s)
    (nextInterval s) (autoListenTimeout s) v (sessionId s) (voiceEnabled s)
    (isLoading s) (jobs s) (now s) (log s).

Definition set_isLoading (v : bool) (s : State) : State :=
  mkState (isRecording s) (recordingTime s) (voiceError s) (isProcessing s)
    (autoMode s) (mediaRecorderRef s) (audioChunksRef s)
    (recordingTimerRef s) (streamRef s) (recorders s) (intervals s)
    (nextInterval s) (autoListenTimeout s) (uploads s) (sessionId s)
    (voiceEnabled s) v (jobs s) (now s) (log s).

Definition set_jobs (v : list Job) (s : State) : State :=
  mkState (isRecording s) (recordingTime s) (voiceError s) (isProcessing s)
    (autoMode s) (mediaRecorderRef s) (audioChunksRef s)
    (recordingTimerRef s) (streamRef s) (recorders s) (intervals s)
    (nextInterval s) (autoListenTimeout s) (uploads s) (sessionId s)
    (voiceEnabled s) (isLoading s) v (now s) (log s).

Definition set_now (v : nat) (s : State) : State :=
  mkState (isRecording s) (recordingTime s) (voiceError s) (isProcessing s)
    (autoMode s) (mediaRecorderRef s) (audioChunksRef s)
    (recordingTimerRef s) (streamRef s) (recorders s) (intervals s)
    (nextInterval s) (autoListenTimeout s) (uploads s) (sessionId s)
    (voiceEnabled s) (isLoading s) (jobs s) v (log s).

Definition set_log (v : list (nat * Obs)) (s : State) : State :=
  mkState (isRecording s) (recordingTime s) (voiceError s) (isProcessing s)
    (autoMode s) (mediaRecorderRef s) (audioChunksRef s)
    (recordingTimerRef s) (streamRef s) (recorders s) (intervals s)
    (nextInterval s) (autoListenTimeout s) (uploads s) (sessionId s)
    (voiceEnabled s) (isLoading s) (jobs s) (now s) v.

Definition observe (o : Obs) (s : State) : State :=
  set_log (log s ++ [(now s, o)]) s.

(** The render of the current state: what the next event handler created
    by React closes over. *)
Definition render (s : State) : Render :=
  mkRender (isRecording s) (isProcessing s) (autoMode s)
           (sessionId s) (isLoading s) (voiceEnabled s).

(** The state after mount, with the microphone granted or not. *)
Definition initial (stream : bool) (sid : option string) : State :=
  mkState false 0 None false false
          None [] None stream
          [] [] 0 None []
          sid true false []
          0 [].

(** *** The fixed texts of the source *)

Definition listeningFallback : string :=
  "I'm listening but couldn't hear you clearly. Could you please repeat that?".

Definition errorFallback : string :=
  "I'm having trouble hearing you. Could you please try again?".

(** *** What the environment decides *)

(** Whether [new MediaRecorder(...)] or [start(250)] throws in a call of
    [startRecording]. *)
Inductive RecorderOracle : Type :=
| CtorThrows (message : string)
| StartThrows (message : string)
| Starts.

(** The answer to the transcribe request.  A missing [transcription]
    field is the empty string. *)
Inductive TranscribeResponse : Type :=
| TranscribeNetworkError (message : string)       (* [fetch] rejects *)
| TranscribeHttpError (status errorText : string) (* [!response.ok] *)
| TranscribeJsonInvalid (message : string)        (* [json()] rejects *)
| TranscribeJson (transcription : string).

(** The answer to the chat request of [sendVoiceMessage]. *)
Inductive ChatResponse : Type :=
| ChatFails
| ChatOk (response : string).

Section Component.

(** [MediaRecorder.isTypeSupported] of the runtime. *)
Variable isTypeSupported : string -> bool.

(** *** [stopRecording] (lines 560-581)

    Nothing in its [try] throws: [stop()] is called in state
    [recording] only.  It always returns [true]; no caller reads it. *)
Definition stopRecording (s : State) : State :=
  let s :=
    match mediaRecorderRef s with
    | Some id =>
        match recorders s !! id with
        | Some rc =>
            if isRecordingState (rec_state rc)
            then set_recorders
                   (<[id := mkRecorder inactive (rec_mimeType rc) true
                                       (rec_handlers rc)]> (recorders s)) s
            else s
        | None => s
        end
    | None => s
    end in
  match recordingTimerRef s with
  | Some t =>
      set_intervals (List.filter (fun i => negb (i =? t)%nat) (intervals s)) s
  | None => s
  end.

(** *** [startRecording] (lines 479-558)

    [r] is the render whose [startRecording] this is; the handlers it
    installs on the recorder are closures of [r]. *)
Definition startRecording (r : Render) (o : RecorderOracle) (s : State)
  : bool * State :=
  if negb (streamRef s) then
    (false, set_voiceError (Some "Microphone not available") s)
  else
    let s := set_audioChunksRef [] s in
    let mimeType := Format.negotiate isTypeSupported in
    let id := length (recorders s) in
    match o with
    | CtorThrows message =>
        (false, set_voiceError (Some (String.append "Recording failed: " message)) s)
    | StartThrows message =>
        let s := set_recorders
                   (recorders s ++ [mkRecorder inactive mimeType false r]) s in
        let s := set_mediaRecorderRef (Some id) s in
        (false, set_voiceError (Some (String.append "Recording failed: " message)) s)
    | Starts =>
        let s := set_recorders
                   (recorders s ++ [mkRecorder recording mimeType false r]) s in
        let s := set_mediaRecorderRef (Some id) s in
        let s := observe (ObsRecorderStarted id) s in
        let t := nextInterval s in
        let s := set_nextInterval (S t) s in
        let s := set_intervals (t :: intervals s) s in
        let s := set_recordingTimerRef (Some t) s in
        (true, s)
    end.

(** The callback of the interval (lines 537-550): the updater passed to
    [setRecordingTime].  [requestData()] only asks the recorder for a
    chunk, which arrives as a data event. *)
Definition onRecordingTimer (s : State) : State :=
  if (60 <=? recordingTime s)%nat
  then set_recordingTime 60 (stopRecording s)
  else set_recordingTime (recordingTime s + 1) s.

(** [ondataavailable] (lines 513-518). *)
Definition ondataavailable (data : Chunk) (s : State) : State :=
  if (0 <? length data)%nat
  then set_audioChunksRef (audioChunksRef s ++ [data]) s
  else s.

(** *** [handleVoiceRecord] (lines 703-728)

    The [await] of [startRecording] suspends for a microtask only, so
    the function runs as one step.  [onToggleListening] flips the
    shell's [isListening], which nothing on the voice path reads. *)
Definition handleVoiceRecord (r : Render) (o : RecorderOracle) (s : State)
  : State :=
  if negb (truthy (r_sessionId r)) then
    set_voiceError (Some "No active session") s
  else if r_isRecording r then
    stopRecording (set_isRecording false s)
  else
    let s := set_isRecording true s in
    let s := set_recordingTime 0 s in
    let s := set_voiceError None s in
    let (started, s) := startRecording r o s in
    if negb started then set_isRecording false s else s.

(** *** [scheduleAutoListening] (lines 686-701) and its timeout *)
Definition scheduleAutoListening (r : Render) (s : State) : State :=
  if negb (r_autoMode r) then s
  else set_autoListenTimeout (Some (now s + 3000, r)) s.

Definition onAutoListenTimeout (r : Render) (o : RecorderOracle)
           (s : State) : State :=
  if r_autoMode r && negb (r_isRecording r) && negb (r_isProcessing r)
  then handleVoiceRecord r o (observe ObsAutoRearm s)
  else s.

(** *** The shell's [handleVoiceMessage] and the start of
        [sendVoiceMessage] (part_002 lines 743-786)

    The shell always passes [handleVoiceMessage] as [onVoiceMessage]
    (line 1328), so the guards [if (onVoiceMessage)] hold. *)
Definition sendVoiceMessage (r : Render) (message : string) (s : State)
  : State :=
  if negb (truthy (r_sessionId r)) || r_isLoading r then s
  else set_jobs (jobs s ++ [mkJob AwaitChat r]) (set_isLoading true s).

Definition handleVoiceMessage (r : Render) (transcription : string)
           (s : State) : State :=
  if truthy (Some transcription) && trimTruthy transcription
  then sendVoiceMessage r transcription s
  else s.

Definition onVoiceMessage (r : Render) (res : TranscriptionResult)
           (s : State) : State :=
  handleVoiceMessage r (text res) (observe (ObsVoiceMessage res) s).

(** *** [processRecording] (lines 583-683) *)

(** The [catch] block (lines 663-671). *)
Definition processRecording_catch (r : Render) (message : string)
           (s : State) : State :=
  let s := set_voiceError (Some (String.append "Failed to process voice: " message)) s in
  onVoiceMessage r (mkResult errorFallback true) s.

(** The [finally] block (lines 672-682). *)
Definition processRecording_finally (r : Render) (s : State) : State :=
  let s := set_isProcessing false s in
  let s := set_recordingTime 0 s in
  let s := set_audioChunksRef [] s in
  let s := if r_autoMode r then scheduleAutoListening r s else s in
  observe ObsProcessed s.

(** From the call to the [await fetch(...)] (lines 584-639). *)
Definition processRecording (r : Render) (s : State) : State :=
  match audioChunksRef s with
  | [] =>
      let s := set_voiceError (Some "No audio recorded. Please try again.") s in
      let s := set_isProcessing false s in
      let s := if r_autoMode r then scheduleAutoListening r s else s in
      observe ObsProcessed s
  | _ =>
      let s := set_isProcessing true s in
      let (type, fileName) := Format.blobFormat isTypeSupported in
      let audioBlob := newBlob (audioChunksRef s) type in
      if (blob_size audioBlob <? 100)%nat then
        processRecording_finally r
          (processRecording_catch r "Audio recording too short or empty" s)
      else
        let session_id :=
          match r_sessionId r with
          | Some sid => if truthy (Some sid) then sid else "default"
          | None => "default"
          end in
        let u := mkUpload audioBlob fileName session_id r in
        observe (ObsTranscribe u) (set_uploads (uploads s ++ [u]) s)
  end.

(** From the settled [fetch] to the end (lines 641-682). *)
Definition processRecording_response (r : Render)
           (resp : TranscribeResponse) (s : State) : State :=
  match resp with
  | TranscribeNetworkError message =>
      processRecording_finally r (processRecording_catch r message s)
  | TranscribeHttpError status errorText =>
      processRecording_finally r
        (processRecording_catch r
           (String.append "Transcription failed: "
              (String.append status (String.append " - " errorText))) s)
  | TranscribeJsonInvalid message =>
      processRecording_finally r (processRecording_catch r message s)
  | TranscribeJson transcription =>
      if truthy (Some transcription) && trimTruthy transcription then
        let s := onVoiceMessage r (mkResult transcription false) s in
        processRecording_finally r (set_voiceError None s)
      else
        let s := onVoiceMessage r (mkResult listeningFallback true) s in
        let s := set_voiceError
                   (Some "No speech detected. Using fallback message to continue conversation.") s in
        processRecording_finally r s
  end.

End Component.

(** *** Events and runs

    One event is one task of the browser's event loop: a click, a timer, a
    recorder event, a settled request.  [step] returns [None] for an event
    that cannot occur in the state (a timer that is not due, a response to
    a request that was not sent). *)
Inductive Event : Type :=
| EvAdvance (dt : nat)                  (* time passes *)
| EvToggleAuto                          (* either auto-listen control *)
| EvClick (o : RecorderOracle)          (* the microphone button *)
| EvData (id : nat) (data : Chunk)      (* [dataavailable] of a recorder *)
| EvStop (id : nat)                     (* [stop] event of a recorder *)
| EvInterval (id : nat)                 (* a 1 s interval fires *)
| EvTranscribed (i : nat) (resp : TranscribeResponse)
| EvAutoListen (o : RecorderOracle)     (* the auto-listen timeout fires *)
| EvChat (j : nat) (resp : ChatResponse)
| EvTyping (j : nat)                    (* the 800 ms timeout of a job *)
| EvSynth (j : nat) (resp : Speech.SynthResponse)
| EvAudio (j : nat) (p : Speech.Playback).

Section Traces.

Variable isTypeSupported : string -> bool.

Definition setJob (j : nat) (ph : Phase) (s : State) : State :=
  match jobs s !! j with
  | Some job => set_jobs (<[j := mkJob ph (job_render job)]> (jobs s)) s
  | None => s
  end.

(** The promise of [synthesizeAndPlayVoice] either settles, which its
    caller could observe, or waits for the next event. *)
Definition settle (j : nat) (p : Speech.Progress) (s : State) : State :=
  match p with
  | Speech.Done o => observe (ObsSpeak o) (setJob j Finished s)
  | _ => setJob j (Speaking p) s
  end.

(** The rest of [sendVoiceMessage] (part_002 lines 787-818): the reply
    sets the 800 ms timeout, then [finally] clears [isLoading]. *)
Definition onChat (j : nat) (resp : ChatResponse) (s : State) : State :=
  let ph := match resp with
            | ChatOk response => TypingDelay (now s + 800) response
            | ChatFails => Finished
            end in
  set_isLoading false (setJob j ph s).

(** The callback of that timeout (lines 795-810). *)
Definition onTyping (j : nat) (r : Render) (response : string)
           (s : State) : State :=
  if r_voiceEnabled r && truthy (Some response)
  then settle j (Speech.synthesizeAndPlayVoice_start
                   (r_voiceEnabled r) (r_sessionId r)) s
  else setJob j Finished s.

Definition step (e : Event) (s : State) : option State :=
  match e with
  | EvAdvance dt => Some (set_now (now s + dt) s)
  | EvToggleAuto => Some (set_autoMode (negb (autoMode s)) s)
  | EvClick o => Some (handleVoiceRecord isTypeSupported (render s) o s)
  | EvData id data =>
      match recorders s !! id with
      | Some rc =>
          if isRecordingState (rec_state rc) || rec_stopQueued rc
          then Some (ondataavailable data s)
          else None
      | None => None
      end
  | EvStop id =>
      match recorders s !! id with
      | Some rc =>
          if rec_stopQueued rc then
            let rc' := mkRecorder (rec_state rc) (rec_mimeType rc) false
                                  (rec_handlers rc) in
            Some (processRecording isTypeSupported (rec_handlers rc)
                    (set_recorders (<[id := rc']> (recorders s)) s))
          else None
      | None => None
      end
  | EvInterval id =>
      if existsb (Nat.eqb id) (intervals s)
      then Some (onRecordingTimer s)
      else None
  | EvTranscribed i resp =>
      match uploads s !! i with
      | Some u =>
          Some (processRecording_response (up_render u) resp
                  (set_uploads (delete i (uploads s)) s))
      | None => None
      end
  | EvAutoListen o =>
      match autoListenTimeout s with
      | Some (due, r) =>
          if (due <=? now s)%nat
          then Some (onAutoListenTimeout isTypeSupported r o
                       (set_autoListenTimeout None s))
          else None
      | None => None
      end
  | EvChat j resp =>
      match job_phase <$> jobs s !! j with
      | Some AwaitChat => Some (onChat j resp s)
      | _ => None
      end
  | EvTyping j =>
      match jobs s !! j with
      | Some (mkJob (TypingDelay due response) r) =>
          if (due <=? now s)%nat then Some (onTyping j r response s)
          else None
      | _ => None
      end
  | EvSynth j resp =>
      match job_phase <$> jobs s !! j with
      | Some (Speaking Speech.AwaitingSynthesis) =>
          Some (settle j (Speech.synthesizeAndPlayVoice_response resp) s)
      | _ => None
      end
  | EvAudio j p =>
      match job_phase <$> jobs s !! j with
      | Some (Speaking Speech.AwaitingPlayback) =>
          Some (settle j (Speech.Done (Speech.playAudioFromBase64_finish p)) s)
      | _ => None
      end
  end.

Fixpoint run (tr : list Event) (s : State) : option State :=
  match tr with
  | [] => Some s
  | e :: tr' =>
      match step e s with
      | Some s' => run tr' s'
      | None => None
      end
  end.

End Traces.

(** *** Readings of a state *)

(** The recorders that are capturing. *)
Definition recordingCount (s : State) : nat :=
  length (List.filter (fun rc => isRecordingState (rec_state rc)) (recorders s)).

(** The observations of one kind, with their times. *)
Definition rearmTimes (s : State) : list nat :=
  flat_map (fun '(t, o) => match o with ObsAutoRearm => [t] | _ => [] end) (log s).

Definition speakTimes (s : State) : list nat :=
  flat_map (fun '(t, o) => match o with ObsSpeak _ => [t] | _ => [] end) (log s).

Definition processedTimes (s : State) : list nat :=
  flat_map (fun '(t, o) => match o with ObsProcessed => [t] | _ => [] end) (log s).

Definition voiceMessages (s : State) : list TranscriptionResult :=
  flat_map (fun '(_, o) => match o with ObsVoiceMessage res => [res] | _ => [] end) (log s).

Definition transcribeCalls (s : State) : list Upload :=
  flat_map (fun '(_, o) => match o with ObsTranscribe u => [u] | _ => [] end) (log s).

(** What can become of a recorder: its format and its handlers stay,
    once inactive it stays inactive, and an inactive recorder with no stop
    event queued never gets one. *)
Definition ages (rc rc' : Recorder) : Prop :=
  rec_mimeType rc' = rec_mimeType rc
  /\ rec_handlers rc' = rec_handlers rc
  /\ (rec_state rc = inactive ->
      rec_state rc' = inactive
      /\ (rec_stopQueued rc = false -> rec_stopQueued rc' = false)).

(** Every recorder of [s] is still there in [s'], aged. *)
Definition recordersAge (s s' : State) : Prop :=
  forall id rc, recorders s !! id = Some rc ->
                exists rc', recorders s' !! id = Some rc' /\ ages rc rc'.

(** [s'] has the re-arms, the completed processings and the pending
    auto-listen timeout of [s]. *)
Definition quiet (s s' : State) : Prop :=
  rearmTimes s' = rearmTimes s
  /\ processedTimes s' = processedTimes s
  /\ autoListenTimeout s' = autoListenTimeout s.

(** Between [s] and [s'] one [processRecording] of render [r] has ended. *)
Definition completes (r : Render) (s s' : State) : Prop :=
  rearmTimes s' = rearmTimes s
  /\ processedTimes s' = processedTimes s ++ [now s]
  /\ autoListenTimeout s'
     = if r_autoMode r then Some (now s + 3000, r) else autoListenTimeout s.

(** Every re-arm so far came 3000 ms or more after a completed
    processing; the pending timeout, if any, belongs to a render with
    auto-listen on and is due 3000 ms after a completed processing; and
    re-arms, counting the pending one, do not outnumber completed
    processings. *)
Definition rearmsJustified (s : State) : Prop :=
  (forall t, In t (rearmTimes s) ->
             exists tp, In tp (processedTimes s) /\ tp + 3000 <= t)
  /\ (forall due r, autoListenTimeout s = Some (due, r) ->
                    r_autoMode r = true
                    /\ exists tp, In tp (processedTimes s) /\ due = tp + 3000)
  /\ length (rearmTimes s)
     + match autoListenTimeout s with Some _ => 1 | None => 0 end
     <= length (processedTimes s).

(** Auto-listen is off and no callback in the state was created by a
    render in which it was on. *)
Definition autoListenNeverOn (s : State) : Prop :=
  autoMode s = false
  /\ autoListenTimeout s = None
  /\ rearmTimes s = []
  /\ Forall (fun rc => r_autoMode (rec_handlers rc) = false) (recorders s)
  /\ Forall (fun u => r_autoMode (up_render u) = false) (uploads s).

(** The recorder that [mediaRecorderRef] points to is not capturing. *)
Definition currentRecorderStopped (s : State) : Prop :=
  forall id rc, mediaRecorderRef s = Some id -> recorders s !! id = Some rc ->
                rec_state rc = inactive.

End Voice.

(** ** Concrete runtimes and runs used below *)

Module Scenario.

Import Voice.

(** A runtime that records WebM only, one that records only MP3 and Ogg,
    and one that records only Ogg. *)
Definition webmRuntime : string -> bool :=
  Format.supportsOnly ["audio/webm;codecs=opus"; "audio/webm"].

Definition mp3OggRuntime : string -> bool :=
  Format.supportsOnly ["audio/mp3"; "audio/ogg;codecs=opus"; "audio/ogg"].

Definition oggRuntime : string -> bool :=
  Format.supportsOnly ["audio/ogg;codecs=opus"; "audio/ogg"].

(** 200 bytes of audio, and 50 bytes (under the 100 byte threshold). *)
Definition utterance : Chunk := repeat x00 200.
Definition blip : Chunk := repeat x00 50.

Definition session : option string := Some "s1".

(** A spoken reply whose audio decodes. *)
Definition voiceReply : Speech.SynthResponse :=
  Speech.SynthHttp true (Speech.JsonVoice "UklGRg==" "mp3").

(** One press-to-talk cycle up to the stop event: the user starts a
    capture, one second of audio arrives, the user stops. The oracle of the
    second click is not consulted. *)
Definition capture (id : nat) (data : Chunk) : list Event :=
  [EvClick Starts; EvAdvance 1000; EvData id data; EvClick Starts; EvStop id].

(** Auto-listen on; one cycle; the transcription arrives at 1400 ms, so
    the re-arm timer is due at 4400 ms; the reply is fetched and starts to
    play at 3000 ms, and its audio ends at 4900 ms. *)
Definition rearmDuringSpeech : list Event :=
  EvToggleAuto :: capture 0 utterance ++
  [ EvAdvance 400; EvTranscribed 0 (TranscribeJson "hello");
    EvAdvance 300; EvChat 0 (ChatOk "I hear you.");
    EvAdvance 800; EvTyping 0;
    EvAdvance 500; EvSynth 0 voiceReply;
    EvAdvance 1400; EvAutoListen Starts;
    EvAdvance 500; EvAudio 0 Speech.PlaybackEnded ].

(** Auto-listen on when the capture starts and switched off while it
    runs; the reply has been spoken by 3700 ms; the timer fires at 4400. *)
Definition rearmWhileDisabled : list Event :=
  [ EvToggleAuto; EvClick Starts; EvAdvance 1000; EvData 0 utterance;
    EvToggleAuto; EvClick Starts; EvStop 0;
    EvAdvance 400; EvTranscribed 0 (TranscribeJson "hello");
    EvAdvance 300; EvChat 0 (ChatOk "I hear you.");
    EvAdvance 800; EvTyping 0;
    EvAdvance 200; EvSynth 0 voiceReply;
    EvAdvance 1000; EvAudio 0 Speech.PlaybackEnded;
    EvAdvance 700; EvAutoListen Starts ].

(** Auto-listen on; one cycle; one second after the transcription the
    user starts a capture by hand; two seconds later the timer fires. *)
Definition manualThenTimer : list Event :=
  EvToggleAuto :: capture 0 utterance ++
  [ EvAdvance 400; EvTranscribed 0 (TranscribeJson "hello");
    EvAdvance 1000; EvClick Starts;
    EvAdvance 2000; EvAutoListen Starts ].

(** A synthesis answer whose [audio_data] is not base64. *)
Definition undecodable : Speech.SpeakEnv :=
  Speech.mkSpeakEnv (Speech.SynthHttp true (Speech.JsonVoice "!" "mp3"))
                    Speech.PlaybackEnded.

(** A synthesis answer that decodes, played by an element whose [play()]
    is refused. *)
Definition playRefused : Speech.SpeakEnv :=
  Speech.mkSpeakEnv voiceReply Speech.PlayRejected.

(** A state in which the recording flag is down and nothing is captured,
    with and without a microphone stream. *)
Definition idle : State := initial true session.
Definition noMicrophone : State := initial false session.

(** A capture that the user never stops: the start, then sixty ticks of
    its interval. *)
Definition sixtyTicks : list Event :=
  EvClick Starts :: repeat (EvInterval 0) 60.

Definition atTheCap : State :=
  default idle (run webmRuntime sixtyTicks idle).

(** The run of [manualThenTimer], which leaves two recorders capturing,
    each with its interval, followed by thirty ticks of either interval. *)
Definition twoRecordersToTheCap : list Event :=
  manualThenTimer ++ concat (repeat [EvInterval 1; EvInterval 2] 30).

Definition afterRearmDuringSpeech : State :=
  default idle (run webmRuntime rearmDuringSpeech idle).

(** The state in which the transcription of one capture is awaited. *)
Definition awaitingTranscription : State :=
  default idle (run webmRuntime (capture 0 utterance) idle).

(** One cycle whose reply comes back from synthesis with audio that does
    not decode. *)
Definition undecodableReply : list Event :=
  capture 0 utterance ++
  [ EvAdvance 400; EvTranscribed 0 (TranscribeJson "hello");
    EvAdvance 300; EvChat 0 (ChatOk "I hear you.");
    EvAdvance 800; EvTyping 0;
    EvAdvance 500; EvSynth 0 (Speech.env_synth undecodable) ].

End Scenario.

(** ** Mount and unmount of the voice controls ([useEffect], lines 355-363;
       [cleanup], lines 365-385; [initializeMediaRecorder], lines 387-445) *)

Module Lifecycle.

Import Voice.

Definition set_streamRef (v : bool) (s : State) : State :=
  mkState (isRecording s) (recordingTime s) (voiceError s) (isProcessing s)
    (autoMode s) (mediaRecorderRef s) (audioChunksRef s)
    (recordingTimerRef s) v (recorders s) (intervals s) (nextInterval s)
    (autoListenTimeout s) (uploads s) (sessionId s) (voiceEnabled s)
    (isLoading s) (jobs s) (now s) (log s).

(** What [getUserMedia] answers. *)
Inductive MediaGrant : Type :=
| Granted
| Denied (message : string).

(** What the browser decides during [initializeMediaRecorder]: the request
    with the preferred constraints, the retry with [{ audio: true }], and
    whether creating or stopping the test recorder throws.  The audio
    analysis set up in between has a [try] of its own and touches only the
    analyser, which the state does not hold. *)
Record InitOracle : Type := mkInit {
  ideal : MediaGrant;
  fallback : MediaGrant;
  recorderTestThrows : bool
}.

(** The code after a stream was obtained (lines 418-440). *)
Definition afterStream (testThrows : bool) (s : State) : State :=
  let s := set_streamRef true s in
  let s := set_voiceError None s in
  if testThrows
  then set_voiceError
         (Some "Your browser may not fully support audio recording. Results may vary.") s
  else s.

(** [initializeMediaRecorder].  Its state changes all happen after its last
    [await], so it is one step. *)
Definition initializeMediaRecorder (o : InitOracle) (s : State) : State :=
  match ideal o with
  | Granted => afterStream (recorderTestThrows o) s
  | Denied _ =>
      match fallback o with
      | Granted => afterStream (recorderTestThrows o) s
      | Denied message =>
          set_voiceError
            (Some (String.append "Microphone access denied: "
                     (String.append message
                        ". Please enable microphone permissions."))) s
      end
  end.

(** The effect of the mount: [if (sessionId) initializeMediaRecorder()]. *)
Definition mount (o : InitOracle) (sid : option string) : State :=
  if truthy sid then initializeMediaRecorder o (initial false sid)
  else initial false sid.

(** What the end of every track of its stream does to a recorder: one
    that is capturing is made inactive by the user agent, which then fires
    [dataavailable] and [stop], as after [stop()]; one that is inactive is
    left alone. *)
Definition endTracks (rc : Recorder) : Recorder :=
  match rec_state rc with
  | recording => mkRecorder inactive (rec_mimeType rc) true (rec_handlers rc)
  | inactive => rc
  end.

(** [cleanup] (lines 365-385).  [track.stop()] ends the tracks of the one
    stream every recorder of the component was created on; the handle
    stays in [streamRef].  Then the interval and the auto-listen timeout
    are cleared.  Closing the audio context acts on an object the state
    does not hold, and the animation frame belongs to the level monitor.
    On a stream whose tracks have ended [start()] throws, which is
    [StartThrows] of the oracle of a later start. *)
Definition cleanup (s : State) : State :=
  let s :=
    if streamRef s
    then set_recorders (map endTracks (recorders s)) s
    else s in
  let s :=
    match recordingTimerRef s with
    | Some t =>
        set_intervals (List.filter (fun i => negb (i =? t)%nat) (intervals s)) s
    | None => s
    end in
  set_autoListenTimeout None s.

End Lifecycle.

(** ** Further readings of a state *)

Module Reading.

Import Voice.

(** A recorder that is capturing is the one [mediaRecorderRef] points to,
    and the recording flag is up. *)
Definition singleRecorder (s : State) : Prop :=
  forall id rc, recorders s !! id = Some rc -> rec_state rc = recording ->
                mediaRecorderRef s = Some id /\ isRecording s = true.

(** Nothing has been created, sent, scheduled or observed. *)
Definition untouched (s : State) : Prop :=
  streamRef s = false /\ isRecording s = false
  /\ recorders s = [] /\ intervals s = [] /\ uploads s = [] /\ jobs s = []
  /\ autoListenTimeout s = None /\ log s = [].

(** A recorder that is capturing and is not the one [mediaRecorderRef]
    points to. *)
Definition orphaned (id : nat) (s : State) : Prop :=
  (exists rc, recorders s !! id = Some rc /\ rec_state rc = recording)
  /\ mediaRecorderRef s <> Some id.

(** The data events of one capture, in arrival order. *)
Definition collect (chunks : list Chunk) (s : State) : State :=
  fold_left (fun st data => ondataavailable data st) chunks s.

End Reading.

(** ** The clock texts ([formatTime], SessionActions.js lines 730-734, and
       [formatSessionTime], part_002 lines 822-826, which is the same code) *)

Module Display.

(** [Number.prototype.toString] of a non-negative integer. *)
Definition toString (n : nat) : string :=
  NilEmpty.string_of_uint (Nat.to_uint n).

Fixpoint repeatChar (c : ascii) (n : nat) : string :=
  match n with
  | O => EmptyString
  | S k => String c (repeatChar c k)
  end.

(** [String.prototype.padStart] with a filler of one character. *)
Definition padStart (targetLength : nat) (padChar : ascii) (s : string)
  : string :=
  String.append (repeatChar padChar (targetLength - String.length s)) s.

Definition formatTime (seconds : nat) : string :=
  let mins := seconds / 60 in
  let secs := seconds mod 60 in
  String.append (toString mins)
    (String ":" (padStart 2 "0" (toString secs))).

Definition isDigit (c : ascii) : bool :=
  let n := nat_of_ascii c in (48 <=? n)%nat && (n <=? 57)%nat.

Fixpoint allDigits (s : string) : bool :=
  match s with
  | EmptyString => true
  | String c t => isDigit c && allDigits t
  end.

(** The padded texts of the seconds below sixty are pairwise different. *)
Definition secondsDistinct : bool :=
  forallb (fun a => forallb (fun b =>
     implb (String.eqb (padStart 2 "0" (toString a))
                       (padStart 2 "0" (toString b)))
           (a =? b)%nat) (seq 0 60)) (seq 0 60).

(** Four characters, [1:00] or a text that starts with [0:]. *)
Definition clockShape (t : string) : bool :=
  (String.length t =? 4)%nat
  && (String.eqb t "1:00" || String.prefix "0:" t).

End Display.

(** ** The level monitor ([monitorAudioLevel], SessionActions.js lines
       447-477) and the display fed by it (lines 842-874)

    The bins of the analyser are bytes; their number is a power of two
    (128 with the [fftSize] of 256 set at mount), so the average and its
    quotient by 128 are exact in the floating point of the source, and a
    rational number holds them here. *)

Module Level.

Import Voice.

Inductive Quality : Type := excellent | good | fair | poor.

(** [audioLevel] and [recordingQuality] are [useState] cells;
    [framePending] tells whether a frame requested for [updateLevel] is
    outstanding. *)
Record Monitor : Type := mkMonitor {
  audioLevel : Q;
  recordingQuality : Quality;
  framePending : bool
}.

Definition initialMonitor : Monitor := mkMonitor 0 good false.

(** [dataArray.reduce((a, b) => a + b)] *)
Definition total (dataArray : list byte) : nat :=
  fold_left (fun a b => a + Byte.to_nat b) dataArray 0.

(** [x > y] *)
Definition above (x y : Q) : bool := negb (Qle_bool x y).

Definition classify (normalizedLevel : Q) : Quality :=
  if above normalizedLevel (6 # 10) then excellent
  else if above normalizedLevel (3 # 10) then good
  else if above normalizedLevel (1 # 10) then fair
  else poor.

Definition normalizedLevel (dataArray : list byte) : Q :=
  let average := (inject_Z (Z.of_nat (total dataArray))
                  / inject_Z (Z.of_nat (length dataArray)))%Q in
  Qmin (average / 128) 1.

(** [updateLevel] of the render [r].  [reduce] without a start value
    throws on an empty array, which is [None]; an analyser never has
    fewer than 16 bins. *)
Definition updateLevel (r : Render) (dataArray : list byte) (m : Monitor)
  : option Monitor :=
  match dataArray with
  | [] => None
  | _ =>
    let level := normalizedLevel dataArray in
    Some (mkMonitor level (classify level)
            (if r_isRecording r then true else framePending m))
  end.

(** [analyserRef] is the analyser, if the mount could create one, as the
    bins its next [getByteFrequencyData] yields. *)
Definition monitorAudioLevel (r : Render) (analyserRef : option (list byte))
    (m : Monitor) : option Monitor :=
  match analyserRef with
  | None => Some m
  | Some dataArray => updateLevel r dataArray m
  end.

Definition cancelAnimationFrame (m : Monitor) : Monitor :=
  mkMonitor (audioLevel m) (recordingQuality m) false.

(** What [handleVoiceRecord] (lines 703-728) does to the monitor:
    [stopRecording] cancels the frame (lines 571-573); [startRecording]
    calls [monitorAudioLevel] once [start(250)] has returned (line 534),
    inside its [try], whose [catch] swallows what the call throws. *)
Definition handleVoiceRecord_monitor (r : Render) (o : RecorderOracle)
    (stream : bool) (analyserRef : option (list byte)) (m : Monitor)
  : Monitor :=
  if negb (truthy (r_sessionId r)) then m
  else if r_isRecording r then cancelAnimationFrame m
  else if negb stream then m
  else match o with
       | Starts =>
           match monitorAudioLevel r analyserRef m with
           | Some m' => m'
           | None => m
           end
       | _ => m
       end.

(** [isActive] of the wave (line 872). *)
Definition waveActive (m : Monitor) : bool := above (audioLevel m) (1 # 10).

(** The labels from the lowest threshold to the highest. *)
Definition rank (q : Quality) : nat :=
  match q with poor => 0 | fair => 1 | good => 2 | excellent => 3 end.

(** Two samples of 128 bins. *)
Definition loud : list byte := repeat "200"%byte 128.
Definition faint : list byte := repeat "010"%byte 128.

End Level.

(** ** The suggested-actions dialog ([SessionActions], lines 41-95) *)

Module Actions.

Record Action : Type := mkAction {
  title : string;
  description : string;
  category : string;
  duration : string;
  difficulty : string
}.

Record State : Type := mkState {
  actions : list Action;
  loading : bool;
  error : string;
  completedActions : list nat;
  requests : list string;       (* the session segment of each URL fetched *)
  inFlight : nat                (* fetches not yet settled *)
}.

Definition initial : State := mkState [] false "" [] [] 0.

(** How the [fetch] of one call of [fetchSessionActions] ends.  [Thrown]
    is a rejected [fetch], a rejected [text()] or [json()], or a body that
    is not an object; [FetchOk] carries [data.actions] when it is there
    and truthy. *)
Inductive Response : Type :=
| Thrown (message : string)
| NotOk (status errorText : string)
| FetchOk (data_actions : option (list Action)).

(** A session id inside a template literal. *)
Definition interpolate (sessionId : option string) : string :=
  match sessionId with
  | Some id => id
  | None => "null"
  end.

(** [fetchSessionActions] up to its [await fetch(...)]. *)
Definition fetchSessionActions (sessionId : option string) (s : State)
  : State :=
  mkState (actions s) true "" (completedActions s)
          (requests s ++ [interpolate sessionId]) (S (inFlight s)).

(** [fetchSessionActions] from the settled [fetch] on. *)
Definition fetchSessionActions_response (resp : Response) (s : State)
  : State :=
  let s :=
    match resp with
    | FetchOk data_actions =>
        mkState (default [] data_actions) (loading s) (error s)
                (completedActions s) (requests s) (inFlight s)
    | NotOk status errorText =>
        mkState (actions s) (loading s)
                (String.append "Failed to fetch actions: "
                   (String.append status (String.append " " errorText)))
                (completedActions s) (requests s) (inFlight s)
    | Thrown message =>
        mkState (actions s) (loading s) message (completedActions s)
                (requests s) (inFlight s)
    end in
  mkState (actions s) false (error s) (completedActions s) (requests s)
          (inFlight s).

(** The effect on [open] and [sessionId] (lines 47-51). *)
Definition onOpen (open : bool) (sessionId : option string) (s : State)
  : State :=
  if open && truthy sessionId then fetchSessionActions sessionId s else s.

Definition handleRefresh (sessionId : option string) (s : State) : State :=
  fetchSessionActions sessionId s.

(** [completedActions.includes(index)] *)
Definition includes (l : list nat) (index : nat) : bool :=
  existsb (Nat.eqb index) l.

Definition handleActionComplete (actionIndex : nat) (s : State) : State :=
  let completed :=
    if includes (completedActions s) actionIndex
    then List.filter (fun idx => negb (idx =? actionIndex)%nat)
                     (completedActions s)
    else (completedActions s ++ [actionIndex])%list in
  mkState (actions s) (loading s) (error s) completed (requests s)
          (inFlight s).

(** The dialog's events: the props change, the refresh button, a settled
    fetch, a click on the button of one action. *)
Inductive Event : Type :=
| Props (open : bool) (sessionId : option string)
| Refresh (sessionId : option string)
| Settled (resp : Response)
| Complete (actionIndex : nat).

Definition step (e : Event) (s : State) : option State :=
  match e with
  | Props open sessionId => Some (onOpen open sessionId s)
  | Refresh sessionId => Some (handleRefresh sessionId s)
  | Settled resp =>
      match inFlight s with
      | S n =>
          Some (fetchSessionActions_response resp
                  (mkState (actions s) (loading s) (error s)
                           (completedActions s) (requests s) n))
      | O => None
      end
  | Complete actionIndex => Some (handleActionComplete actionIndex s)
  end.

Fixpoint run (tr : list Event) (s : State) : option State :=
  match tr with
  | [] => Some s
  | e :: tr =>
      match step e s with
      | Some s' => run tr s'
      | None => None
      end
  end.

(** How often the button of [index] was clicked. *)
Definition clicks (index : nat) (tr : list Event) : nat :=
  length (List.filter (fun e => match e with
                                | Complete i => (i =? index)%nat
                                | _ => false
                                end) tr).

(** The list the last successful fetch brought, [start] if there was none. *)
Fixpoint lastFetched (start : list Action) (tr : list Event) : list Action :=
  match tr with
  | [] => start
  | Settled (FetchOk data_actions) :: tr =>
      lastFetched (default [] data_actions) tr
  | _ :: tr => lastFetched start tr
  end.

(** A run: fetch at opening, a mark, a refresh that fails, more marks. *)
Definition refreshFails : list Event :=
  [ Props true (Some "s1");
    Settled (FetchOk (Some [mkAction "Breathe" "Box breathing" "anxiety"
                                     "5 min" "Easy";
                            mkAction "Walk" "A short walk" "self-care"
                                     "10 min" "Easy"]));
    Complete 1; Refresh (Some "s1"); Settled (NotOk "500" "boom");
    Complete 0; Complete 1; Complete 1 ].

Definition after (tr : list Event) : State :=
  default initial (run tr initial).

End Actions.

(** ** The shell's conversation logic (part_002)

    [App] from the start of a session to its end: [initializeSession]
    (lines 339-409), [sendMessage] (435-514), [resetConversation]
    (559-590), [changeGenerationMode] (601-653), [handleVoiceMessage] and
    [sendVoiceMessage] (743-819) and the toggles.  Every [await] and every
    [setTimeout] is a pending task that holds the render whose closure it
    is; the event that settles it names it by its index.  Timers carry no
    clock here: a pending timeout may fire at any later event.

    The [error] and [notification] cells, which are only displayed, the
    authentication state, which only adds a header, and
    [fetchConversationSummary] are left out. *)

Module Shell.

Inductive Mode : Type := chat | voice.

Definition isVoiceMode (m : Mode) : bool :=
  match m with voice => true | chat => false end.

Inductive Sender : Type := user | therapist | system.

Record Message : Type := mkMessage {
  text : string;
  sender : Sender;
  isVoice : bool
}.

Inductive Connection : Type := disconnected | connected | connectionError.

(** The values a closure of one render reads. *)
Record Render : Type := mkRender {
  a_inputMessage : string;
  a_sessionId : option string;
  a_isLoading : bool;
  a_voiceEnabled : bool;
  a_isListening : bool;
  a_interfaceMode : Mode;
  a_generationMode : string
}.

(** Who asked [synthesizeAndPlayVoice] to speak. *)
Inductive Origin : Type :=
| Welcome          (* the timer of [initializeSession] *)
| TextReply        (* the timer of [sendMessage] *)
| VoiceReply.      (* the timer of [sendVoiceMessage] *)

Inductive Task : Type :=
| CreatingSession (r : Render)               (* POST /api/session/create *)
| WelcomeDelay (r : Render) (welcome_message : option string)  (* 500 ms *)
| WelcomeSpeechDelay (r : Render) (text : string)              (* 1000 ms *)
| Chatting (o : Origin) (r : Render) (message : string)  (* POST /api/chat *)
| TypingDelay (o : Origin) (r : Render) (response : string)
| Speaking (o : Origin) (r : Render) (p : Speech.Progress)
| RelistenDelay                              (* 1000 ms, line 499 *)
| ChangingMode (r : Render) (mode : string)  (* POST .../mode *)
| EndingSession                              (* DELETE /api/session/id *)
| Finished.

Record State : Type := mkState {
  messages : list Message;
  inputMessage : string;
  sessionId : option string;
  isLoading : bool;
  voiceEnabled : bool;
  isListening : bool;
  connectionStatus : Connection;
  showWelcome : bool;
  typingIndicator : bool;
  messageCount : nat;
  generationMode : string;
  interfaceMode : Mode;
  tasks : list Task;
  synthesized : list (Origin * string)
}.

Definition set_messages (v : list Message) (s : State) : State :=
  mkState v (inputMessage s) (sessionId s) (isLoading s) (voiceEnabled s)
    (isListening s) (connectionStatus s) (showWelcome s) (typingIndicator s)
    (messageCount s) (generationMode s) (interfaceMode s) (tasks s)
    (synthesized s).

Definition set_inputMessage (v : string) (s : State) : State :=
  mkState (messages s) v (sessionId s) (isLoading s) (voiceEnabled s)
    (isListening s) (connectionStatus s) (showWelcome s) (typingIndicator s)
    (messageCount s) (generationMode s) (interfaceMode s) (tasks s)
    (synthesized s).

Definition set_sessionId (v : option string) (s : State) : State :=
  mkState (messages s) (inputMessage s) v (isLoading s) (voiceEnabled s)
    (isListening s) (connectionStatus s) (showWelcome s) (typingIndicator s)
    (messageCount s) (generationMode s) (interfaceMode s) (tasks s)
    (synthesized s).

Definition set_isLoading (v : bool) (s : State) : State :=
  mkState (messages s) (inputMessage s) (sessionId s) v (voiceEnabled s)
    (isListening s) (connectionStatus s) (showWelcome s) (typingIndicator s)
    (messageCount s) (generationMode s) (interfaceMode s) (tasks s)
    (synthesized s).

Definition set_voiceEnabled (v : bool) (s : State) : State :=
  mkState (messages s) (inputMessage s) (sessionId s) (isLoading s) v
    (isListening s) (connectionStatus s) (showWelcome s) (typingIndicator s)
    (messageCount s) (generationMode s) (interfaceMode s) (tasks s)
    (synthesized s).

Definition set_isListening (v : bool) (s : State) : State :=
  mkState (messages s) (inputMessage s) (sessionId s) (isLoading s)
    (voiceEnabled s) v (connectionStatus s) (showWelcome s)
    (typingIndicator s) (messageCount s) (generationMode s)
    (interfaceMode s) (tasks s) (synthesized s).

Definition set_connectionStatus (v : Connection) (s : State) : State :=
  mkState (messages s) (inputMessage s) (sessionId s) (isLoading s)
    (voiceEnabled s) (isListening s) v (showWelcome s) (typingIndicator s)
    (messageCount s) (generationMode s) (interfaceMode s) (tasks s)
    (synthesized s).

Definition set_showWelcome (v : bool) (s : State) : State :=
  mkState (messages s) (inputMessage s) (sessionId s) (isLoading s)
    (voiceEnabled s) (isListening s) (connectionStatus s) v
    (typingIndicator s) (messageCount s) (generationMode s)
    (interfaceMode s) (tasks s) (synthesized s).

Definition set_typingIndicator (v : bool) (s : State) : State :=
  mkState (messages s) (inputMessage s) (sessionId s) (isLoading s)
    (voiceEnabled s) (isListening s) (connectionStatus s) (showWelcome s) v
    (messageCount s) (generationMode s) (interfaceMode s) (tasks s)
    (synthesized s).

Definition set_messageCount (v : nat) (s : State) : State :=
  mkState (messages s) (inputMessage s) (sessionId s) (isLoading s)
    (voiceEnabled s) (isListening s) (connectionStatus s) (showWelcome s)
    (typingIndicator s) v (generationMode s) (interfaceMode s) (tasks s)
    (synthesized s).

Definition set_generationMode (v : string) (s : State) : State :=
  mkState (messages s) (inputMessage s) (sessionId s) (isLoading s)
    (voiceEnabled s) (isListening s) (connectionStatus s) (showWelcome s)
    (typingIndicator s) (messageCount s) v (interfaceMode s) (tasks s)
    (synthesized s).

Definition set_interfaceMode (v : Mode) (s : State) : State :=
  mkState (messages s) (inputMessage s) (sessionId s) (isLoading s)
    (voiceEnabled s) (isListening s) (connectionStatus s) (showWelcome s)
    (typingIndicator s) (messageCount s) (generationMode s) v (tasks s)
    (synthesized s).

Definition set_tasks (v : list Task) (s : State) : State :=
  mkState (messages s) (inputMessage s) (sessionId s) (isLoading s)
    (voiceEnabled s) (isListening s) (connectionStatus s) (showWelcome s)
    (typingIndicator s) (messageCount s) (generationMode s)
    (interfaceMode s) v (synthesized s).

Definition set_synthesized (v : list (Origin * string)) (s : State) : State :=
  mkState (messages s) (inputMessage s) (sessionId s) (isLoading s)
    (voiceEnabled s) (isListening s) (connectionStatus s) (showWelcome s)
    (typingIndicator s) (messageCount s) (generationMode s)
    (interfaceMode s) (tasks s) v.

(** [useState] initial values (lines 241-257). *)
Definition initial : State :=
  mkState [] "" None false true false disconnected true false 0
          "default" chat [] [].

Definition render (s : State) : Render :=
  mkRender (inputMessage s) (sessionId s) (isLoading s) (voiceEnabled s)
           (isListening s) (interfaceMode s) (generationMode s).

Definition spawn (t : Task) (s : State) : State :=
  set_tasks (tasks s ++ [t]) s.

Definition setTask (i : nat) (t : Task) (s : State) : State :=
  set_tasks (<[i := t]> (tasks s)) s.

(** *** [initializeSession] (lines 339-409) *)

Inductive CreateResponse : Type :=
| CreateFails      (* rejected fetch, status not ok, or a body that does not parse *)
| CreateOk (session_id welcome_message : option string).

(** [v || d] for a value that is a string or absent. *)
Definition orElse (v : option string) (d : string) : string :=
  match v with
  | Some m => if truthy v then m else d
  | None => d
  end.

Definition defaultWelcome : string :=
  "Hello! I'm Dr. Samaira, your AI therapist companion. I'm here to listen and support you through whatever you're going through. How are you feeling today?".

Definition initializeSession (r : Render) (s : State) : State :=
  spawn (CreatingSession r) (set_isLoading true s).

Definition initializeSession_response (r : Render) (resp : CreateResponse)
    (s : State) : State :=
  let s :=
    match resp with
    | CreateOk session_id welcome_message =>
        let s := set_sessionId session_id s in
        let s := set_connectionStatus connected s in
        let s := set_showWelcome false s in
        spawn (WelcomeDelay r welcome_message) s
    | CreateFails => set_connectionStatus connectionError s
    end in
  set_isLoading false s.

(** *** [synthesizeAndPlayVoice] as the shell calls it, with the [then]
    handler of the caller *)

(** The [then] handlers: the one of [sendMessage] (lines 495-503) sets
    the re-listen timeout, the one of [sendVoiceMessage] only logs, and
    the welcome call has none. *)
Definition onSpoken (o : Origin) (r : Render) (s : State) : State :=
  match o with
  | TextReply =>
      if isVoiceMode (a_interfaceMode r) && negb (a_isListening r)
      then spawn RelistenDelay s
      else s
  | _ => s
  end.

Definition speak (o : Origin) (r : Render) (text : string) (s : State)
  : State :=
  match Speech.synthesizeAndPlayVoice_start (a_voiceEnabled r) (a_sessionId r) with
  | Speech.Done Resolved => onSpoken o r s
  | Speech.Done (Rejected _) => s
  | p => spawn (Speaking o r p)
               (set_synthesized (synthesized s ++ [(o, text)]) s)
  end.

Definition speaking (i : nat) (o : Origin) (r : Render)
    (p : Speech.Progress) (s : State) : State :=
  match p with
  | Speech.Done Resolved => onSpoken o r (setTask i Finished s)
  | Speech.Done (Rejected _) => setTask i Finished s
  | _ => setTask i (Speaking o r p) s
  end.

(** The callback of the 500 ms timeout (lines 374-389). *)
Definition onWelcomeDelay (r : Render) (welcome_message : option string)
    (s : State) : State :=
  let text := orElse welcome_message defaultWelcome in
  let s := set_messages [mkMessage text therapist false] s in
  if a_voiceEnabled r && truthy welcome_message
  then spawn (WelcomeSpeechDelay r (orElse welcome_message "")) s
  else s.

(** *** [sendMessage] (lines 435-514) *)

Definition sendMessage (r : Render) (s : State) : State :=
  if negb (trimTruthy (a_inputMessage r)) || negb (truthy (a_sessionId r))
     || a_isLoading r
  then s
  else
    let s := set_messages
               (messages s ++ [mkMessage (a_inputMessage r) user false]) s in
    let s := set_messageCount (messageCount s + 1) s in
    let s := set_inputMessage "" s in
    let s := set_isLoading true s in
    let s := set_typingIndicator true s in
    spawn (Chatting TextReply r (a_inputMessage r)) s.

(** The rest of [sendMessage] and of [sendVoiceMessage] once the chat
    request settled: the timeout on success, the [catch] on failure, the
    [finally] in both cases. *)
Definition onChat (i : nat) (o : Origin) (r : Render)
    (resp : Voice.ChatResponse) (s : State) : State :=
  let s :=
    match resp with
    | Voice.ChatOk response => setTask i (TypingDelay o r response) s
    | Voice.ChatFails => set_typingIndicator false (setTask i Finished s)
    end in
  set_isLoading false s.

(** The callback of the typing timeout (lines 480-504 and 792-810). *)
Definition onTypingDelay (o : Origin) (r : Render) (response : string)
    (s : State) : State :=
  let s := set_messages
             (messages s ++ [mkMessage response therapist false]) s in
  let s := set_typingIndicator false s in
  if a_voiceEnabled r && truthy (Some response)
  then speak o r response s
  else s.

(** *** [handleVoiceMessage] and [sendVoiceMessage] (lines 743-819) *)

Definition sendVoiceMessage (r : Render) (message : string) (s : State)
  : State :=
  if negb (truthy (a_sessionId r)) || a_isLoading r then s
  else
    let s := set_isLoading true s in
    let s := set_typingIndicator true s in
    spawn (Chatting VoiceReply r message) s.

Definition handleVoiceMessage (r : Render) (transcription : string)
    (s : State) : State :=
  if trimTruthy transcription then
    let s := set_messages
               (messages s ++ [mkMessage transcription user true]) s in
    let s := set_messageCount (messageCount s + 1) s in
    sendVoiceMessage r transcription s
  else s.

(** *** [resetConversation] (lines 559-590) *)

Definition resetConversation (r : Render) (s : State) : State :=
  if negb (truthy (a_sessionId r)) then s
  else spawn EndingSession s.

(** After the [await]: the same for a fulfilled and a rejected [fetch]. *)
Definition resetConversation_response (s : State) : State :=
  let s := set_messages [] s in
  let s := set_sessionId None s in
  let s := set_messageCount 0 s in
  let s := set_showWelcome true s in
  set_connectionStatus disconnected s.

(** *** [changeGenerationMode] (lines 601-653) *)

Definition modeLabel (mode : string) : string :=
  if String.eqb mode "gen-z" then "Gen-Z"
  else if String.eqb mode "millennial" then "Millennial"
  else if String.eqb mode "boomer" then "Boomer"
  else "Default".

Definition changeGenerationMode (r : Render) (mode : string) (s : State)
  : State :=
  if negb (truthy (a_sessionId r)) || String.eqb mode (a_generationMode r)
  then s
  else spawn (ChangingMode r mode) (set_isLoading true s).

Definition changeGenerationMode_response (mode : string) (ok : bool)
    (s : State) : State :=
  let s :=
    if ok then
      let s := set_generationMode mode s in
      set_messages
        (messages s ++
           [mkMessage (String.append "Dr. Samaira is now speaking in "
                         (String.append (modeLabel mode) " mode."))
                      system false]) s
    else s in
  set_isLoading false s.

(** *** The toggles (lines 592-599, 656-665, 1254 and 1326) *)

Definition toggleVoice (r : Render) (s : State) : State :=
  set_voiceEnabled (negb (a_voiceEnabled r)) s.

Definition toggleInterfaceMode (r : Render) (s : State) : State :=
  set_interfaceMode
    (match a_interfaceMode r with chat => voice | voice => chat end) s.

Definition toggleListening (r : Render) (s : State) : State :=
  set_isListening (negb (a_isListening r)) s.

(** *** Events

    The welcome screen is all that is rendered while [showWelcome] holds
    (line 839), so only its button can be clicked then; the text field and
    the send button exist in chat mode only (line 1148), and
    [VoiceControls], whose closure calls [handleVoiceMessage], is
    rendered with voice enabled in chat mode only (line 1323); that
    closure may belong to an earlier render of the shell, which the event
    names.  A disabled control is not modelled as disabled: its handler
    is run and decides. *)
Inductive Event : Type :=
| Start
| Input (value : string)
| Send
| Reset
| ToggleVoice
| ToggleInterfaceMode
| ToggleListening
| VoiceToggle (r : Render)
| ChangeMode (mode : string)
| VoiceMessage (r : Render) (transcription : string)
| Created (i : nat) (resp : CreateResponse)
| Timeout (i : nat)
| ChatSettled (i : nat) (resp : Voice.ChatResponse)
| SynthSettled (i : nat) (resp : Speech.SynthResponse)
| AudioSettled (i : nat) (p : Speech.Playback)
| ModeSettled (i : nat) (ok : bool)
| Deleted (i : nat).

Definition onMainScreen (s : State) (s' : State) : option State :=
  if showWelcome s then None else Some s'.

Definition step (e : Event) (s : State) : option State :=
  match e with
  | Start =>
      if showWelcome s then Some (initializeSession (render s) s) else None
  | Input value =>
      if isVoiceMode (interfaceMode s) then None
      else onMainScreen s (set_inputMessage value s)
  | Send =>
      if isVoiceMode (interfaceMode s) then None
      else onMainScreen s (sendMessage (render s) s)
  | Reset => onMainScreen s (resetConversation (render s) s)
  | ToggleVoice => onMainScreen s (toggleVoice (render s) s)
  | ToggleInterfaceMode => onMainScreen s (toggleInterfaceMode (render s) s)
  | ToggleListening => onMainScreen s (toggleListening (render s) s)
  | VoiceToggle r =>
      if a_voiceEnabled r && negb (isVoiceMode (a_interfaceMode r))
      then Some (toggleListening r s)
      else None
  | ChangeMode mode => onMainScreen s (changeGenerationMode (render s) mode s)
  | VoiceMessage r transcription =>
      if a_voiceEnabled r && negb (isVoiceMode (a_interfaceMode r))
      then Some (handleVoiceMessage r transcription s)
      else None
  | Created i resp =>
      match tasks s !! i with
      | Some (CreatingSession r) =>
          Some (initializeSession_response r resp (setTask i Finished s))
      | _ => None
      end
  | Timeout i =>
      match tasks s !! i with
      | Some (WelcomeDelay r welcome_message) =>
          Some (onWelcomeDelay r welcome_message (setTask i Finished s))
      | Some (WelcomeSpeechDelay r text) =>
          Some (speak Welcome r text (setTask i Finished s))
      | Some (TypingDelay o r response) =>
          Some (onTypingDelay o r response (setTask i Finished s))
      | Some RelistenDelay =>
          Some (set_isListening true (setTask i Finished s))
      | _ => None
      end
  | ChatSettled i resp =>
      match tasks s !! i with
      | Some (Chatting o r _) => Some (onChat i o r resp s)
      | _ => None
      end
  | SynthSettled i resp =>
      match tasks s !! i with
      | Some (Speaking o r Speech.AwaitingSynthesis) =>
          Some (speaking i o r (Speech.synthesizeAndPlayVoice_response resp) s)
      | _ => None
      end
  | AudioSettled i p =>
      match tasks s !! i with
      | Some (Speaking o r Speech.AwaitingPlayback) =>
          Some (speaking i o r
                  (Speech.Done (Speech.playAudioFromBase64_finish p)) s)
      | _ => None
      end
  | ModeSettled i ok =>
      match tasks s !! i with
      | Some (ChangingMode r mode) =>
          Some (changeGenerationMode_response mode ok (setTask i Finished s))
      | _ => None
      end
  | Deleted i =>
      match tasks s !! i with
      | Some EndingSession =>
          Some (resetConversation_response (setTask i Finished s))
      | _ => None
      end
  end.

Fixpoint run (tr : list Event) (s : State) : option State :=
  match tr with
  | [] => Some s
  | e :: tr =>
      match step e s with
      | Some s' => run tr s'
      | None => None
      end
  end.

(** A task whose end clears [isLoading]. *)
Definition clearsLoading (t : Task) : bool :=
  match t with
  | CreatingSession _ | Chatting _ _ _ | ChangingMode _ _ => true
  | _ => false
  end.

(** A task whose end, or the timeout it leads to, clears
    [typingIndicator]. *)
Definition clearsTyping (t : Task) : bool :=
  match t with
  | Chatting _ _ _ | TypingDelay _ _ _ => true
  | _ => false
  end.

(** The user messages among the displayed ones. *)
Definition userMessages (l : list Message) : list Message :=
  List.filter (fun m => match sender m with user => true | _ => false end) l.

(** *** Readings of the pending tasks *)

(** Tasks of the welcome path hold a render without a session, and no
    other task speaks for it. *)
Definition welcomeTask (t : Task) : Prop :=
  match t with
  | CreatingSession r | WelcomeDelay r _ | WelcomeSpeechDelay r _ =>
      a_sessionId r = None
  | Chatting o _ _ | TypingDelay o _ _ | Speaking o _ _ => o <> Welcome
  | _ => True
  end.

Definition welcomeSilent (s : State) : Prop :=
  (showWelcome s = true -> sessionId s = None)
  /\ Forall welcomeTask (tasks s)
  /\ Forall (fun q => fst q <> Welcome) (synthesized s).

(** Text replies are asked for in chat mode, and no re-listen timeout is
    pending. *)
Definition chatTask (t : Task) : Prop :=
  match t with
  | Chatting TextReply r _ | TypingDelay TextReply r _
  | Speaking TextReply r _ => a_interfaceMode r = chat
  | RelistenDelay => False
  | _ => True
  end.

(** A flag that is up has a pending task that will take it down. *)
Definition flagsCovered (s : State) : Prop :=
  (isLoading s = true -> Exists (fun t => clearsLoading t = true) (tasks s))
  /\ (typingIndicator s = true ->
      Exists (fun t => clearsTyping t = true) (tasks s)).

Definition counted (s : State) : Prop :=
  length (userMessages (messages s)) <= messageCount s.


(** *** Runs *)

(** A session starts and its welcome message arrives. *)
Definition welcomeRun : list Event :=
  [ Start; Created 0 (CreateOk (Some "s1") (Some "Welcome back."));
    Timeout 1; Timeout 2 ].

(** Then a text message is sent; the interface is switched to voice
    before the reply is shown and spoken. *)
Definition chatRun : list Event :=
  welcomeRun ++
  [ Input "I feel tired"; Send; ChatSettled 3 (Voice.ChatOk "Tell me more.");
    ToggleInterfaceMode; Timeout 3;
    SynthSettled 4 (Speech.SynthHttp true (Speech.JsonVoice "QUJD" "mp3"));
    AudioSettled 4 Speech.PlaybackEnded ].

Definition after (tr : list Event) : State :=
  default initial (run tr initial).

(** A text message is sent in a fresh session, and answered. *)
Definition sending : list Event :=
  welcomeRun ++ [ Input "I feel tired"; Send ].

Definition pendingReply : list Event :=
  sending ++ [ ChatSettled 3 (Voice.ChatOk "Tell me more.") ].

(** The render of that [Send]. *)
Definition sendingRender : Render :=
  mkRender "I feel tired" (Some "s1") false true false chat "default".


End Shell.

(** * Properties *)

Import Voice.

(** ** Format negotiation *)

Section FormatFacts.

Variable isTypeSupported : string -> bool.

Lemma firstSupported_skip (pre rest : list string) :
  (forall g, In g pre -> isTypeSupported g = false) ->
  Format.firstSupported isTypeSupported (pre ++ rest)
  = Format.firstSupported isTypeSupported rest.
Proof.
  induction pre as [|g pre IH]; intros Hpre; [reflexivity|].
  cbn [app Format.firstSupported].
  rewrite (Hpre g) by (left; reflexivity).
  apply IH. intros g' Hg'. apply Hpre. right. exact Hg'.
Qed.

Lemma firstSupported_first (pre post : list string) (f : string) :
  (forall g, In g pre -> isTypeSupported g = false) ->
  isTypeSupported f = true ->
  Format.firstSupported isTypeSupported (pre ++ f :: post) = f.
Proof.
  intros Hpre Hf. rewrite firstSupported_skip by exact Hpre.
  cbn [Format.firstSupported]. rewrite Hf. reflexivity.
Qed.

Lemma firstSupported_none (fs : list string) :
  (forall g, In g fs -> isTypeSupported g = false) ->
  Format.firstSupported isTypeSupported fs = "".
Proof.
  intros H. rewrite <- (app_nil_r fs). rewrite firstSupported_skip by exact H.
  reflexivity.
Qed.

Lemma firstSupported_member (fs : list string) :
  Format.firstSupported isTypeSupported fs = ""
  \/ In (Format.firstSupported isTypeSupported fs) fs.
Proof.
  induction fs as [|f fs IH]; [left; reflexivity|].
  cbn [Format.firstSupported].
  destruct (isTypeSupported f); [right; left; reflexivity|].
  destruct IH as [IH|IH]; [left; exact IH | right; right; exact IH].
Qed.

End FormatFacts.

(** ** How the handlers touch the clock and the observation log *)

Section Frames.

Variable isTypeSupported : string -> bool.

Lemma log_observe o s : log (observe o s) = log s ++ [(now s, o)].
Proof. reflexivity. Qed.

Lemma now_observe o s : now (observe o s) = now s.
Proof. reflexivity. Qed.

Lemma log_stopRecording s : log (stopRecording s) = log s.
Proof. unfold stopRecording. repeat case_match; reflexivity. Qed.

Lemma now_stopRecording s : now (stopRecording s) = now s.
Proof. unfold stopRecording. repeat case_match; reflexivity. Qed.

Lemma log_scheduleAutoListening r s : log (scheduleAutoListening r s) = log s.
Proof. unfold scheduleAutoListening. case_match; reflexivity. Qed.

Lemma now_scheduleAutoListening r s : now (scheduleAutoListening r s) = now s.
Proof. unfold scheduleAutoListening. case_match; reflexivity. Qed.

Lemma log_onVoiceMessage r res s :
  log (onVoiceMessage r res s) = log s ++ [(now s, ObsVoiceMessage res)].
Proof.
  unfold onVoiceMessage, handleVoiceMessage, sendVoiceMessage.
  repeat case_match; reflexivity.
Qed.

Lemma now_onVoiceMessage r res s : now (onVoiceMessage r res s) = now s.
Proof.
  unfold onVoiceMessage, handleVoiceMessage, sendVoiceMessage.
  repeat case_match; reflexivity.
Qed.

Lemma log_processRecording_catch r m s :
  log (processRecording_catch r m s)
  = log s ++ [(now s, ObsVoiceMessage (mkResult errorFallback true))].
Proof. unfold processRecording_catch. rewrite log_onVoiceMessage. reflexivity. Qed.

Lemma now_processRecording_catch r m s :
  now (processRecording_catch r m s) = now s.
Proof. unfold processRecording_catch. rewrite now_onVoiceMessage. reflexivity. Qed.

Lemma log_processRecording_finally r s :
  log (processRecording_finally r s) = log s ++ [(now s, ObsProcessed)].
Proof.
  unfold processRecording_finally, scheduleAutoListening.
  repeat case_match; reflexivity.
Qed.

Lemma now_processRecording_finally r s :
  now (processRecording_finally r s) = now s.
Proof.
  unfold processRecording_finally, scheduleAutoListening.
  repeat case_match; reflexivity.
Qed.

End Frames.

(** ** Readings of the log *)

Lemma voiceMessages_app_log s l :
  flat_map (fun '(_, o) => match o with ObsVoiceMessage res => [res] | _ => [] end)
           (log s ++ l)
  = voiceMessages s
    ++ flat_map (fun '(_, o) => match o with ObsVoiceMessage res => [res] | _ => [] end) l.
Proof. unfold voiceMessages. apply flat_map_app. Qed.

Lemma transcribeCalls_app_log s l :
  flat_map (fun '(_, o) => match o with ObsTranscribe u => [u] | _ => [] end)
           (log s ++ l)
  = transcribeCalls s
    ++ flat_map (fun '(_, o) => match o with ObsTranscribe u => [u] | _ => [] end) l.
Proof. unfold transcribeCalls. apply flat_map_app. Qed.

(** ** Format negotiation and the recorder it configures *)

(** C5. The candidates are tried in the fixed order WAV, Opus-in-WebM, bare
    WebM, MP3, Opus-in-Ogg, bare Ogg, and the first one the runtime supports
    is the format of the recorder that [startRecording] creates: whenever
    the candidate list splits into unsupported candidates [pre], a supported
    candidate [f] and the rest, negotiation yields [f], and every capture
    started on that runtime records with [f].  For a runtime that supports
    only MP3 and Ogg this is MP3 (see the witness). *)
Theorem C5_first_supported_candidate_wins
        (isTypeSupported : string -> bool) (pre post : list string) (f : string)
        (r : Render) (s : State) :
  Format.formats = pre ++ f :: post ->
  (forall g, In g pre -> isTypeSupported g = false) ->
  isTypeSupported f = true ->
  streamRef s = true ->
  Format.formats = [ "audio/wav"; "audio/webm;codecs=opus"; "audio/webm";
                     "audio/mp3"; "audio/ogg;codecs=opus"; "audio/ogg" ]
  /\ Format.negotiate isTypeSupported = f
  /\ exists s' rc,
      startRecording isTypeSupported r Starts s = (true, s')
      /\ mediaRecorderRef s' = Some (length (recorders s))
      /\ recorders s' !! length (recorders s) = Some rc
      /\ rec_state rc = recording
      /\ rec_mimeType rc = f.
Proof.
  intros Hsplit Hpre Hf Hstream.
  assert (Hneg : Format.negotiate isTypeSupported = f).
  { unfold Format.negotiate. rewrite Hsplit.
    apply firstSupported_first; assumption. }
  split; [reflexivity|]. split; [exact Hneg|].
  unfold startRecording. rewrite Hstream. cbn [negb].
  eexists. eexists. split; [reflexivity|]. cbn.
  split; [reflexivity|]. split.
  - apply list_lookup_middle. reflexivity.
  - split; [reflexivity | exact Hneg].
Qed.

Lemma C5_mp3_before_ogg_witness :
  Format.negotiate Scenario.mp3OggRuntime = "audio/mp3"
  /\ exists s' rc,
      startRecording Scenario.mp3OggRuntime (render Scenario.idle) Starts Scenario.idle
      = (true, s')
      /\ mediaRecorderRef s' = Some 0
      /\ recorders s' !! 0 = Some rc
      /\ rec_state rc = recording
      /\ rec_mimeType rc = "audio/mp3".
Proof.
  refine (proj2 (C5_first_supported_candidate_wins
                   Scenario.mp3OggRuntime
                   ["audio/wav"; "audio/webm;codecs=opus"; "audio/webm"]
                   ["audio/ogg;codecs=opus"; "audio/ogg"] "audio/mp3"
                   (render Scenario.idle) Scenario.idle _ _ _ _)).
  - reflexivity.
  - intros g Hg. cbn in Hg.
    destruct Hg as [<-|[<-|[<-|[]]]]; reflexivity.
  - reflexivity.
  - reflexivity.
Defined.

(** ** Fields that the processing path leaves alone *)

Ltac unfold_processing :=
  unfold processRecording_response, processRecording, processRecording_finally,
    processRecording_catch, onVoiceMessage, handleVoiceMessage,
    sendVoiceMessage, scheduleAutoListening, observe in *.

Section ProcessingFrames.

Variable isTypeSupported : string -> bool.

Lemma recorders_processRecording r s :
  recorders (processRecording isTypeSupported r s) = recorders s.
Proof. unfold_processing. repeat case_match; reflexivity. Qed.

Lemma recorders_processRecording_response r resp s :
  recorders (processRecording_response r resp s) = recorders s.
Proof. unfold_processing. repeat case_match; reflexivity. Qed.

Lemma isRecording_processRecording r s :
  isRecording (processRecording isTypeSupported r s) = isRecording s.
Proof. unfold_processing. repeat case_match; reflexivity. Qed.

Lemma mediaRecorderRef_processRecording r s :
  mediaRecorderRef (processRecording isTypeSupported r s) = mediaRecorderRef s.
Proof. unfold_processing. repeat case_match; reflexivity. Qed.

End ProcessingFrames.

(** ** Recorders only age *)

Section Formats.

Variable isTypeSupported : string -> bool.

Lemma ages_refl rc : ages rc rc.
Proof. unfold ages. tauto. Qed.

Lemma ages_trans rc1 rc2 rc3 : ages rc1 rc2 -> ages rc2 rc3 -> ages rc1 rc3.
Proof.
  unfold ages. intros (Em & Eh & Hs) (Em' & Eh' & Hs').
  split; [congruence|]. split; [congruence|].
  intros H1. destruct (Hs H1) as [H2 Hq]. destruct (Hs' H2) as [H3 Hq'].
  split; [exact H3|]. intros Hq1. apply Hq'. apply Hq. exact Hq1.
Qed.

Lemma recordersAge_refl s : recordersAge s s.
Proof. intros id rc H. exists rc. split; [exact H | apply ages_refl]. Qed.

Lemma recordersAge_trans s1 s2 s3 :
  recordersAge s1 s2 -> recordersAge s2 s3 -> recordersAge s1 s3.
Proof.
  intros H12 H23 id rc H.
  destruct (H12 id rc H) as (rc2 & H2 & E2).
  destruct (H23 id rc2 H2) as (rc3 & H3 & E3).
  exists rc3. split; [exact H3 | eapply ages_trans; eassumption].
Qed.

Lemma recordersAge_eq s s' : recorders s' = recorders s -> recordersAge s s'.
Proof.
  intros E id rc H. exists rc. rewrite E. split; [exact H | apply ages_refl].
Qed.

Lemma recordersAge_insert s s' id rc0 rc1 :
  recorders s !! id = Some rc0 ->
  ages rc0 rc1 ->
  recorders s' = <[id := rc1]> (recorders s) ->
  recordersAge s s'.
Proof.
  intros H0 Em E id' rc H. rewrite E.
  destruct (decide (id = id')) as [->|Hne].
  - exists rc1. split.
    + apply list_lookup_insert_eq. eapply lookup_lt_Some. exact H0.
    + congruence.
  - exists rc. split; [|apply ages_refl].
    rewrite list_lookup_insert_ne by exact Hne. exact H.
Qed.

Lemma recordersAge_append s s' rc1 :
  recorders s' = recorders s ++ [rc1] -> recordersAge s s'.
Proof.
  intros E id rc H. exists rc. rewrite E. split; [|apply ages_refl].
  rewrite lookup_app_l; [exact H|]. eapply lookup_lt_Some. exact H.
Qed.

Lemma recordersAge_stopRecording s : recordersAge s (stopRecording s).
Proof.
  unfold stopRecording.
  destruct (mediaRecorderRef s) as [id|] eqn:Href;
    [destruct (recorders s !! id) as [rc|] eqn:Hrc;
     [destruct (isRecordingState (rec_state rc)) eqn:Hst|]|].
  2-4: repeat case_match; apply recordersAge_eq; reflexivity.
  assert (Hages : ages rc (mkRecorder inactive (rec_mimeType rc) true
                                      (rec_handlers rc))).
  { unfold ages. cbn. split; [reflexivity|]. split; [reflexivity|].
    intros Hin. rewrite Hin in Hst. discriminate. }
  match goal with
  | |- recordersAge _ (match ?x with _ => _ end) =>
      destruct x;
      apply (recordersAge_insert _ _ id rc
               (mkRecorder inactive (rec_mimeType rc) true (rec_handlers rc)));
      solve [exact Hrc | exact Hages | reflexivity]
  end.
Qed.

Lemma recordersAge_startRecording r o s :
  recordersAge s (snd (startRecording isTypeSupported r o s)).
Proof.
  unfold startRecording.
  destruct (streamRef s); cbn [negb]; [|apply recordersAge_eq; reflexivity].
  destruct o; cbn [snd].
  - apply recordersAge_eq; reflexivity.
  - eapply recordersAge_append. reflexivity.
  - eapply recordersAge_append. reflexivity.
Qed.

Lemma recordersAge_handleVoiceRecord r o s :
  recordersAge s (handleVoiceRecord isTypeSupported r o s).
Proof.
  unfold handleVoiceRecord.
  destruct (negb (truthy (r_sessionId r))); [apply recordersAge_eq; reflexivity|].
  destruct (r_isRecording r).
  - eapply recordersAge_trans; [|apply recordersAge_stopRecording].
    apply recordersAge_eq; reflexivity.
  - pose proof (recordersAge_startRecording r o
                  (set_voiceError None (set_recordingTime 0 (set_isRecording true s)))) as H.
    destruct (startRecording isTypeSupported r o _) as [started s'].
    cbn [snd] in H.
    eapply recordersAge_trans; [apply recordersAge_eq|]; [|
      eapply recordersAge_trans; [exact H|]].
    + reflexivity.
    + destruct started; cbn [negb]; apply recordersAge_eq; reflexivity.
Qed.

End Formats.

Section FormatsStep.

Variable isTypeSupported : string -> bool.

Lemma recorders_setJob j ph s : recorders (setJob j ph s) = recorders s.
Proof. unfold setJob. case_match; reflexivity. Qed.

Lemma recorders_settle j p s : recorders (settle j p s) = recorders s.
Proof.
  unfold settle, observe.
  destruct p; cbn; try apply recorders_setJob.
Qed.

Lemma recordersAge_onRecordingTimer s : recordersAge s (onRecordingTimer s).
Proof.
  unfold onRecordingTimer. case_match.
  - eapply recordersAge_trans; [apply recordersAge_stopRecording|].
    apply recordersAge_eq; reflexivity.
  - apply recordersAge_eq; reflexivity.
Qed.

Lemma recordersAge_step e s s' :
  step isTypeSupported e s = Some s' -> recordersAge s s'.
Proof.
  destruct e; cbn [step]; intros H.
  - simplify_eq. apply recordersAge_eq; reflexivity.
  - simplify_eq. apply recordersAge_eq; reflexivity.
  - simplify_eq. apply recordersAge_handleVoiceRecord.
  - repeat case_match; simplify_eq.
    unfold ondataavailable. case_match; apply recordersAge_eq; reflexivity.
  - destruct (recorders s !! id) as [rc|] eqn:Hrc; [|discriminate].
    destruct (rec_stopQueued rc); [|discriminate]. simplify_eq.
    eapply recordersAge_trans;
      [|apply recordersAge_eq; apply recorders_processRecording].
    eapply recordersAge_insert; [exact Hrc| |reflexivity].
    unfold ages. cbn. tauto.
  - case_match; simplify_eq. apply recordersAge_onRecordingTimer.
  - case_match; simplify_eq.
    apply recordersAge_eq. rewrite recorders_processRecording_response.
    reflexivity.
  - repeat case_match; simplify_eq.
    unfold onAutoListenTimeout. case_match.
    + eapply recordersAge_trans; [|apply recordersAge_handleVoiceRecord].
      apply recordersAge_eq; reflexivity.
    + apply recordersAge_eq; reflexivity.
  - repeat case_match; simplify_eq.
    apply recordersAge_eq. unfold onChat. cbn. apply recorders_setJob.
  - repeat case_match; simplify_eq.
    apply recordersAge_eq. unfold onTyping.
    case_match; [apply recorders_settle | apply recorders_setJob].
  - repeat case_match; simplify_eq.
    apply recordersAge_eq. apply recorders_settle.
  - repeat case_match; simplify_eq.
    apply recordersAge_eq. apply recorders_settle.
Qed.

End FormatsStep.

(** ** What [processRecording] adds to the log, case by case *)

Section ProcessingLog.

Variable isTypeSupported : string -> bool.

Lemma log_processRecording_empty r s :
  audioChunksRef s = [] ->
  log (processRecording isTypeSupported r s) = log s ++ [(now s, ObsProcessed)].
Proof.
  intros E. unfold processRecording. rewrite E.
  unfold scheduleAutoListening, observe. repeat case_match; reflexivity.
Qed.

Lemma log_processRecording_short r s :
  audioChunksRef s <> [] ->
  blob_size (newBlob (audioChunksRef s) (Format.blobType isTypeSupported)) < 100 ->
  log (processRecording isTypeSupported r s)
  = log s ++ [ (now s, ObsVoiceMessage (mkResult errorFallback true));
               (now s, ObsProcessed) ].
Proof.
  intros Hne Hsize. unfold processRecording, Format.blobType in *.
  destruct (audioChunksRef s) as [|c cs] eqn:E; [congruence|].
  destruct (Format.blobFormat isTypeSupported) as [type fileName].
  cbn [fst] in Hsize. cbn [audioChunksRef set_isProcessing].
  rewrite E.
  destruct (Nat.ltb_spec (blob_size (newBlob (c :: cs) type)) 100) as [_|Hge];
    [|lia].
  rewrite log_processRecording_finally, log_processRecording_catch.
  rewrite now_processRecording_catch. cbn [log now set_isProcessing].
  rewrite <- app_assoc. reflexivity.
Qed.

Lemma log_processRecording_upload r s :
  audioChunksRef s <> [] ->
  100 <= blob_size (newBlob (audioChunksRef s) (Format.blobType isTypeSupported)) ->
  exists u,
    log (processRecording isTypeSupported r s) = log s ++ [(now s, ObsTranscribe u)]
    /\ uploads (processRecording isTypeSupported r s) = uploads s ++ [u]
    /\ up_blob u = newBlob (audioChunksRef s) (Format.blobType isTypeSupported)
    /\ up_fileName u = snd (Format.blobFormat isTypeSupported)
    /\ up_render u = r.
Proof.
  intros Hne Hsize. unfold processRecording, Format.blobType in *.
  destruct (audioChunksRef s) as [|c cs] eqn:E; [congruence|].
  destruct (Format.blobFormat isTypeSupported) as [type fileName].
  cbn [fst snd] in *. cbn [audioChunksRef set_isProcessing].
  rewrite E.
  destruct (Nat.ltb_spec (blob_size (newBlob (c :: cs) type)) 100) as [Hlt|_];
    [lia|].
  eexists. repeat split.
Qed.

End ProcessingLog.

(** C6, as the code has it.  The format of a capture is negotiated once, in
    [startRecording]: it is the empty string (the runtime's default) or one
    of the candidates, it is the format of the recorder created there, and no
    event changes the format of an existing recorder.  The type that tags the
    payload sent to the transcription endpoint is not that format: it is
    probed again in [processRecording] (WAV if supported, else MP3 if
    supported, else WebM), and equals the negotiated format exactly when WAV
    is supported, or Opus-in-WebM is not and exactly one of bare WebM and MP3
    is. *)
Theorem C6_payload_tag_is_probed_again
        (isTypeSupported : string -> bool) (r : Render) (s : State) :
  (Format.negotiate isTypeSupported = ""
   \/ In (Format.negotiate isTypeSupported) Format.formats)
  /\ (forall o s',
         startRecording isTypeSupported r o s = (true, s') ->
         exists rc, mediaRecorderRef s' = Some (length (recorders s))
                    /\ recorders s' !! length (recorders s) = Some rc
                    /\ rec_mimeType rc = Format.negotiate isTypeSupported)
  /\ (forall e s' id rc,
         step isTypeSupported e s = Some s' ->
         recorders s !! id = Some rc ->
         exists rc', recorders s' !! id = Some rc'
                     /\ rec_mimeType rc' = rec_mimeType rc)
  /\ (forall u,
         In u (transcribeCalls (processRecording isTypeSupported r s)) ->
         In u (transcribeCalls s)
         \/ (blob_type (up_blob u) = Format.blobType isTypeSupported
             /\ blob_bytes (up_blob u) = concat (audioChunksRef s)))
  /\ (Format.blobType isTypeSupported = Format.negotiate isTypeSupported
      <-> isTypeSupported "audio/wav" = true
          \/ (isTypeSupported "audio/webm;codecs=opus" = false
              /\ xorb (isTypeSupported "audio/webm") (isTypeSupported "audio/mp3")
                 = true)).
Proof.
  split; [apply firstSupported_member|].
  split.
  { intros o s'. unfold startRecording.
    destruct (streamRef s); cbn [negb]; [|discriminate].
    destruct o; try discriminate. intros H. simplify_eq.
    eexists. split; [reflexivity|]. cbn. split.
    - apply list_lookup_middle. reflexivity.
    - reflexivity. }
  split.
  { intros e s' id rc Hstep Hrc.
    destruct (recordersAge_step isTypeSupported e s s' Hstep id rc Hrc)
      as (rc' & Hrc' & Hm & _).
    exists rc'. split; [exact Hrc' | exact Hm]. }
  split.
  { intros u Hu. unfold transcribeCalls in Hu.
    destruct (audioChunksRef s) as [|c cs] eqn:E.
    - rewrite log_processRecording_empty in Hu by exact E.
      rewrite flat_map_app, in_app_iff in Hu. destruct Hu as [Hu|[]].
      left. exact Hu.
    - destruct (Nat.lt_ge_cases
                  (blob_size (newBlob (audioChunksRef s)
                                      (Format.blobType isTypeSupported))) 100)
        as [Hlt|Hge].
      + rewrite log_processRecording_short in Hu by (rewrite ?E; congruence || exact Hlt).
        rewrite flat_map_app, in_app_iff in Hu. destruct Hu as [Hu|[]].
        left. exact Hu.
      + destruct (log_processRecording_upload isTypeSupported r s)
          as (u' & Hlog & _ & Hblob & _); [rewrite E; congruence|exact Hge|].
        rewrite Hlog, flat_map_app, in_app_iff in Hu.
        destruct Hu as [Hu|[<-|[]]]; [left; exact Hu|].
        right. rewrite Hblob, E. split; reflexivity. }
  unfold Format.blobType, Format.blobFormat, Format.negotiate, Format.formats.
  cbn [Format.firstSupported].
  destruct (isTypeSupported "audio/wav");
    destruct (isTypeSupported "audio/webm;codecs=opus");
    destruct (isTypeSupported "audio/webm");
    destruct (isTypeSupported "audio/mp3");
    destruct (isTypeSupported "audio/ogg;codecs=opus");
    destruct (isTypeSupported "audio/ogg");
    cbn; split; try solve [intros; discriminate | intros; congruence
                          | intros; auto | intros [|[]]; discriminate].
Qed.

Lemma C6_recorder_format_witness :
  exists rc,
    recorders (snd (startRecording Scenario.webmRuntime (render Scenario.idle)
                                   Starts Scenario.idle)) !! 0 = Some rc
    /\ rec_mimeType rc = "audio/webm;codecs=opus".
Proof.
  destruct (proj1 (proj2 (C6_payload_tag_is_probed_again
                            Scenario.webmRuntime (render Scenario.idle)
                            Scenario.idle))
                  Starts _ eq_refl) as (rc & _ & Hrc & Hmime).
  exists rc. split; [exact Hrc | exact Hmime].
Defined.

(** C6, as stated, fails: on a runtime that records only Ogg the capture is
    negotiated as Opus-in-Ogg, a member of the candidate list, and its
    payload reaches the transcription endpoint tagged [audio/webm]. *)
Lemma C6_tag_differs_from_negotiated_format :
  exists s rc u,
    run Scenario.oggRuntime (Scenario.capture 0 Scenario.utterance) Scenario.idle
    = Some s
    /\ recorders s !! 0 = Some rc
    /\ rec_mimeType rc = "audio/ogg;codecs=opus"
    /\ In (rec_mimeType rc) Format.formats
    /\ transcribeCalls s = [u]
    /\ blob_type (up_blob u) = "audio/webm"
    /\ blob_type (up_blob u) <> rec_mimeType rc.
Proof.
  eexists. eexists. eexists.
  split; [vm_compute; reflexivity|].
  split; [reflexivity|].
  split; [reflexivity|].
  split; [cbn; tauto|].
  split; [reflexivity|].
  split; [reflexivity|].
  cbn. discriminate.
Qed.

(** ** The transcription client *)

(** C8. When the transcription endpoint answers with an empty string, the
    conversation receives exactly one message, the fallback sentence "I'm
    listening but couldn't hear you clearly. Could you please repeat that?",
    marked as a fallback; this holds for the continuation of
    [processRecording] and for the event that resumes it. *)
Theorem C8_empty_transcription_yields_listening_fallback
        (isTypeSupported : string -> bool) (r : Render) (s : State) :
  voiceMessages (processRecording_response r (TranscribeJson "") s)
  = voiceMessages s
    ++ [ {| text := "I'm listening but couldn't hear you clearly. Could you please repeat that?";
            isFallback := true |} ]
  /\ forall i u,
      uploads s !! i = Some u ->
      exists s',
        step isTypeSupported (EvTranscribed i (TranscribeJson "")) s = Some s'
        /\ voiceMessages s'
           = voiceMessages s
             ++ [ {| text := "I'm listening but couldn't hear you clearly. Could you please repeat that?";
                     isFallback := true |} ].
Proof.
  assert (H : forall r0 s0,
             voiceMessages (processRecording_response r0 (TranscribeJson "") s0)
             = voiceMessages s0 ++ [mkResult listeningFallback true]).
  { intros r0 s0. unfold processRecording_response. cbn [truthy String.eqb negb andb].
    unfold voiceMessages at 1.
    rewrite log_processRecording_finally. cbn [log set_voiceError].
    rewrite log_onVoiceMessage.
    rewrite <- app_assoc, voiceMessages_app_log. reflexivity. }
  split; [apply H|].
  intros i u Hu. cbn [step]. rewrite Hu. eexists. split; [reflexivity|].
  rewrite H. reflexivity.
Qed.

Lemma C8_empty_transcription_witness :
  exists s',
    step Scenario.webmRuntime (EvTranscribed 0 (TranscribeJson ""))
         Scenario.awaitingTranscription = Some s'
    /\ voiceMessages s'
       = [ {| text := "I'm listening but couldn't hear you clearly. Could you please repeat that?";
              isFallback := true |} ].
Proof.
  destruct (proj2 (C8_empty_transcription_yields_listening_fallback
                     Scenario.webmRuntime (render Scenario.idle)
                     Scenario.awaitingTranscription)
                  0 _ eq_refl) as (s' & Hstep & Hmsg).
  exists s'. split; [exact Hstep | exact Hmsg].
Defined.

(** ** Short captures *)

(** C3, as the code has it.  For every capture whose payload is under 100
    bytes, [processRecording] sends nothing to the transcription endpoint.
    When the recording flag is down as it runs, as it is after the user's
    stop, the controller is idle when it returns: the recording flag is
    still down and the processing flag is cleared.  Whether a message
    reaches the conversation depends on the capture: none when no chunk was
    collected, and the sentence "I'm having trouble hearing you. Could you
    please try again?" when chunks were collected that add up to less than
    100 bytes. *)
Theorem C3_short_capture_skips_transcription
        (isTypeSupported : string -> bool) (r : Render) (s : State) :
  blob_size (newBlob (audioChunksRef s) (Format.blobType isTypeSupported)) < 100 ->
  transcribeCalls (processRecording isTypeSupported r s) = transcribeCalls s
  /\ uploads (processRecording isTypeSupported r s) = uploads s
  /\ (isRecording s = false ->
      isRecording (processRecording isTypeSupported r s) = false
      /\ isProcessing (processRecording isTypeSupported r s) = false)
  /\ voiceMessages (processRecording isTypeSupported r s)
     = voiceMessages s
       ++ match audioChunksRef s with
          | [] => []
          | _ :: _ =>
              [ {| text := "I'm having trouble hearing you. Could you please try again?";
                   isFallback := true |} ]
          end.
Proof.
  intros Hsize.
  assert (Hfields :
            uploads (processRecording isTypeSupported r s) = uploads s
            /\ isProcessing (processRecording isTypeSupported r s) = false).
  { unfold processRecording, Format.blobType in *.
    destruct (Format.blobFormat isTypeSupported) as [type fileName].
    cbn [fst] in Hsize.
    destruct (audioChunksRef s) as [|c cs] eqn:E.
    - unfold scheduleAutoListening, observe. repeat case_match; split; reflexivity.
    - cbn [audioChunksRef set_isProcessing]. rewrite E.
      destruct (Nat.ltb_spec (blob_size (newBlob (c :: cs) type)) 100) as [_|Hge];
        [|lia].
      unfold_processing. repeat case_match; split; reflexivity. }
  destruct Hfields as [Hup Hproc].
  assert (Hidle : isRecording s = false ->
                  isRecording (processRecording isTypeSupported r s) = false
                  /\ isProcessing (processRecording isTypeSupported r s) = false).
  { intros Hflag. split; [|exact Hproc].
    rewrite isRecording_processRecording. exact Hflag. }
  unfold transcribeCalls, voiceMessages.
  destruct (audioChunksRef s) as [|c cs] eqn:E.
  - rewrite log_processRecording_empty by exact E.
    rewrite !flat_map_app, !app_nil_r.
    split; [reflexivity|]. split; [exact Hup|]. split; [exact Hidle|].
    reflexivity.
  - rewrite log_processRecording_short by (rewrite ?E; congruence || exact Hsize).
    rewrite !flat_map_app. cbn [flat_map app]. rewrite app_nil_r.
    split; [reflexivity|]. split; [exact Hup|]. split; [exact Hidle|].
    reflexivity.
Qed.

Lemma C3_short_capture_witness :
  transcribeCalls
    (processRecording Scenario.webmRuntime (render Scenario.idle)
                      (ondataavailable Scenario.blip Scenario.idle)) = []
  /\ isRecording
       (processRecording Scenario.webmRuntime (render Scenario.idle)
                         (ondataavailable Scenario.blip Scenario.idle)) = false
  /\ isProcessing
       (processRecording Scenario.webmRuntime (render Scenario.idle)
                         (ondataavailable Scenario.blip Scenario.idle)) = false
  /\ voiceMessages
       (processRecording Scenario.webmRuntime (render Scenario.idle)
                         (ondataavailable Scenario.blip Scenario.idle))
     = [ {| text := "I'm having trouble hearing you. Could you please try again?";
            isFallback := true |} ].
Proof.
  pose proof (C3_short_capture_skips_transcription
                Scenario.webmRuntime (render Scenario.idle)
                (ondataavailable Scenario.blip Scenario.idle)) as H.
  destruct H as (Hcalls & _ & Hidle & Hmsg).
  - vm_compute. lia.
  - destruct (Hidle eq_refl) as [Hrec Hproc].
    split; [exact Hcalls|]. split; [exact Hrec|]. split; [exact Hproc|].
    exact Hmsg.
Defined.

(** C3, as stated, fails: a capture of one 50 byte chunk is never sent to
    the transcription endpoint, but a fallback message is forwarded to the
    conversation. *)
Lemma C3_short_capture_forwards_a_fallback :
  exists s,
    run Scenario.webmRuntime (Scenario.capture 0 Scenario.blip) Scenario.idle
    = Some s
    /\ transcribeCalls s = []
    /\ isProcessing s = false /\ isRecording s = false /\ recordingCount s = 0
    /\ voiceMessages s
       = [ {| text := "I'm having trouble hearing you. Could you please try again?";
              isFallback := true |} ].
Proof.
  eexists. split; [vm_compute; reflexivity|].
  repeat split.
Qed.

(** ** Speech *)

Lemma speak_settles voiceEnabled sessionId env :
  Speech.synthesizeAndPlayVoice voiceEnabled sessionId env = Resolved
  \/ exists reason,
      Speech.synthesizeAndPlayVoice voiceEnabled sessionId env = Rejected reason.
Proof.
  destruct (Speech.synthesizeAndPlayVoice voiceEnabled sessionId env) as [|reason];
    [left; reflexivity | right; exists reason; reflexivity].
Qed.

(** When the synthesis request itself fails (the [fetch] rejects, the status
    is not ok, the body is not JSON, or it carries no audio), the promise of
    [synthesizeAndPlayVoice] resolves. *)
Lemma speak_resolves_when_synthesis_fails voiceEnabled sessionId env :
  Speech.env_synth env = Speech.SynthNetworkError
  \/ (exists body, Speech.env_synth env = Speech.SynthHttp false body)
  \/ Speech.env_synth env = Speech.SynthHttp true Speech.JsonInvalid
  \/ (exists format, Speech.env_synth env
                     = Speech.SynthHttp true (Speech.JsonVoice "" format)) ->
  Speech.synthesizeAndPlayVoice voiceEnabled sessionId env = Resolved.
Proof.
  unfold Speech.synthesizeAndPlayVoice, Speech.synthesizeAndPlayVoice_start.
  intros [H|[[body H]|[H|[format H]]]]; rewrite H;
    destruct (negb voiceEnabled || negb (truthy sessionId)); reflexivity.
Qed.

(** C4, at the failing inputs.  When synthesis succeeds and the audio does
    not decode, or the element refuses to play or reports an error, the
    promise returned by [synthesizeAndPlayVoice] is rejected; in a run, the
    rejection is what the caller's [then] would have to observe. *)
Theorem C4_speak_rejects_after_successful_synthesis :
  Speech.synthesizeAndPlayVoice true Scenario.session Scenario.undecodable
  = Rejected "InvalidCharacterError"
  /\ Speech.synthesizeAndPlayVoice true Scenario.session Scenario.playRefused
     = Rejected "play() rejected"
  /\ Speech.synthesizeAndPlayVoice true Scenario.session
       (Speech.mkSpeakEnv Scenario.voiceReply Speech.PlaybackErrorEvent)
     = Rejected "audio error event"
  /\ exists s,
      run Scenario.webmRuntime Scenario.undecodableReply Scenario.idle = Some s
      /\ last (log s) = Some (3000, ObsSpeak (Rejected "InvalidCharacterError")).
Proof.
  repeat split.
  eexists. split; [vm_compute; reflexivity|]. reflexivity.
Qed.

(** ** Failed starts *)

Section Runs.

Variable isTypeSupported : string -> bool.

Lemma recordersAge_run tr : forall s s',
  run isTypeSupported tr s = Some s' -> recordersAge s s'.
Proof.
  induction tr as [|e tr IH]; intros s s' H; cbn [run] in H.
  - simplify_eq. apply recordersAge_refl.
  - destruct (step isTypeSupported e s) as [s1|] eqn:Hstep; [|discriminate].
    eapply recordersAge_trans; [eapply recordersAge_step; exact Hstep|].
    apply IH. exact H.
Qed.

(** A recorder that is inactive with no stop event queued never delivers
    one: [processRecording] is never run for it. *)
Lemma unstarted_recorder_never_stops tr s s' id rc :
  recorders s !! id = Some rc ->
  rec_state rc = inactive ->
  rec_stopQueued rc = false ->
  run isTypeSupported tr s = Some s' ->
  step isTypeSupported (EvStop id) s' = None.
Proof.
  intros Hrc Hst Hq Hrun.
  destruct (recordersAge_run tr s s' Hrun id rc Hrc) as (rc' & Hrc' & _ & _ & Hin).
  destruct (Hin Hst) as [_ Hq']. specialize (Hq' Hq).
  cbn [step]. rewrite Hrc', Hq'. reflexivity.
Qed.

End Runs.

(** C10. Whenever a start fails, because there is no microphone stream or
    because creating or starting the recorder throws, [handleVoiceRecord]
    ends with the recording flag down and an error text set; the attempt
    sends nothing to the transcription endpoint, leaves no request in
    flight, and adds no capturing recorder: a recorder it created is
    inactive with no stop event queued, so that in every later run its stop
    event, the only thing that runs [processRecording], cannot occur. *)
Theorem C10_failed_start_resets_recording_flag
        (isTypeSupported : string -> bool) (r : Render) (o : RecorderOracle)
        (s : State) :
  truthy (r_sessionId r) = true ->
  r_isRecording r = false ->
  streamRef s = false \/ o <> Starts ->
  isRecording (handleVoiceRecord isTypeSupported r o s) = false
  /\ voiceError (handleVoiceRecord isTypeSupported r o s)
     = Some (if streamRef s
             then match o with
                  | CtorThrows message | StartThrows message =>
                      String.append "Recording failed: " message
                  | Starts => ""
                  end
             else "Microphone not available")
  /\ uploads (handleVoiceRecord isTypeSupported r o s) = uploads s
  /\ transcribeCalls (handleVoiceRecord isTypeSupported r o s) = transcribeCalls s
  /\ recordingCount (handleVoiceRecord isTypeSupported r o s) = recordingCount s
  /\ forall id rc tr s',
      recorders (handleVoiceRecord isTypeSupported r o s) !! id = Some rc ->
      length (recorders s) <= id ->
      run isTypeSupported tr (handleVoiceRecord isTypeSupported r o s) = Some s' ->
      step isTypeSupported (EvStop id) s' = None.
Proof.
  intros Hsid Hrec Hfail.
  assert (Hold : forall s0 id rc,
             recorders s0 = recorders s ->
             recorders s0 !! id = Some rc -> length (recorders s) <= id -> False).
  { intros s0 id rc E Hrc Hid. rewrite E in Hrc.
    apply lookup_lt_Some in Hrc. lia. }
  unfold handleVoiceRecord. rewrite Hsid, Hrec. cbn [negb].
  unfold startRecording. cbn [streamRef set_voiceError set_recordingTime set_isRecording].
  destruct (streamRef s) eqn:Hstream; cbn [negb].
  - destruct o as [message|message|]; [| |destruct Hfail; congruence].
    + cbn. repeat split.
      intros id rc tr s' Hrc Hid _. exfalso. eapply (Hold s); eauto.
    + unfold recordingCount. cbn.
      rewrite List.filter_app. cbn. rewrite app_nil_r.
      repeat split.
      intros id rc tr s' Hrc Hid Hrun.
      assert (id = length (recorders s)) as ->.
      { apply lookup_lt_Some in Hrc. rewrite length_app in Hrc. cbn in Hrc. lia. }
      rewrite list_lookup_middle in Hrc by reflexivity. simplify_eq.
      eapply unstarted_recorder_never_stops; [| | |exact Hrun]; cbn.
      * apply list_lookup_middle. reflexivity.
      * reflexivity.
      * reflexivity.
  - cbn. repeat split.
    intros id rc tr s' Hrc Hid _. exfalso. eapply (Hold s); eauto.
Qed.

Lemma C10_no_microphone_witness :
  isRecording (handleVoiceRecord Scenario.webmRuntime (render Scenario.noMicrophone)
                                 Starts Scenario.noMicrophone) = false
  /\ voiceError (handleVoiceRecord Scenario.webmRuntime (render Scenario.noMicrophone)
                                   Starts Scenario.noMicrophone)
     = Some "Microphone not available".
Proof.
  destruct (C10_failed_start_resets_recording_flag
              Scenario.webmRuntime (render Scenario.noMicrophone) Starts
              Scenario.noMicrophone)
    as (Hflag & Herr & _).
  - reflexivity.
  - reflexivity.
  - left. reflexivity.
  - split; [exact Hflag | exact Herr].
Defined.

(** ** The 60 second cap *)

Ltac unfold_capture :=
  unfold onAutoListenTimeout, handleVoiceRecord, startRecording, stopRecording,
    onRecordingTimer, ondataavailable, observe in *.

Ltac unfold_shell :=
  unfold onChat, onTyping, settle, setJob, observe in *.

Section Cap.

Variable isTypeSupported : string -> bool.

Lemma recordingTime_stopRecording s :
  recordingTime (stopRecording s) = recordingTime s.
Proof. unfold stopRecording. repeat case_match; reflexivity. Qed.

Lemma recordingTime_handleVoiceRecord r o s :
  recordingTime (handleVoiceRecord isTypeSupported r o s) = recordingTime s
  \/ recordingTime (handleVoiceRecord isTypeSupported r o s) = 0.
Proof. unfold_capture. repeat case_match; simplify_eq; cbn; auto. Qed.

Lemma recordingTime_processRecording r s :
  recordingTime (processRecording isTypeSupported r s) = recordingTime s
  \/ recordingTime (processRecording isTypeSupported r s) = 0.
Proof. unfold_processing. repeat case_match; cbn; auto. Qed.

Lemma recordingTime_processRecording_response r resp s :
  recordingTime (processRecording_response r resp s) = 0.
Proof. unfold_processing. repeat case_match; reflexivity. Qed.

Lemma recordingTime_onRecordingTimer s :
  recordingTime (onRecordingTimer s) <= 60.
Proof.
  unfold onRecordingTimer.
  destruct (Nat.leb_spec 60 (recordingTime s)); cbn; lia.
Qed.

Lemma recordingTime_shell j ph p resp r response s :
  recordingTime (setJob j ph s) = recordingTime s
  /\ recordingTime (settle j p s) = recordingTime s
  /\ recordingTime (onChat j resp s) = recordingTime s
  /\ recordingTime (onTyping j r response s) = recordingTime s.
Proof. unfold_shell. repeat split; repeat case_match; reflexivity. Qed.

Lemma recordingTime_step e s s' :
  recordingTime s <= 60 ->
  step isTypeSupported e s = Some s' ->
  recordingTime s' <= 60.
Proof.
  intros Hle. destruct e; cbn [step]; intros H.
  - simplify_eq. exact Hle.
  - simplify_eq. exact Hle.
  - simplify_eq.
    destruct (recordingTime_handleVoiceRecord (render s) o s) as [->| ->]; lia.
  - repeat case_match; simplify_eq.
    unfold ondataavailable. case_match; exact Hle.
  - repeat case_match; simplify_eq.
    match goal with
    | |- recordingTime (processRecording _ ?r ?s0) <= _ =>
        destruct (recordingTime_processRecording r s0) as [->| ->]
    end; [exact Hle | lia].
  - case_match; simplify_eq. apply recordingTime_onRecordingTimer.
  - case_match; simplify_eq.
    rewrite recordingTime_processRecording_response. lia.
  - repeat case_match; simplify_eq.
    unfold onAutoListenTimeout. case_match; [|exact Hle].
    match goal with
    | |- recordingTime (handleVoiceRecord _ ?r ?o ?s0) <= _ =>
        destruct (recordingTime_handleVoiceRecord r o s0) as [->| ->]
    end; [exact Hle | lia].
  - repeat case_match; simplify_eq.
    rewrite (proj1 (proj2 (proj2 (recordingTime_shell j Finished
               (Speech.Done Resolved) resp (render s) "" s)))). exact Hle.
  - repeat case_match; simplify_eq.
    match goal with
    | |- recordingTime (onTyping _ ?r ?resp ?s0) <= _ =>
        rewrite (proj2 (proj2 (proj2 (recordingTime_shell j Finished
                   (Speech.Done Resolved) ChatFails r resp s0))))
    end. exact Hle.
  - repeat case_match; simplify_eq.
    match goal with
    | |- recordingTime (settle _ ?p ?s0) <= _ =>
        rewrite (proj1 (proj2 (recordingTime_shell j Finished
                   p ChatFails (render s) "" s0)))
    end. exact Hle.
  - repeat case_match; simplify_eq.
    match goal with
    | |- recordingTime (settle _ ?p ?s0) <= _ =>
        rewrite (proj1 (proj2 (recordingTime_shell j Finished
                   p ChatFails (render s) "" s0)))
    end. exact Hle.
Qed.

Lemma recordingTime_run tr : forall s s',
  recordingTime s <= 60 ->
  run isTypeSupported tr s = Some s' ->
  recordingTime s' <= 60.
Proof.
  induction tr as [|e tr IH]; intros s s' Hle H; cbn [run] in H.
  - simplify_eq. exact Hle.
  - destruct (step isTypeSupported e s) as [s1|] eqn:Hstep; [|discriminate].
    eapply IH; [|exact H]. eapply recordingTime_step; eassumption.
Qed.

(** What [stopRecording] does to the current recorder and its interval. *)
Lemma stopRecording_fields s :
  recordingTimerRef (stopRecording s) = recordingTimerRef s
  /\ mediaRecorderRef (stopRecording s) = mediaRecorderRef s
  /\ intervals (stopRecording s)
     = match recordingTimerRef s with
       | Some t => List.filter (fun i => negb (i =? t)%nat) (intervals s)
       | None => intervals s
       end
  /\ recorders (stopRecording s)
     = match mediaRecorderRef s with
       | Some id =>
           match recorders s !! id with
           | Some rc =>
               if isRecordingState (rec_state rc)
               then <[id := mkRecorder inactive (rec_mimeType rc) true
                                       (rec_handlers rc)]> (recorders s)
               else recorders s
           | None => recorders s
           end
       | None => recorders s
       end.
Proof.
  unfold stopRecording.
  destruct (mediaRecorderRef s) as [id|] eqn:Href;
    [destruct (recorders s !! id) as [rc|] eqn:Hrc;
     [destruct (isRecordingState (rec_state rc)) eqn:Hst|]|];
    cbn [recordingTimerRef set_recorders];
    destruct (recordingTimerRef s) as [t|] eqn:Ht; cbn;
    rewrite ?Href, ?Hrc, ?Ht; repeat split; reflexivity.
Qed.

Lemma recordingTimerRef_stopRecording s :
  recordingTimerRef (stopRecording s) = recordingTimerRef s.
Proof. apply stopRecording_fields. Qed.

Lemma mediaRecorderRef_stopRecording s :
  mediaRecorderRef (stopRecording s) = mediaRecorderRef s.
Proof. apply stopRecording_fields. Qed.

Lemma intervals_stopRecording s :
  intervals (stopRecording s)
  = match recordingTimerRef s with
    | Some t => List.filter (fun i => negb (i =? t)%nat) (intervals s)
    | None => intervals s
    end.
Proof. apply stopRecording_fields. Qed.

Lemma recorders_stopRecording s :
  recorders (stopRecording s)
  = match mediaRecorderRef s with
    | Some id =>
        match recorders s !! id with
        | Some rc =>
            if isRecordingState (rec_state rc)
            then <[id := mkRecorder inactive (rec_mimeType rc) true
                                    (rec_handlers rc)]> (recorders s)
            else recorders s
        | None => recorders s
        end
    | None => recorders s
    end.
Proof. apply stopRecording_fields. Qed.

Lemma not_in_filter_self t l :
  ~ In t (List.filter (fun i => negb (i =? t)%nat) l).
Proof.
  intros H. apply filter_In in H. destruct H as [_ H].
  rewrite Nat.eqb_refl in H. discriminate.
Qed.

Lemma stopRecording_stops s :
  currentRecorderStopped (stopRecording s)
  /\ (forall t, recordingTimerRef (stopRecording s) = Some t ->
                ~ In t (intervals (stopRecording s)))
  /\ (forall id rc,
         mediaRecorderRef s = Some id -> recorders s !! id = Some rc ->
         rec_state rc = recording ->
         exists rc', recorders (stopRecording s) !! id = Some rc'
                     /\ rec_state rc' = inactive /\ rec_stopQueued rc' = true).
Proof.
  split; [|split].
  - intros id rc. rewrite mediaRecorderRef_stopRecording, recorders_stopRecording.
    intros Href. rewrite Href.
    destruct (recorders s !! id) as [rc0|] eqn:Hrc; [|congruence].
    destruct (rec_state rc0) eqn:Hst; cbn [isRecordingState].
    + intros H. congruence.
    + rewrite list_lookup_insert_eq by (eapply lookup_lt_Some; eauto).
      intros H. simplify_eq. reflexivity.
  - intros t. rewrite recordingTimerRef_stopRecording, intervals_stopRecording.
    intros Ht. rewrite Ht. apply not_in_filter_self.
  - intros id rc Href Hrc Hst. rewrite recorders_stopRecording, Href, Hrc, Hst.
    cbn [isRecordingState]. eexists. split.
    + apply list_lookup_insert_eq. eapply lookup_lt_Some; eauto.
    + split; reflexivity.
Qed.

End Cap.

(** What the cap does guarantee.  In every run the elapsed-seconds counter stays at or below 60; and
    in every reachable state in which it has reached 60, the next tick of
    the interval, whatever the user did or did not do, leaves it at 60 and
    stops the capture: the recorder that [mediaRecorderRef] points to is no
    longer capturing (if it was, its stop event is now queued, which runs
    [processRecording]) and the interval of [recordingTimerRef] is
    cancelled. *)
Theorem cap_stops_the_current_recorder
        (isTypeSupported : string -> bool) (tr : list Event)
        (stream : bool) (sid : option string) (s : State) :
  run isTypeSupported tr (initial stream sid) = Some s ->
  recordingTime s <= 60
  /\ forall id s',
      recordingTime s = 60 ->
      step isTypeSupported (EvInterval id) s = Some s' ->
      recordingTime s' = 60
      /\ currentRecorderStopped s'
      /\ (forall t, recordingTimerRef s' = Some t -> ~ In t (intervals s'))
      /\ (forall rid rc,
             mediaRecorderRef s = Some rid -> recorders s !! rid = Some rc ->
             rec_state rc = recording ->
             exists rc', recorders s' !! rid = Some rc'
                         /\ rec_state rc' = inactive
                         /\ rec_stopQueued rc' = true).
Proof.
  intros Hrun. split.
  - eapply recordingTime_run; [|exact Hrun]. cbn. lia.
  - intros id s' H60 Hstep. cbn [step] in Hstep.
    destruct (existsb (Nat.eqb id) (intervals s)); [|discriminate].
    simplify_eq. unfold onRecordingTimer. rewrite H60. cbn [Nat.leb].
    destruct (stopRecording_stops s) as (Hcur & Htimer & Hstop).
    split; [reflexivity|]. split; [exact Hcur|]. split; [exact Htimer|].
    exact Hstop.
Qed.

Lemma cap_at_sixty_ticks :
  recordingTime Scenario.atTheCap = 60
  /\ recordingCount Scenario.atTheCap = 1
  /\ exists s',
      step Scenario.webmRuntime (EvInterval 0) Scenario.atTheCap = Some s'
      /\ recordingTime s' = 60
      /\ currentRecorderStopped s'.
Proof.
  split; [vm_compute; reflexivity|]. split; [vm_compute; reflexivity|].
  assert (Hrun : run Scenario.webmRuntime Scenario.sixtyTicks
                     (initial true Scenario.session) = Some Scenario.atTheCap)
    by (vm_compute; reflexivity).
  destruct (cap_stops_the_current_recorder
              Scenario.webmRuntime Scenario.sixtyTicks true Scenario.session
              Scenario.atTheCap Hrun) as [_ Htick].
  eexists. split; [vm_compute; reflexivity|].
  destruct (Htick 0 _ ltac:(vm_compute; reflexivity) ltac:(vm_compute; reflexivity))
    as (H1 & H2 & _).
  split; [exact H1 | exact H2].
Qed.

(** ** The auto-listen timer *)

Ltac solve_quiet :=
  unfold quiet, completes, rearmTimes, processedTimes; cbn;
  rewrite ?flat_map_app; cbn; rewrite ?app_nil_r; auto.

Section AutoListen.

Variable isTypeSupported : string -> bool.

Lemma quiet_refl s : quiet s s.
Proof. unfold quiet. auto. Qed.

Lemma quiet_trans s1 s2 s3 : quiet s1 s2 -> quiet s2 s3 -> quiet s1 s3.
Proof. unfold quiet. intros (?&?&?) (?&?&?). repeat split; congruence. Qed.

Lemma quiet_completes r s1 s2 s3 :
  quiet s1 s2 -> now s2 = now s1 -> completes r s2 s3 -> completes r s1 s3.
Proof.
  unfold quiet, completes. intros (E1 & E2 & E3) En (F1 & F2 & F3).
  rewrite F1, F2, F3, E1, E2, E3, En. auto.
Qed.

Lemma quiet_handleVoiceRecord r o s :
  quiet s (handleVoiceRecord isTypeSupported r o s).
Proof.
  unfold handleVoiceRecord, startRecording.
  destruct (negb (truthy (r_sessionId r))); [solve_quiet|].
  destruct (r_isRecording r).
  - unfold quiet, rearmTimes, processedTimes.
    rewrite log_stopRecording. unfold stopRecording.
    repeat case_match; cbn; auto.
  - cbn [streamRef set_voiceError set_recordingTime set_isRecording].
    destruct (streamRef s); cbn [negb]; [destruct o|]; solve_quiet.
Qed.

Lemma quiet_onRecordingTimer s : quiet s (onRecordingTimer s).
Proof.
  unfold onRecordingTimer. case_match; [|solve_quiet].
  unfold quiet, rearmTimes, processedTimes. cbn.
  rewrite log_stopRecording. unfold stopRecording.
  repeat case_match; cbn; auto.
Qed.

Lemma quiet_onVoiceMessage r res s : quiet s (onVoiceMessage r res s).
Proof.
  unfold quiet, rearmTimes, processedTimes. rewrite log_onVoiceMessage.
  rewrite !flat_map_app. cbn. rewrite !app_nil_r.
  unfold_processing. repeat case_match; cbn; auto.
Qed.

Lemma quiet_processRecording_catch r m s :
  quiet s (processRecording_catch r m s).
Proof.
  unfold processRecording_catch.
  eapply quiet_trans; [|apply quiet_onVoiceMessage]. solve_quiet.
Qed.

Lemma completes_processRecording_finally r s :
  completes r s (processRecording_finally r s).
Proof.
  unfold completes, rearmTimes, processedTimes.
  rewrite log_processRecording_finally, !flat_map_app. cbn. rewrite app_nil_r.
  unfold processRecording_finally, scheduleAutoListening, observe.
  destruct (r_autoMode r); cbn; auto.
Qed.

Lemma processRecording_effect r s :
  quiet s (processRecording isTypeSupported r s)
  \/ completes r s (processRecording isTypeSupported r s).
Proof.
  unfold processRecording.
  destruct (audioChunksRef s) as [|c cs] eqn:E.
  - right. unfold completes, scheduleAutoListening, observe.
    destruct (r_autoMode r); solve_quiet.
  - destruct (Format.blobFormat isTypeSupported) as [type fileName].
    case_match.
    + right. eapply quiet_completes;
        [|
         |apply completes_processRecording_finally].
      * eapply quiet_trans; [|apply quiet_processRecording_catch]. solve_quiet.
      * rewrite now_processRecording_catch. reflexivity.
    + left. solve_quiet.
Qed.

Lemma processRecording_response_effect r resp s :
  completes r s (processRecording_response r resp s).
Proof.
  unfold processRecording_response.
  destruct resp;
    try (eapply quiet_completes;
         [apply quiet_processRecording_catch
         |apply now_processRecording_catch
         |apply completes_processRecording_finally]).
  case_match.
  - eapply quiet_completes; [| |apply completes_processRecording_finally].
    + eapply quiet_trans; [apply quiet_onVoiceMessage|]. solve_quiet.
    + cbn. apply now_onVoiceMessage.
  - eapply quiet_completes; [| |apply completes_processRecording_finally].
    + eapply quiet_trans; [apply quiet_onVoiceMessage|]. solve_quiet.
    + cbn. apply now_onVoiceMessage.
Qed.

Lemma quiet_setJob j ph s : quiet s (setJob j ph s).
Proof. unfold setJob. case_match; solve_quiet. Qed.

Lemma quiet_settle j p s : quiet s (settle j p s).
Proof.
  unfold settle. destruct p; try apply quiet_setJob.
  eapply quiet_trans; [apply quiet_setJob|]. solve_quiet.
Qed.

Lemma rearmsJustified_quiet s s' :
  quiet s s' -> rearmsJustified s -> rearmsJustified s'.
Proof.
  unfold quiet, rearmsJustified. intros (E1 & E2 & E3).
  rewrite E1, E2, E3. auto.
Qed.

Lemma rearmsJustified_completes r s s' :
  completes r s s' -> rearmsJustified s -> rearmsJustified s'.
Proof.
  unfold completes, rearmsJustified.
  intros (E1 & E2 & E3) (Hre & Hpend & Hcount).
  rewrite E1, E2, E3. split; [|split].
  - intros t Ht. destruct (Hre t Ht) as (tp & Hin & Hle).
    exists tp. split; [apply in_or_app; left; exact Hin | exact Hle].
  - intros due r0 H. destruct (r_autoMode r) eqn:Hauto.
    + simplify_eq. split; [exact Hauto|].
      exists (now s). split; [apply in_or_app; right; left|]; reflexivity.
    + destruct (Hpend due r0 H) as (Ha & tp & Hin & Hdue).
      split; [exact Ha|]. exists tp.
      split; [apply in_or_app; left; exact Hin | exact Hdue].
  - rewrite length_app. cbn [length].
    destruct (r_autoMode r); [destruct (autoListenTimeout s)|]; lia.
Qed.

Lemma rearmsJustified_step e s s' :
  step isTypeSupported e s = Some s' ->
  rearmsJustified s -> rearmsJustified s'.
Proof.
  destruct e; cbn [step]; intros H Hinv.
  - simplify_eq. revert Hinv. apply rearmsJustified_quiet. solve_quiet.
  - simplify_eq. revert Hinv. apply rearmsJustified_quiet. solve_quiet.
  - simplify_eq. revert Hinv. apply rearmsJustified_quiet.
    apply quiet_handleVoiceRecord.
  - repeat case_match; simplify_eq. revert Hinv.
    apply rearmsJustified_quiet. unfold ondataavailable.
    case_match; solve_quiet.
  - repeat case_match; simplify_eq.
    match goal with
    | |- rearmsJustified (processRecording _ ?r ?s0) =>
        assert (Hq : quiet s s0) by solve_quiet;
        destruct (processRecording_effect r s0) as [He|He]
    end.
    + eapply rearmsJustified_quiet; [|exact Hinv].
      exact (quiet_trans _ _ _ Hq He).
    + eapply rearmsJustified_completes; [|exact Hinv].
      eapply quiet_completes; [exact Hq|reflexivity|exact He].
  - case_match; simplify_eq. revert Hinv. apply rearmsJustified_quiet.
    apply quiet_onRecordingTimer.
  - case_match; simplify_eq.
    eapply rearmsJustified_completes; [|exact Hinv].
    eapply quiet_completes;
      [|
       |apply processRecording_response_effect];
      [solve_quiet | reflexivity].
  - destruct (autoListenTimeout s) as [[due r]|] eqn:Ht; [|discriminate].
    destruct (Nat.leb_spec due (now s)) as [Hdue|_]; [|discriminate].
    simplify_eq. destruct Hinv as (Hre & Hpend & Hcount).
    destruct (Hpend due r Ht) as (_ & tp & Hin & ->).
    rewrite Ht in Hcount.
    unfold onAutoListenTimeout. case_match.
    + eapply rearmsJustified_quiet; [apply quiet_handleVoiceRecord|].
      unfold rearmsJustified, rearmTimes, processedTimes. cbn.
      rewrite !flat_map_app. cbn. rewrite !app_nil_r.
      fold (rearmTimes s). fold (processedTimes s).
      split; [|split].
      * intros t Hin'. apply in_app_or in Hin'. destruct Hin' as [Hin'|[<-|[]]].
        -- apply Hre. exact Hin'.
        -- exists tp. split; [exact Hin | exact Hdue].
      * intros ? ? ?. discriminate.
      * rewrite length_app. cbn [length]. lia.
    + unfold rearmsJustified. cbn. fold (rearmTimes s). fold (processedTimes s).
      split; [exact Hre|]. split; [intros ? ? ?; discriminate | lia].
  - repeat case_match; simplify_eq. revert Hinv. apply rearmsJustified_quiet.
    unfold onChat. eapply quiet_trans; [apply quiet_setJob|]. solve_quiet.
  - repeat case_match; simplify_eq; revert Hinv; apply rearmsJustified_quiet;
      unfold onTyping; case_match;
      solve [apply quiet_settle | apply quiet_setJob].
  - repeat case_match; simplify_eq. revert Hinv.
    apply rearmsJustified_quiet. apply quiet_settle.
  - repeat case_match; simplify_eq. revert Hinv.
    apply rearmsJustified_quiet. apply quiet_settle.
Qed.

Lemma rearmsJustified_run tr : forall s s',
  run isTypeSupported tr s = Some s' ->
  rearmsJustified s -> rearmsJustified s'.
Proof.
  induction tr as [|e tr IH]; intros s s' H Hinv; cbn [run] in H.
  - simplify_eq. exact Hinv.
  - destruct (step isTypeSupported e s) as [s1|] eqn:Hstep; [|discriminate].
    eapply IH; [exact H|]. eapply rearmsJustified_step; eassumption.
Qed.

End AutoListen.

(** X10. What the timer does guarantee.  The auto-listen timeout is set where
    [processRecording] ends, not where the assistant's playback ends.  When
    the render of a [processRecording] has auto-listen on, its end leaves
    exactly one pending timeout, due 3000 ms after that moment (an earlier
    one is replaced); the timeout fires only when due and is then gone;
    every automatic re-arm of a run happens 3000 ms or more after a
    completed [processRecording], and a run has no more re-arms than
    completed [processRecording]s. *)
Theorem rearm_waits_for_processing
        (isTypeSupported : string -> bool) (tr : list Event)
        (stream : bool) (sid : option string) (s : State) :
  run isTypeSupported tr (initial stream sid) = Some s ->
  (forall t, In t (rearmTimes s) ->
             exists tp, In tp (processedTimes s) /\ tp + 3000 <= t)
  /\ length (rearmTimes s) <= length (processedTimes s)
  /\ (forall r resp,
         r_autoMode r = true ->
         autoListenTimeout (processRecording_response r resp s)
         = Some (now s + 3000, r))
  /\ (forall r,
         r_autoMode r = true ->
         uploads (processRecording isTypeSupported r s) = uploads s ->
         autoListenTimeout (processRecording isTypeSupported r s)
         = Some (now s + 3000, r))
  /\ (forall o s',
         step isTypeSupported (EvAutoListen o) s = Some s' ->
         exists due r, autoListenTimeout s = Some (due, r)
                       /\ due <= now s
                       /\ autoListenTimeout s' = None).
Proof.
  intros Hrun.
  assert (Hinv : rearmsJustified s).
  { eapply rearmsJustified_run; [exact Hrun|].
    unfold rearmsJustified. cbn. split; [intros t []|].
    split; [intros; discriminate | lia]. }
  destruct Hinv as (Hre & _ & Hcount).
  split; [exact Hre|]. split; [lia|]. split; [|split].
  - intros r resp Hauto.
    destruct (processRecording_response_effect r resp s) as (_ & _ & E).
    rewrite E, Hauto. reflexivity.
  - intros r Hauto. unfold processRecording.
    destruct (audioChunksRef s) as [|c cs] eqn:Ech.
    + intros _. unfold scheduleAutoListening, observe. rewrite Hauto. reflexivity.
    + destruct (Format.blobFormat isTypeSupported) as [type fileName].
      destruct (blob_size _ <? 100)%nat.
      * intros _.
        match goal with
        | |- autoListenTimeout (processRecording_finally r ?s0) = _ =>
            destruct (completes_processRecording_finally r s0) as (_ & _ & E);
            rewrite E, Hauto, now_processRecording_catch
        end.
        reflexivity.
      * cbn. intros Hup. apply (f_equal (@length Upload)) in Hup.
        rewrite length_app in Hup. cbn in Hup. lia.
  - intros o s' Hstep. cbn [step] in Hstep.
    destruct (autoListenTimeout s) as [[due r]|] eqn:Ht; [|discriminate].
    destruct (Nat.leb_spec due (now s)) as [Hdue|_]; [|discriminate].
    simplify_eq. exists due, r. split; [reflexivity|]. split; [exact Hdue|].
    unfold onAutoListenTimeout. case_match; [|reflexivity].
    match goal with
    | |- autoListenTimeout (handleVoiceRecord _ ?r0 ?o0 ?s0) = _ =>
        destruct (quiet_handleVoiceRecord isTypeSupported r0 o0 s0) as (_ & _ & E)
    end.
    rewrite E. reflexivity.
Qed.

(** C1, at the failing runs.  Auto-listen is on throughout.

    First run: the transcription of a capture is handled at 1400 ms, the
    automatic re-arm fires at 4400 ms, and the assistant's reply, which
    started to play at 3000 ms, ends at 4900 ms: the re-arm came 500 ms
    before the end of playback, not 3000 ms or more after it.

    Second run: the transcription is handled at 1400 ms, the user starts a
    recording by hand at 2400 ms, before the delay has elapsed, and the
    automatic re-arm fires all the same at 4400 ms. *)
Theorem C1_rearm_ignores_playback_and_manual_start :
  (exists s,
      run Scenario.webmRuntime Scenario.rearmDuringSpeech Scenario.idle = Some s
      /\ autoMode s = true
      /\ processedTimes s = [1400]
      /\ rearmTimes s = [4400]
      /\ speakTimes s = [4900]
      /\ ~ (forall t, In t (rearmTimes s) ->
                      exists tp, In tp (speakTimes s) /\ tp + 3000 <= t))
  /\ (exists s0 s,
         run Scenario.webmRuntime (removelast Scenario.manualThenTimer)
             Scenario.idle = Some s0
         /\ autoMode s0 = true
         /\ last (log s0) = Some (2400, ObsRecorderStarted 1)
         /\ autoListenTimeout s0 <> None
         /\ step Scenario.webmRuntime (EvAutoListen Starts) s0 = Some s
         /\ rearmTimes s = [4400]).
Proof.
  split.
  - eexists. split; [vm_compute; reflexivity|].
    split; [reflexivity|]. split; [reflexivity|].
    split; [reflexivity|]. split; [reflexivity|].
    intros H. destruct (H 4400) as (tp & Hin & Hle).
    + left. reflexivity.
    + destruct Hin as [<-|[]]. lia.
  - eexists. eexists. split; [vm_compute; reflexivity|].
    split; [reflexivity|]. split; [reflexivity|].
    split; [discriminate|].
    split; [vm_compute; reflexivity|]. reflexivity.
Qed.

(** ** One recording at a time *)

(** C9, at the failing run.  Auto-listen is on; a capture is made and its
    transcription handled at 1400 ms, which sets the auto-listen timeout;
    at 2400 ms the user starts a capture by hand; at 4400 ms the timeout
    fires.  Its callback reads the [isRecording] of the render that started
    the first capture, which is [false], and starts another recorder: two
    recorders are capturing at once. *)
Theorem C9_timer_starts_a_second_recording :
  exists s0 s,
    run Scenario.webmRuntime (removelast Scenario.manualThenTimer) Scenario.idle
    = Some s0
    /\ isRecording s0 = true
    /\ recordingCount s0 = 1
    /\ step Scenario.webmRuntime (EvAutoListen Starts) s0 = Some s
    /\ rearmTimes s = [4400]
    /\ map rec_state (recorders s) = [inactive; recording; recording]
    /\ recordingCount s = 2.
Proof.
  eexists. eexists. split; [vm_compute; reflexivity|].
  split; [reflexivity|]. split; [reflexivity|].
  split; [vm_compute; reflexivity|].
  repeat split.
Qed.

(** ** The auto-listen flag *)

Section Flag.

Variable isTypeSupported : string -> bool.

(** The flag is off after mount, and only the toggle changes it. *)
Lemma autoMode_initial stream sid : autoMode (initial stream sid) = false.
Proof. reflexivity. Qed.

Lemma autoMode_handleVoiceRecord r o s :
  autoMode (handleVoiceRecord isTypeSupported r o s) = autoMode s.
Proof. unfold_capture. repeat case_match; simplify_eq; reflexivity. Qed.

Lemma autoMode_processRecording r s :
  autoMode (processRecording isTypeSupported r s) = autoMode s.
Proof. unfold_processing. repeat case_match; reflexivity. Qed.

Lemma autoMode_processRecording_response r resp s :
  autoMode (processRecording_response r resp s) = autoMode s.
Proof. unfold_processing. repeat case_match; reflexivity. Qed.

Lemma autoMode_changes_only_by_toggle e s s' :
  step isTypeSupported e s = Some s' ->
  e <> EvToggleAuto ->
  autoMode s' = autoMode s.
Proof.
  destruct e; cbn [step]; intros H Hne; try congruence;
    repeat case_match; simplify_eq;
    rewrite ?autoMode_handleVoiceRecord, ?autoMode_processRecording,
      ?autoMode_processRecording_response;
    try reflexivity.
  all: try (unfold ondataavailable; case_match; reflexivity).
  all: try (unfold onRecordingTimer, stopRecording;
            repeat case_match; reflexivity).
  all: try (unfold onAutoListenTimeout; case_match; [|reflexivity];
            rewrite autoMode_handleVoiceRecord; reflexivity).
  all: unfold_shell; repeat case_match; reflexivity.
Qed.

(** With the flag of its render off, the scheduler does nothing. *)
Lemma scheduleAutoListening_off r s :
  r_autoMode r = false -> scheduleAutoListening r s = s.
Proof. intros H. unfold scheduleAutoListening. rewrite H. reflexivity. Qed.

(** Callbacks of renders with the flag off keep it that way. *)
Lemma handlers_stopRecording s :
  Forall (fun rc => r_autoMode (rec_handlers rc) = false) (recorders s) ->
  Forall (fun rc => r_autoMode (rec_handlers rc) = false)
         (recorders (stopRecording s)).
Proof.
  intros H. rewrite recorders_stopRecording.
  destruct (mediaRecorderRef s) as [id|]; [|exact H].
  destruct (recorders s !! id) as [rc|] eqn:Hrc; [|exact H].
  destruct (isRecordingState (rec_state rc)); [|exact H].
  apply Forall_insert; [exact H|]. cbn.
  rewrite Forall_lookup in H. exact (H id rc Hrc).
Qed.

Lemma handlers_handleVoiceRecord r o s :
  r_autoMode r = false ->
  Forall (fun rc => r_autoMode (rec_handlers rc) = false) (recorders s) ->
  Forall (fun rc => r_autoMode (rec_handlers rc) = false)
         (recorders (handleVoiceRecord isTypeSupported r o s)).
Proof.
  intros Hr H. unfold handleVoiceRecord.
  destruct (negb (truthy (r_sessionId r))); [exact H|].
  destruct (r_isRecording r).
  - apply handlers_stopRecording. exact H.
  - unfold startRecording.
    cbn [streamRef set_voiceError set_recordingTime set_isRecording].
    destruct (streamRef s); cbn [negb]; [destruct o|]; cbn;
      try exact H; apply Forall_app; (split; [exact H|]);
      constructor; [exact Hr | constructor | exact Hr | constructor].
Qed.

Lemma uploads_handleVoiceRecord r o s :
  uploads (handleVoiceRecord isTypeSupported r o s) = uploads s.
Proof. unfold_capture. repeat case_match; simplify_eq; reflexivity. Qed.

Lemma uploads_processRecording_response r resp s :
  uploads (processRecording_response r resp s) = uploads s.
Proof. unfold_processing. repeat case_match; reflexivity. Qed.

Lemma renders_processRecording r s :
  r_autoMode r = false ->
  Forall (fun u => r_autoMode (up_render u) = false) (uploads s) ->
  Forall (fun u => r_autoMode (up_render u) = false)
         (uploads (processRecording isTypeSupported r s)).
Proof.
  intros Hr H. unfold processRecording.
  destruct (audioChunksRef s); [unfold_processing; repeat case_match; exact H|].
  destruct (Format.blobFormat isTypeSupported) as [type fileName].
  destruct (blob_size _ <? 100)%nat.
  - unfold_processing. repeat case_match; exact H.
  - cbn. apply Forall_app. split; [exact H|]. constructor; [exact Hr|constructor].
Qed.

Lemma autoListenNeverOn_step e s s' :
  step isTypeSupported e s = Some s' ->
  e <> EvToggleAuto ->
  autoListenNeverOn s -> autoListenNeverOn s'.
Proof.
  intros Hstep Hne (Hoff & Hnone & Hre & Hrec & Hup).
  pose proof (autoMode_changes_only_by_toggle e s s' Hstep Hne) as Hauto.
  unfold autoListenNeverOn. rewrite Hauto.
  split; [exact Hoff|].
  destruct e; cbn [step] in Hstep; try congruence.
  - simplify_eq. cbn. auto.
  - simplify_eq.
    destruct (quiet_handleVoiceRecord isTypeSupported (render s) o s)
      as (E1 & _ & E3).
    rewrite E1, E3, uploads_handleVoiceRecord.
    repeat split; try assumption.
    apply handlers_handleVoiceRecord; [exact Hoff | exact Hrec].
  - repeat case_match; simplify_eq.
    unfold ondataavailable. case_match; cbn; auto.
  - destruct (recorders s !! id) as [rc|] eqn:Hrc; [|discriminate].
    destruct (rec_stopQueued rc); [|discriminate]. simplify_eq.
    assert (Hr : r_autoMode (rec_handlers rc) = false).
    { rewrite Forall_lookup in Hrec. exact (Hrec id rc Hrc). }
    match goal with
    | |- context [processRecording _ ?r ?s0] =>
        destruct (processRecording_effect isTypeSupported r s0)
          as [(E1 & _ & E3)|(E1 & _ & E3)];
        rewrite E1, E3, ?Hr, recorders_processRecording
    end.
    + repeat split; try assumption.
      * cbn. apply Forall_insert; [exact Hrec | exact Hr].
      * apply renders_processRecording; [exact Hr | exact Hup].
    + repeat split; try assumption.
      * cbn. apply Forall_insert; [exact Hrec | exact Hr].
      * apply renders_processRecording; [exact Hr | exact Hup].
  - case_match; simplify_eq.
    destruct (quiet_onRecordingTimer s) as (E1 & _ & E3). rewrite E1, E3.
    repeat split; try assumption.
    + unfold onRecordingTimer. case_match; [|exact Hrec].
      cbn. apply handlers_stopRecording. exact Hrec.
    + unfold onRecordingTimer, stopRecording. repeat case_match; exact Hup.
  - destruct (uploads s !! i) as [u|] eqn:Hu; [|discriminate]. simplify_eq.
    assert (Hr : r_autoMode (up_render u) = false).
    { rewrite Forall_lookup in Hup. exact (Hup i u Hu). }
    match goal with
    | |- context [processRecording_response ?r ?resp ?s0] =>
        destruct (processRecording_response_effect r resp s0) as (E1 & _ & E3);
        rewrite E1, E3, Hr, recorders_processRecording_response,
          uploads_processRecording_response
    end.
    repeat split; try assumption. cbn. apply Forall_delete. exact Hup.
  - rewrite Hnone in Hstep. discriminate.
  - repeat case_match; simplify_eq.
    unfold onChat.
    destruct (quiet_setJob j
                (match resp with
                 | ChatFails => Finished
                 | ChatOk response => TypingDelay (now s + 800) response
                 end) s) as (E1 & _ & E3).
    cbn. unfold rearmTimes in *. cbn. rewrite E1, E3.
    unfold setJob. repeat case_match; cbn; auto.
  - repeat case_match; simplify_eq; unfold onTyping; case_match;
      match goal with
      | |- context [settle ?j ?p ?s0] =>
          destruct (quiet_settle j p s0) as (E1 & _ & E3);
          rewrite E1, E3, recorders_settle
      | |- context [setJob ?j ?p ?s0] =>
          destruct (quiet_setJob j p s0) as (E1 & _ & E3);
          rewrite E1, E3, recorders_setJob
      end;
      repeat split; try assumption;
      unfold_shell; repeat case_match; exact Hup.
  - repeat case_match; simplify_eq;
      match goal with
      | |- context [settle ?j ?p ?s0] =>
          destruct (quiet_settle j p s0) as (E1 & _ & E3);
          rewrite E1, E3, recorders_settle
      end;
      repeat split; try assumption;
      unfold_shell; repeat case_match; exact Hup.
  - repeat case_match; simplify_eq;
      match goal with
      | |- context [settle ?j ?p ?s0] =>
          destruct (quiet_settle j p s0) as (E1 & _ & E3);
          rewrite E1, E3, recorders_settle
      end;
      repeat split; try assumption;
      unfold_shell; repeat case_match; exact Hup.
Qed.

(** In the default state, that is as long as the user has not touched the
    toggle, no run re-arms the recording by itself or schedules a re-arm,
    whatever the transcription, the synthesis and the playback do. *)
Lemma no_rearm_while_never_enabled tr : forall s s',
  Forall (fun e => e <> EvToggleAuto) tr ->
  run isTypeSupported tr s = Some s' ->
  autoListenNeverOn s -> autoListenNeverOn s'.
Proof.
  induction tr as [|e tr IH]; intros s s' Hall H Hinv; cbn [run] in H.
  - simplify_eq. exact Hinv.
  - destruct (step isTypeSupported e s) as [s1|] eqn:Hstep; [|discriminate].
    inversion Hall as [|? ? He Htr]; subst.
    eapply IH; [exact Htr | exact H|].
    eapply autoListenNeverOn_step; eassumption.
Qed.

Lemma autoListenNeverOn_initial stream sid :
  autoListenNeverOn (initial stream sid).
Proof. unfold autoListenNeverOn. cbn. repeat split; constructor. Qed.

End Flag.

(** C2, at the failing run.  Auto-listen is switched on, a capture is
    started, and auto-listen is switched off again while it runs.  The
    capture is stopped and transcribed (1400 ms), the assistant's reply is
    spoken and ends (3700 ms).  At 4400 ms, with auto-listen off ever since
    the second toggle, the timeout set by [processRecording] fires and
    starts a recording: [processRecording] and the timeout callback read
    the [autoMode] of the render that started the capture. *)
Theorem C2_rearm_fires_while_auto_listen_is_off :
  exists s0 s,
    run Scenario.webmRuntime (removelast Scenario.rearmWhileDisabled) Scenario.idle
    = Some s0
    /\ autoMode s0 = false
    /\ speakTimes s0 = [3700]
    /\ recordingCount s0 = 0
    /\ step Scenario.webmRuntime (EvAutoListen Starts) s0 = Some s
    /\ autoMode s = false
    /\ rearmTimes s = [4400]
    /\ isRecording s = true
    /\ recordingCount s = 1.
Proof.
  eexists. eexists. split; [vm_compute; reflexivity|].
  split; [reflexivity|]. split; [reflexivity|]. split; [reflexivity|].
  split; [vm_compute; reflexivity|].
  repeat split.
Qed.


(** * Further properties *)

Import Reading.

(** ** Chunks and payload *)

Lemma collect_fields chunks : forall s,
  audioChunksRef (collect chunks s)
  = audioChunksRef s ++ List.filter (fun d => (0 <? length d)%nat) chunks
  /\ log (collect chunks s) = log s
  /\ now (collect chunks s) = now s
  /\ uploads (collect chunks s) = uploads s.
Proof.
  induction chunks as [|d ds IH]; intros s; cbn [collect fold_left List.filter].
  - rewrite app_nil_r. auto.
  - fold (collect ds (ondataavailable d s)).
    destruct (IH (ondataavailable d s)) as (E1 & E2 & E3 & E4).
    rewrite E1, E2, E3, E4. unfold ondataavailable.
    destruct (0 <? length d)%nat; cbn; [rewrite <- app_assoc|]; auto.
Qed.

Lemma concat_nonempty_chunks (chunks : list Chunk) :
  concat (List.filter (fun d => (0 <? length d)%nat) chunks) = concat chunks.
Proof.
  induction chunks as [|d ds IH]; [reflexivity|]. cbn [List.filter concat].
  destruct d as [|b d]; cbn [length Nat.ltb Nat.leb concat app];
    [exact IH | apply (f_equal (fun l => b :: d ++ l)); exact IH].
Qed.

(** X1. The payload sent for transcription is the chunks in their order of
    arrival: after the data events [chunks] have been handled, with empty
    ones dropped by [ondataavailable], a payload of 100 bytes or more is sent
    as one blob whose bytes are what was collected before, followed by the
    chunks joined in order. *)
Theorem X1_payload_is_the_chunks_in_arrival_order
        (isTypeSupported : string -> bool) (r : Render) (s : State)
        (chunks : list Chunk) :
  100 <= length (concat (audioChunksRef s ++ chunks)) ->
  exists u,
    transcribeCalls (processRecording isTypeSupported r (collect chunks s))
    = transcribeCalls s ++ [u]
    /\ uploads (processRecording isTypeSupported r (collect chunks s))
       = uploads s ++ [u]
    /\ blob_bytes (up_blob u) = concat (audioChunksRef s) ++ concat chunks.
Proof.
  intros Hsize.
  destruct (collect_fields chunks s) as (Ech & Elog & Enow & Eup).
  assert (Hbytes : concat (audioChunksRef (collect chunks s))
                   = concat (audioChunksRef s) ++ concat chunks).
  { rewrite Ech, concat_app, concat_nonempty_chunks. reflexivity. }
  rewrite concat_app in Hsize.
  destruct (log_processRecording_upload isTypeSupported r (collect chunks s))
    as (u & Hlog & Hup & Hblob & _).
  - intros E. rewrite E in Hbytes. cbn in Hbytes. rewrite <- Hbytes in Hsize.
    cbn in Hsize. lia.
  - unfold blob_size, newBlob. cbn. rewrite Hbytes. exact Hsize.
  - exists u. unfold transcribeCalls. rewrite Hlog, flat_map_app, Elog. cbn.
    split; [reflexivity|]. split; [rewrite Hup, Eup; reflexivity|].
    rewrite Hblob. cbn. exact Hbytes.
Qed.

Lemma X1_payload_witness :
  exists u,
    transcribeCalls
      (processRecording Scenario.webmRuntime (render Scenario.idle)
         (collect [Scenario.blip; []; Scenario.utterance] Scenario.idle)) = [u]
    /\ blob_bytes (up_blob u) = Scenario.blip ++ Scenario.utterance.
Proof.
  destruct (X1_payload_is_the_chunks_in_arrival_order
              Scenario.webmRuntime (render Scenario.idle) Scenario.idle
              [Scenario.blip; []; Scenario.utterance])
    as (u & Hcalls & _ & Hbytes).
  - vm_compute. lia.
  - exists u. split; [exact Hcalls|].
    rewrite Hbytes. cbn [concat audioChunksRef Scenario.idle initial app].
    rewrite app_nil_r. reflexivity.
Defined.

(** ** Press to talk *)

Lemma recordingCount_app s rcs :
  length (List.filter (fun rc => isRecordingState (rec_state rc))
                      (recorders s ++ rcs))
  = recordingCount s
    + length (List.filter (fun rc => isRecordingState (rec_state rc)) rcs).
Proof. unfold recordingCount. rewrite List.filter_app, length_app. reflexivity. Qed.

Lemma isRecording_stopRecording s :
  isRecording (stopRecording s) = isRecording s.
Proof.
  unfold stopRecording.
  destruct (mediaRecorderRef s) as [id|];
    [destruct (recorders s !! id) as [rc|];
     [destruct (isRecordingState (rec_state rc))|]|];
    cbn [recordingTimerRef set_recorders];
    destruct (recordingTimerRef s); reflexivity.
Qed.

Lemma handleVoiceRecord_stop isTypeSupported r o s :
  truthy (r_sessionId r) = true ->
  r_isRecording r = true ->
  handleVoiceRecord isTypeSupported r o s = stopRecording (set_isRecording false s).
Proof. intros H1 H2. unfold handleVoiceRecord. rewrite H1, H2. reflexivity. Qed.

(** X2. The ordinary cycle.  With a microphone stream and a session, and
    the recording flag down, a click on the microphone starts exactly one
    new recorder, raises the flag, resets the clock and the chunk list; the
    next click, whatever the browser would answer to a start, stops that
    recorder, queues its stop event (so that [processRecording] will run),
    cancels its interval and lowers the flag, leaving as many capturing
    recorders as before the cycle. *)
Theorem X2_click_starts_and_next_click_stops
        (isTypeSupported : string -> bool) (s : State) :
  streamRef s = true ->
  truthy (sessionId s) = true ->
  isRecording s = false ->
  exists s1,
    step isTypeSupported (EvClick Starts) s = Some s1
    /\ isRecording s1 = true
    /\ recordingTime s1 = 0
    /\ audioChunksRef s1 = []
    /\ mediaRecorderRef s1 = Some (length (recorders s))
    /\ rec_state <$> recorders s1 !! length (recorders s) = Some recording
    /\ recordingCount s1 = S (recordingCount s)
    /\ forall o, exists s2 rc,
        step isTypeSupported (EvClick o) s1 = Some s2
        /\ isRecording s2 = false
        /\ recorders s2 !! length (recorders s) = Some rc
        /\ rec_state rc = inactive
        /\ rec_stopQueued rc = true
        /\ (forall t, recordingTimerRef s2 = Some t -> ~ In t (intervals s2))
        /\ recordingCount s2 = recordingCount s.
Proof.
  intros Hstream Hsid Hrec.
  exists (handleVoiceRecord isTypeSupported (render s) Starts s).
  split; [reflexivity|].
  set (s1 := handleVoiceRecord isTypeSupported (render s) Starts s).
  assert (F : isRecording s1 = true /\ sessionId s1 = sessionId s
              /\ recordingTime s1 = 0 /\ audioChunksRef s1 = []
              /\ mediaRecorderRef s1 = Some (length (recorders s))
              /\ recorders s1
                 = recorders s
                   ++ [mkRecorder recording (Format.negotiate isTypeSupported)
                                  false (render s)]).
  { subst s1. unfold handleVoiceRecord, render. cbn [r_sessionId r_isRecording].
    rewrite Hsid, Hrec. cbn [negb]. unfold startRecording.
    cbn [streamRef set_voiceError set_recordingTime set_isRecording].
    rewrite Hstream. cbn [negb]. repeat split. }
  clearbody s1. destruct F as (F1 & F2 & F3 & F4 & F5 & F6).
  split; [exact F1|]. split; [exact F3|]. split; [exact F4|].
  split; [exact F5|]. split.
  { rewrite F6, list_lookup_middle by reflexivity. reflexivity. }
  split.
  { unfold recordingCount at 1. rewrite F6, recordingCount_app. cbn. lia. }
  intros o. cbn [step].
  rewrite handleVoiceRecord_stop
    by (unfold render; cbn [r_sessionId r_isRecording]; congruence).
  set (st := set_isRecording false s1).
  pose proof (stopRecording_fields st) as (Et & Er & Ei & Erc).
  pose proof (stopRecording_stops st) as (_ & Htimer & _).
  assert (Hcur : mediaRecorderRef st = Some (length (recorders s))) by exact F5.
  assert (Hrcs : recorders st
                 = recorders s
                   ++ [mkRecorder recording (Format.negotiate isTypeSupported)
                                  false (render s)]) by exact F6.
  rewrite Hcur, Hrcs, list_lookup_middle in Erc by reflexivity.
  cbn [rec_state isRecordingState rec_mimeType rec_handlers] in Erc.
  rewrite insert_app_r_alt in Erc by lia.
  replace (length (recorders s) - length (recorders s)) with 0 in Erc by lia.
  cbn [insert list_insert] in Erc.
  eexists. eexists. split; [reflexivity|].
  split; [rewrite isRecording_stopRecording; reflexivity|].
  split; [rewrite Erc; apply list_lookup_middle; reflexivity|].
  split; [reflexivity|]. split; [reflexivity|].
  split; [exact Htimer|].
  unfold recordingCount at 1. rewrite Erc, recordingCount_app. cbn. lia.
Qed.

Lemma X2_cycle_witness :
  exists s1,
    step Scenario.webmRuntime (EvClick Starts) Scenario.idle = Some s1
    /\ isRecording s1 = true
    /\ recordingCount s1 = 1.
Proof.
  destruct (X2_click_starts_and_next_click_stops
              Scenario.webmRuntime Scenario.idle eq_refl eq_refl eq_refl)
    as (s1 & Hstep & Hflag & _ & _ & _ & _ & Hcount & _).
  exists s1. split; [exact Hstep|]. split; [exact Hflag | exact Hcount].
Defined.

(** ** One recorder at a time, as long as auto-listen was never on *)

Lemma filter_none {A} (P : A -> bool) (l : list A) :
  (forall i x, l !! i = Some x -> P x = false) -> List.filter P l = [].
Proof.
  induction l as [|a l IH]; intros H; [reflexivity|]. cbn [List.filter].
  rewrite (H 0 a eq_refl). apply IH. intros i x Hi. exact (H (S i) x Hi).
Qed.

Lemma filter_at_most_one {A} (P : A -> bool) (l : list A) : forall k,
  (forall i x, l !! i = Some x -> P x = true -> i = k) ->
  length (List.filter P l) <= 1.
Proof.
  induction l as [|a l IH]; intros k H; [cbn; lia|]. cbn [List.filter].
  destruct (P a) eqn:Pa.
  - rewrite filter_none; [cbn; lia|].
    intros i x Hi. destruct (P x) eqn:Px; [|reflexivity].
    pose proof (H 0 a eq_refl Pa) as H0. pose proof (H (S i) x Hi Px) as H1.
    lia.
  - apply (IH (pred k)). intros i x Hi Px.
    pose proof (H (S i) x Hi Px). lia.
Qed.

Section SingleRecorder.

Variable isTypeSupported : string -> bool.

Lemma singleRecorder_count s : singleRecorder s -> recordingCount s <= 1.
Proof.
  intros H. unfold recordingCount.
  destruct (mediaRecorderRef s) as [k|] eqn:Hk.
  - apply (filter_at_most_one _ _ k). intros i rc Hi Hrc.
    destruct (rec_state rc) eqn:Hst; [discriminate|].
    destruct (H i rc Hi Hst) as [E _]. congruence.
  - rewrite filter_none; [cbn; lia|]. intros i rc Hi.
    destruct (rec_state rc) eqn:Hst; [reflexivity|].
    destruct (H i rc Hi Hst) as [E _]. congruence.
Qed.

(** After [stopRecording], if only the current recorder could be
    capturing, none is. *)
Lemma stopRecording_none_recording s :
  (forall id rc, recorders s !! id = Some rc -> rec_state rc = recording ->
                 mediaRecorderRef s = Some id) ->
  forall id rc, recorders (stopRecording s) !! id = Some rc ->
                rec_state rc = inactive.
Proof.
  intros H id rc. rewrite recorders_stopRecording.
  destruct (mediaRecorderRef s) as [k|] eqn:Hk.
  - destruct (recorders s !! k) as [rck|] eqn:Hrck.
    + destruct (rec_state rck) eqn:Hst; cbn [isRecordingState].
      * intros Hi. destruct (rec_state rc) eqn:Hrc; [reflexivity|].
        pose proof (H id rc Hi Hrc). congruence.
      * destruct (decide (k = id)) as [->|Hne].
        -- rewrite list_lookup_insert_eq by (eapply lookup_lt_Some; eauto).
           intros E. simplify_eq. reflexivity.
        -- rewrite list_lookup_insert_ne by exact Hne.
           intros Hi. destruct (rec_state rc) eqn:Hrc; [reflexivity|].
           pose proof (H id rc Hi Hrc). congruence.
    + intros Hi. destruct (rec_state rc) eqn:Hrc; [reflexivity|].
      pose proof (H id rc Hi Hrc). congruence.
  - intros Hi. destruct (rec_state rc) eqn:Hrc; [reflexivity|].
    pose proof (H id rc Hi Hrc). congruence.
Qed.

Lemma singleRecorder_handleVoiceRecord o s :
  singleRecorder s ->
  singleRecorder (handleVoiceRecord isTypeSupported (render s) o s).
Proof.
  intros H. unfold handleVoiceRecord, render. cbn [r_sessionId r_isRecording].
  destruct (negb (truthy (sessionId s))); [exact H|].
  destruct (isRecording s) eqn:Hrec.
  - intros id rc Hi Hst. exfalso.
    assert (Hpre : forall id' rc',
               recorders (set_isRecording false s) !! id' = Some rc' ->
               rec_state rc' = recording ->
               mediaRecorderRef (set_isRecording false s) = Some id').
    { intros id' rc' Hi' Hst'. exact (proj1 (H id' rc' Hi' Hst')). }
    pose proof (stopRecording_none_recording _ Hpre id rc Hi). congruence.
  - assert (Hnone : forall id rc, recorders s !! id = Some rc ->
                                  rec_state rc = inactive).
    { intros id rc Hi. destruct (rec_state rc) eqn:Hst; [reflexivity|].
      destruct (H id rc Hi Hst) as [_ E]. congruence. }
    unfold startRecording.
    cbn [streamRef set_voiceError set_recordingTime set_isRecording].
    destruct (streamRef s); cbn [negb].
    + destruct o; cbn [negb]; intros id rc; cbn.
      * intros Hi Hst. rewrite (Hnone id rc Hi) in Hst. discriminate.
      * intros Hi Hst. exfalso.
        destruct (decide (id < length (recorders s))) as [Hlt|Hge].
        -- rewrite lookup_app_l in Hi by exact Hlt.
           rewrite (Hnone id rc Hi) in Hst. discriminate.
        -- rewrite lookup_app_r in Hi by lia.
           destruct (id - length (recorders s)) as [|n]; cbn in Hi;
             simplify_eq; discriminate.
      * intros Hi Hst.
        destruct (decide (id < length (recorders s))) as [Hlt|Hge].
        -- rewrite lookup_app_l in Hi by exact Hlt.
           rewrite (Hnone id rc Hi) in Hst. discriminate.
        -- assert (id = length (recorders s)) as ->.
           { apply lookup_lt_Some in Hi. rewrite length_app in Hi. cbn in Hi. lia. }
           split; reflexivity.
    + intros id rc; cbn. intros Hi Hst.
      rewrite (Hnone id rc Hi) in Hst. discriminate.
Qed.

Lemma singleRecorder_frame s s' :
  recorders s' = recorders s ->
  mediaRecorderRef s' = mediaRecorderRef s ->
  isRecording s' = isRecording s ->
  singleRecorder s -> singleRecorder s'.
Proof. unfold singleRecorder. intros -> -> ->. auto. Qed.

Lemma capture_fields_processRecording_response r resp s :
  recorders (processRecording_response r resp s) = recorders s
  /\ mediaRecorderRef (processRecording_response r resp s) = mediaRecorderRef s
  /\ isRecording (processRecording_response r resp s) = isRecording s.
Proof. unfold_processing. repeat case_match; repeat split. Qed.

Lemma capture_fields_shell j ph p resp r response s :
  (recorders (setJob j ph s) = recorders s
   /\ mediaRecorderRef (setJob j ph s) = mediaRecorderRef s
   /\ isRecording (setJob j ph s) = isRecording s)
  /\ (recorders (settle j p s) = recorders s
      /\ mediaRecorderRef (settle j p s) = mediaRecorderRef s
      /\ isRecording (settle j p s) = isRecording s)
  /\ (recorders (onChat j resp s) = recorders s
      /\ mediaRecorderRef (onChat j resp s) = mediaRecorderRef s
      /\ isRecording (onChat j resp s) = isRecording s)
  /\ (recorders (onTyping j r response s) = recorders s
      /\ mediaRecorderRef (onTyping j r response s) = mediaRecorderRef s
      /\ isRecording (onTyping j r response s) = isRecording s).
Proof. unfold_shell. repeat split; repeat case_match; reflexivity. Qed.

Lemma singleRecorder_step e s s' :
  step isTypeSupported e s = Some s' ->
  autoListenTimeout s = None ->
  singleRecorder s -> singleRecorder s'.
Proof.
  intros Hstep Hnone H. destruct e; cbn [step] in Hstep.
  - simplify_eq. exact H.
  - simplify_eq. exact H.
  - simplify_eq. apply singleRecorder_handleVoiceRecord. exact H.
  - repeat case_match; simplify_eq.
    unfold ondataavailable. case_match; exact H.
  - destruct (recorders s !! id) as [rc|] eqn:Hrc; [|discriminate].
    destruct (rec_stopQueued rc); [|discriminate]. simplify_eq.
    eapply singleRecorder_frame;
      [apply recorders_processRecording
      |apply mediaRecorderRef_processRecording
      |apply isRecording_processRecording|].
    intros id' rc'. cbn.
    destruct (decide (id = id')) as [->|Hne].
    + rewrite list_lookup_insert_eq by (eapply lookup_lt_Some; eauto).
      intros E Hst. simplify_eq. cbn in Hst. exact (H id' rc Hrc Hst).
    + rewrite list_lookup_insert_ne by exact Hne. apply H.
  - case_match; simplify_eq. unfold onRecordingTimer.
    case_match; [|exact H].
    intros id' rc' Hi Hst. exfalso. cbn in Hi.
    assert (Hpre : forall i x, recorders s !! i = Some x ->
                               rec_state x = recording ->
                               mediaRecorderRef s = Some i).
    { intros i x Hx Hs. exact (proj1 (H i x Hx Hs)). }
    pose proof (stopRecording_none_recording _ Hpre id' rc' Hi). congruence.
  - case_match; simplify_eq.
    match goal with
    | |- singleRecorder (processRecording_response ?r ?resp ?s0) =>
        destruct (capture_fields_processRecording_response r resp s0)
          as (E1 & E2 & E3)
    end.
    eapply singleRecorder_frame; [exact E1 | exact E2 | exact E3 | exact H].
  - rewrite Hnone in Hstep. discriminate.
  - repeat case_match; simplify_eq.
    destruct (capture_fields_shell j Finished (Speech.Done Resolved) resp
                (render s) "" s) as (_ & _ & (E1 & E2 & E3) & _).
    eapply singleRecorder_frame; [exact E1 | exact E2 | exact E3 | exact H].
  - repeat case_match; simplify_eq;
      match goal with
      | |- singleRecorder (onTyping _ ?r ?resp ?s0) =>
          destruct (capture_fields_shell j Finished (Speech.Done Resolved)
                      ChatFails r resp s0) as (_ & _ & _ & (E1 & E2 & E3))
      end;
      (eapply singleRecorder_frame; [exact E1 | exact E2 | exact E3 | exact H]).
  - repeat case_match; simplify_eq;
      match goal with
      | |- singleRecorder (settle _ ?p ?s0) =>
          destruct (capture_fields_shell j Finished p ChatFails (render s) "" s0)
            as (_ & (E1 & E2 & E3) & _)
      end;
      (eapply singleRecorder_frame; [exact E1 | exact E2 | exact E3 | exact H]).
  - repeat case_match; simplify_eq;
      match goal with
      | |- singleRecorder (settle _ ?p ?s0) =>
          destruct (capture_fields_shell j Finished p ChatFails (render s) "" s0)
            as (_ & (E1 & E2 & E3) & _)
      end;
      (eapply singleRecorder_frame; [exact E1 | exact E2 | exact E3 | exact H]).
Qed.

Lemma singleRecorder_run tr : forall s s',
  Forall (fun e => e <> EvToggleAuto) tr ->
  run isTypeSupported tr s = Some s' ->
  autoListenNeverOn s -> singleRecorder s ->
  autoListenNeverOn s' /\ singleRecorder s'.
Proof.
  induction tr as [|e tr IH]; intros s s' Hall H Hoff Hone; cbn [run] in H.
  - simplify_eq. split; assumption.
  - destruct (step isTypeSupported e s) as [s1|] eqn:Hstep; [|discriminate].
    inversion Hall as [|? ? He Htr]; subst.
    eapply IH; [exact Htr | exact H | |].
    + eapply autoListenNeverOn_step; eassumption.
    + eapply singleRecorder_step; [exact Hstep | apply Hoff | exact Hone].
Qed.

End SingleRecorder.

(** X3. As long as the user has not touched the auto-listen toggle, at
    most one recorder is capturing at any point of any run, whatever is
    clicked and whatever the browser and the network answer; in such runs
    no automatic re-arm happens and none is pending. *)
Theorem X3_one_recorder_while_auto_listen_never_on
        (isTypeSupported : string -> bool) (tr : list Event)
        (stream : bool) (sid : option string) (s : State) :
  Forall (fun e => e <> EvToggleAuto) tr ->
  run isTypeSupported tr (initial stream sid) = Some s ->
  recordingCount s <= 1
  /\ singleRecorder s
  /\ rearmTimes s = []
  /\ autoListenTimeout s = None.
Proof.
  intros Hall Hrun.
  destruct (singleRecorder_run isTypeSupported tr (initial stream sid) s Hall Hrun)
    as [(_ & Hnone & Hre & _) Hone].
  - apply autoListenNeverOn_initial.
  - intros id rc Hi. cbn in Hi. discriminate.
  - split; [apply singleRecorder_count; exact Hone|].
    split; [exact Hone|]. split; assumption.
Qed.

Lemma X3_one_recorder_witness :
  recordingCount Scenario.atTheCap <= 1.
Proof.
  refine (proj1 (X3_one_recorder_while_auto_listen_never_on
                   Scenario.webmRuntime Scenario.sixtyTicks true Scenario.session
                   Scenario.atTheCap _ _)).
  - unfold Scenario.sixtyTicks. constructor; [discriminate|].
    apply List.Forall_forall. intros e He. apply repeat_spec in He. subst.
    discriminate.
  - vm_compute. reflexivity.
Defined.

(** ** The cap and a recorder that is no longer current *)

Section Orphan.
Variable isTypeSupported : string -> bool.

Lemma orphaned_frame id s s' :
  recorders s' = recorders s -> mediaRecorderRef s' = mediaRecorderRef s ->
  orphaned id s -> orphaned id s'.
Proof. unfold orphaned. intros -> ->. auto. Qed.

Lemma orphaned_stopRecording id s :
  orphaned id s -> orphaned id (stopRecording s).
Proof.
  intros [(rc & Hi & Hst) Hne]. unfold orphaned.
  rewrite recorders_stopRecording, mediaRecorderRef_stopRecording.
  split; [|exact Hne].
  destruct (mediaRecorderRef s) as [k|]; [|eauto].
  destruct (recorders s !! k) as [rck|]; [|eauto].
  destruct (isRecordingState (rec_state rck)); [|eauto].
  exists rc. split; [|exact Hst].
  rewrite list_lookup_insert_ne by congruence. exact Hi.
Qed.

Lemma orphaned_handleVoiceRecord id r o s :
  orphaned id s -> orphaned id (handleVoiceRecord isTypeSupported r o s).
Proof.
  intros H. unfold handleVoiceRecord.
  destruct (negb (truthy (r_sessionId r))); [exact H|].
  destruct (r_isRecording r).
  - apply orphaned_stopRecording. exact H.
  - destruct H as [(rc & Hi & Hst) Hne].
    pose proof (lookup_lt_Some _ _ _ Hi) as Hlt.
    unfold startRecording.
    cbn [streamRef set_voiceError set_recordingTime set_isRecording].
    destruct (streamRef s); cbn [negb].
    + destruct o; cbn [negb]; unfold orphaned; cbn.
      * split; [eauto | exact Hne].
      * split; [|intros E; simplify_eq; lia].
        exists rc. split; [|exact Hst]. rewrite lookup_app_l by exact Hlt. exact Hi.
      * split; [|intros E; simplify_eq; lia].
        exists rc. split; [|exact Hst]. rewrite lookup_app_l by exact Hlt. exact Hi.
    + unfold orphaned; cbn. split; [eauto | exact Hne].
Qed.

Lemma orphaned_step id e s s' :
  step isTypeSupported e s = Some s' -> orphaned id s -> orphaned id s'.
Proof.
  intros Hstep H. destruct e; cbn [step] in Hstep.
  - simplify_eq. exact H.
  - simplify_eq. exact H.
  - simplify_eq. apply orphaned_handleVoiceRecord. exact H.
  - repeat case_match; simplify_eq.
    unfold ondataavailable. case_match; exact H.
  - destruct (recorders s !! id0) as [rc|] eqn:Hrc; [|discriminate].
    destruct (rec_stopQueued rc); [|discriminate]. simplify_eq.
    eapply orphaned_frame;
      [apply recorders_processRecording
      |apply mediaRecorderRef_processRecording|].
    destruct H as [(rco & Hi & Hst) Hne]. split; [|exact Hne]. cbn.
    destruct (decide (id0 = id)) as [->|Hd].
    + rewrite list_lookup_insert_eq by (eapply lookup_lt_Some; eauto).
      simplify_eq. eexists. split; [reflexivity|]. exact Hst.
    + rewrite list_lookup_insert_ne by exact Hd. eauto.
  - case_match; simplify_eq. unfold onRecordingTimer.
    case_match; [|exact H].
    eapply orphaned_frame; [reflexivity|reflexivity|].
    apply orphaned_stopRecording. exact H.
  - case_match; simplify_eq.
    match goal with
    | |- orphaned _ (processRecording_response ?r ?resp ?s0) =>
        destruct (capture_fields_processRecording_response r resp s0)
          as (E1 & E2 & E3)
    end.
    eapply orphaned_frame; [exact E1 | exact E2 | exact H].
  - destruct (autoListenTimeout s) as [[due r]|]; [|discriminate].
    destruct (due <=? now s)%nat; [|discriminate]. simplify_eq.
    unfold onAutoListenTimeout. case_match; [|exact H].
    apply orphaned_handleVoiceRecord. exact H.
  - repeat case_match; simplify_eq.
    destruct (capture_fields_shell j Finished (Speech.Done Resolved) resp
                (render s) "" s) as (_ & _ & (E1 & E2 & E3) & _).
    eapply orphaned_frame; [exact E1 | exact E2 | exact H].
  - repeat case_match; simplify_eq;
      match goal with
      | |- orphaned _ (onTyping _ ?r ?resp ?s0) =>
          destruct (capture_fields_shell j Finished (Speech.Done Resolved)
                      ChatFails r resp s0) as (_ & _ & _ & (E1 & E2 & E3))
      end;
      (eapply orphaned_frame; [exact E1 | exact E2 | exact H]).
  - repeat case_match; simplify_eq;
      match goal with
      | |- orphaned _ (settle _ ?p ?s0) =>
          destruct (capture_fields_shell j Finished p ChatFails (render s) "" s0)
            as (_ & (E1 & E2 & E3) & _)
      end;
      (eapply orphaned_frame; [exact E1 | exact E2 | exact H]).
  - repeat case_match; simplify_eq;
      match goal with
      | |- orphaned _ (settle _ ?p ?s0) =>
          destruct (capture_fields_shell j Finished p ChatFails (render s) "" s0)
            as (_ & (E1 & E2 & E3) & _)
      end;
      (eapply orphaned_frame; [exact E1 | exact E2 | exact H]).
Qed.

Lemma orphaned_run id tr : forall s s',
  run isTypeSupported tr s = Some s' -> orphaned id s -> orphaned id s'.
Proof.
  induction tr as [|e tr IH]; intros s s' Hrun H; cbn [run] in Hrun.
  - simplify_eq. exact H.
  - destruct (step isTypeSupported e s) as [s1|] eqn:Hstep; [|discriminate].
    exact (IH _ _ Hrun (orphaned_step _ _ _ _ Hstep H)).
Qed.

End Orphan.

(** C7, at the failing runs.  The cap calls [stopRecording], which acts
    on the recorder [mediaRecorderRef] points to and on the interval of
    [recordingTimerRef], and does not lower the recording flag.  In the
    first run, one capture that nobody stops, the tick at 60 stops the
    recorder and leaves the recording flag up.  In the second, the run of
    C9 has left two recorders capturing; when the counter is at 60 the
    tick stops the newer one; the older one, started by hand, is still
    capturing, and stays so in every continuation of the run: no click, no
    tick and no timeout of the mounted component stops it. *)
Theorem C7_cap_misses_the_older_recorder :
  (exists s,
      run Scenario.webmRuntime (Scenario.sixtyTicks ++ [EvInterval 0])
          Scenario.idle = Some s
      /\ recordingTime s = 60 /\ recordingCount s = 0
      /\ isRecording s = true)
  /\ exists s s',
      run Scenario.webmRuntime Scenario.twoRecordersToTheCap Scenario.idle = Some s
      /\ recordingTime s = 60
      /\ map rec_state (recorders s) = [inactive; recording; recording]
      /\ step Scenario.webmRuntime (EvInterval 2) s = Some s'
      /\ recordingTime s' = 60
      /\ map rec_state (recorders s') = [inactive; recording; inactive]
      /\ intervals s' = [1]
      /\ forall isTypeSupported tr s'',
           run isTypeSupported tr s' = Some s'' ->
           exists rc, recorders s'' !! 1 = Some rc /\ rec_state rc = recording.
Proof.
  split.
  { eexists. split; [vm_compute; reflexivity|]. repeat split. }
  eexists. eexists. split; [vm_compute; reflexivity|].
  split; [reflexivity|]. split; [reflexivity|].
  split; [vm_compute; reflexivity|].
  split; [reflexivity|]. split; [reflexivity|]. split; [reflexivity|].
  intros sup tr s'' Hrun.
  refine (proj1 (orphaned_run sup 1 tr _ s'' Hrun _)).
  split; [eexists; split; reflexivity | discriminate].
Qed.

(** ** Mount, microphone permission and unmount *)

Import Lifecycle.

Section Mounting.

Variable isTypeSupported : string -> bool.

Lemma untouched_step e s s' :
  step isTypeSupported e s = Some s' -> untouched s -> untouched s'.
Proof.
  intros Hstep (Hstream & Hrec & Hrcs & Hint & Hup & Hjobs & Htimer & Hlog).
  destruct e; cbn [step] in Hstep;
    rewrite ?Hrcs, ?Hint, ?Hup, ?Hjobs, ?Htimer in Hstep;
    cbn in Hstep; try discriminate; simplify_eq.
  - unfold untouched. cbn. auto 10.
  - unfold untouched. cbn. auto 10.
  - unfold handleVoiceRecord, render, startRecording.
    cbn [r_sessionId r_isRecording]. rewrite Hrec.
    destruct (negb (truthy (sessionId s))); [unfold untouched; cbn; auto 10|].
    cbn [streamRef set_voiceError set_recordingTime set_isRecording].
    rewrite Hstream. cbn [negb]. unfold untouched. cbn. auto 10.
Qed.

Lemma untouched_run tr : forall s s',
  run isTypeSupported tr s = Some s' -> untouched s -> untouched s'.
Proof.
  induction tr as [|e tr IH]; intros s s' H Hinv; cbn [run] in H.
  - simplify_eq. exact Hinv.
  - destruct (step isTypeSupported e s) as [s1|] eqn:Hstep; [|discriminate].
    eapply IH; [exact H|]. eapply untouched_step; eassumption.
Qed.

Lemma sessionId_stopRecording s : sessionId (stopRecording s) = sessionId s.
Proof.
  unfold stopRecording.
  destruct (mediaRecorderRef s) as [id|];
    [destruct (recorders s !! id) as [rc|];
     [destruct (isRecordingState (rec_state rc))|]|];
    cbn [recordingTimerRef set_recorders];
    destruct (recordingTimerRef s); reflexivity.
Qed.

Lemma sessionId_handleVoiceRecord r o s :
  sessionId (handleVoiceRecord isTypeSupported r o s) = sessionId s.
Proof.
  unfold handleVoiceRecord, startRecording.
  destruct (negb (truthy (r_sessionId r))); [reflexivity|].
  destruct (r_isRecording r); [rewrite sessionId_stopRecording; reflexivity|].
  cbn [streamRef set_voiceError set_recordingTime set_isRecording].
  destruct (streamRef s); cbn [negb]; [destruct o|]; reflexivity.
Qed.

Lemma sessionId_step e s s' :
  step isTypeSupported e s = Some s' -> sessionId s' = sessionId s.
Proof.
  destruct e; cbn [step]; intros H; repeat case_match; simplify_eq;
    rewrite ?sessionId_handleVoiceRecord; try reflexivity.
  all: try (unfold ondataavailable; case_match; reflexivity).
  all: try (unfold onRecordingTimer; case_match; cbn;
            rewrite ?sessionId_stopRecording; reflexivity).
  all: try (unfold onAutoListenTimeout; case_match;
            rewrite ?sessionId_handleVoiceRecord; reflexivity).
  all: try (unfold_processing; repeat case_match; reflexivity).
  all: unfold_shell; repeat case_match; reflexivity.
Qed.

Lemma sessionId_run tr : forall s s',
  run isTypeSupported tr s = Some s' -> sessionId s' = sessionId s.
Proof.
  induction tr as [|e tr IH]; intros s s' H; cbn [run] in H.
  - simplify_eq. reflexivity.
  - destruct (step isTypeSupported e s) as [s1|] eqn:Hstep; [|discriminate].
    rewrite (IH _ _ H). eapply sessionId_step. exact Hstep.
Qed.

End Mounting.

(** X4. When both microphone requests are denied, the denial is shown, and
    from then on no run creates a recorder, starts a timer, sends anything
    to the transcription endpoint, hands anything to the conversation or
    raises the recording flag; every click on the microphone only replaces
    the error text by "Microphone not available". *)
Theorem X4_denied_microphone_records_nothing
        (isTypeSupported : string -> bool) (o : InitOracle) (m1 m2 : string)
        (sid : option string) (tr : list Event) (s : State) :
  truthy sid = true ->
  ideal o = Denied m1 ->
  fallback o = Denied m2 ->
  run isTypeSupported tr (mount o sid) = Some s ->
  voiceError (mount o sid)
  = Some (String.append "Microphone access denied: "
            (String.append m2 ". Please enable microphone permissions."))
  /\ untouched s
  /\ recordingCount s = 0
  /\ transcribeCalls s = []
  /\ voiceMessages s = []
  /\ forall click s',
      step isTypeSupported (EvClick click) s = Some s' ->
      voiceError s' = Some "Microphone not available"
      /\ isRecording s' = false.
Proof.
  intros Hsid Hideal Hfall Hrun.
  assert (Hmount : mount o sid
                   = set_voiceError
                       (Some (String.append "Microphone access denied: "
                                (String.append m2
                                   ". Please enable microphone permissions.")))
                       (initial false sid)).
  { unfold mount, initializeMediaRecorder. rewrite Hsid, Hideal, Hfall.
    reflexivity. }
  split; [rewrite Hmount; reflexivity|].
  assert (Hun : untouched s).
  { eapply untouched_run; [exact Hrun|]. rewrite Hmount.
    unfold untouched. cbn. auto 10. }
  assert (Hsess : sessionId s = sid).
  { rewrite (sessionId_run isTypeSupported tr _ _ Hrun), Hmount. reflexivity. }
  split; [exact Hun|].
  destruct Hun as (Hstream & Hrec & Hrcs & _ & _ & _ & _ & Hlog).
  split; [unfold recordingCount; rewrite Hrcs; reflexivity|].
  split; [unfold transcribeCalls; rewrite Hlog; reflexivity|].
  split; [unfold voiceMessages; rewrite Hlog; reflexivity|].
  intros click s' Hstep. cbn [step] in Hstep. injection Hstep as <-.
  unfold handleVoiceRecord, render, startRecording.
  cbn [r_sessionId r_isRecording]. rewrite Hrec, Hsess, Hsid. cbn [negb].
  cbn [streamRef set_voiceError set_recordingTime set_isRecording].
  rewrite Hstream. split; reflexivity.
Qed.

Lemma X4_denied_microphone_witness :
  exists s,
    run Scenario.webmRuntime [EvClick Starts; EvAdvance 1000; EvClick Starts]
        (mount (mkInit (Denied "Permission denied") (Denied "Permission denied")
                       false) Scenario.session) = Some s
    /\ recordingCount s = 0
    /\ voiceError s = Some "Microphone not available".
Proof.
  eexists. split; [vm_compute; reflexivity|].
  destruct (X4_denied_microphone_records_nothing
              Scenario.webmRuntime
              (mkInit (Denied "Permission denied") (Denied "Permission denied") false)
              "Permission denied" "Permission denied" Scenario.session
              [EvClick Starts; EvAdvance 1000]
              _ eq_refl eq_refl eq_refl ltac:(vm_compute; reflexivity))
    as (_ & _ & _ & _ & _ & Hclick).
  split; [reflexivity|].
  exact (proj1 (Hclick Starts _ ltac:(vm_compute; reflexivity))).
Defined.

(** X5. A granted microphone is usable whichever request was granted: when
    the first request or the retry yields a stream, the mounted component
    is in the state [initial true] (with the warning text instead of no
    error when the test recorder threw), and the first click on the
    microphone starts a recording and clears the text. *)
Theorem X5_granted_microphone_starts_on_first_click
        (isTypeSupported : string -> bool) (o : InitOracle)
        (sid : option string) :
  truthy sid = true ->
  ideal o = Granted \/ fallback o = Granted ->
  mount o sid
  = (if recorderTestThrows o
     then set_voiceError
            (Some "Your browser may not fully support audio recording. Results may vary.")
            (initial true sid)
     else initial true sid)
  /\ exists s1,
      step isTypeSupported (EvClick Starts) (mount o sid) = Some s1
      /\ isRecording s1 = true
      /\ recordingCount s1 = 1
      /\ voiceError s1 = None.
Proof.
  intros Hsid Hgrant.
  assert (Hmount : mount o sid = afterStream (recorderTestThrows o) (initial false sid)).
  { unfold mount, initializeMediaRecorder. rewrite Hsid.
    destruct (ideal o); [reflexivity|].
    destruct (fallback o); [reflexivity|]. destruct Hgrant; discriminate. }
  rewrite Hmount. unfold afterStream.
  split; [destruct (recorderTestThrows o); reflexivity|].
  eexists. split; [reflexivity|].
  unfold handleVoiceRecord, render, startRecording.
  destruct (recorderTestThrows o); cbn [r_sessionId r_isRecording sessionId
    isRecording initial set_voiceError set_streamRef];
    rewrite Hsid; cbn; repeat split.
Qed.

Lemma X5_granted_on_retry_witness :
  exists s1,
    step Scenario.webmRuntime (EvClick Starts)
         (mount (mkInit (Denied "OverconstrainedError") Granted true)
                Scenario.session) = Some s1
    /\ isRecording s1 = true
    /\ recordingCount s1 = 1.
Proof.
  destruct (X5_granted_microphone_starts_on_first_click
              Scenario.webmRuntime
              (mkInit (Denied "OverconstrainedError") Granted true)
              Scenario.session eq_refl (or_intror eq_refl))
    as (_ & s1 & Hstep & Hflag & Hcount & _).
  exists s1. split; [exact Hstep|]. split; [exact Hflag | exact Hcount].
Defined.

Lemma filter_twice {A} (P : A -> bool) (l : list A) :
  List.filter P (List.filter P l) = List.filter P l.
Proof.
  induction l as [|a l IH]; [reflexivity|]. cbn [List.filter].
  destruct (P a) eqn:Pa; [cbn [List.filter]; rewrite Pa, IH; reflexivity|exact IH].
Qed.

Lemma endTracks_twice rc : endTracks (endTracks rc) = endTracks rc.
Proof. unfold endTracks. destruct rc as [[|] m q h]; reflexivity. Qed.

Lemma endTracks_not_recording l :
  List.filter (fun rc => isRecordingState (rec_state rc)) (map endTracks l) = [].
Proof.
  induction l as [|rc l IH]; [reflexivity|].
  cbn [map List.filter].
  destruct rc as [[|] m q h]; cbn; exact IH.
Qed.

Lemma cleanup_fields s :
  recorders (cleanup s)
  = (if streamRef s then map endTracks (recorders s) else recorders s)
  /\ intervals (cleanup s)
     = match recordingTimerRef s with
       | Some t => List.filter (fun i => negb (i =? t)%nat) (intervals s)
       | None => intervals s
       end
  /\ autoListenTimeout (cleanup s) = None
  /\ uploads (cleanup s) = uploads s
  /\ isRecording (cleanup s) = isRecording s
  /\ now (cleanup s) = now s /\ log (cleanup s) = log s
  /\ streamRef (cleanup s) = streamRef s
  /\ recordingTimerRef (cleanup s) = recordingTimerRef s.
Proof.
  unfold cleanup.
  destruct (streamRef s) eqn:Hs; destruct (recordingTimerRef s) eqn:Ht;
    cbn; rewrite ?Hs, ?Ht; repeat split; cbn; assumption.
Qed.

(** X6. Unmount.  [cleanup] can be run again without further effect; after
    it the auto-listen timeout cannot fire and the interval of the current
    capture cannot tick.  It ends the tracks of the stream, so with a
    stream no recorder is left capturing: each one that was capturing is
    inactive with its stop event pending, and that event can still be
    delivered, which runs [processRecording] after the unmount; a recorder
    that was inactive is as before.  No request is abandoned: the uploads
    in flight are as before.  The recording flag is not touched. *)
Theorem X6_cleanup_ends_captures_and_timers
        (isTypeSupported : string -> bool) (s : State) :
  cleanup (cleanup s) = cleanup s
  /\ (forall o, step isTypeSupported (EvAutoListen o) (cleanup s) = None)
  /\ (forall t, recordingTimerRef s = Some t ->
                step isTypeSupported (EvInterval t) (cleanup s) = None)
  /\ uploads (cleanup s) = uploads s
  /\ isRecording (cleanup s) = isRecording s
  /\ (streamRef s = true ->
      recordingCount (cleanup s) = 0
      /\ (forall id rc,
             recorders s !! id = Some rc -> rec_state rc = recording ->
             recorders (cleanup s) !! id
             = Some (mkRecorder inactive (rec_mimeType rc) true (rec_handlers rc))
             /\ exists s', step isTypeSupported (EvStop id) (cleanup s) = Some s')
      /\ (forall id rc,
             recorders s !! id = Some rc -> rec_state rc = inactive ->
             recorders (cleanup s) !! id = Some rc)).
Proof.
  destruct (cleanup_fields s)
    as (Hrec & Hint & Hauto & Hup & Hflag & _ & _ & Hstream & Htimer).
  split.
  { destruct s as [a b c d e f g h st rcs ints ni alt ups sid ve il jbs nw lg].
    unfold cleanup. cbn.
    destruct st, h as [t|]; cbn; rewrite ?filter_twice, ?map_map;
      try reflexivity;
      (erewrite map_ext; [reflexivity | intros; apply endTracks_twice]). }
  split.
  { intros o. cbn [step]. rewrite Hauto. reflexivity. }
  split.
  { intros t Ht. cbn [step]. rewrite Hint, Ht.
    destruct (existsb (Nat.eqb t) _) eqn:Hex; [|reflexivity].
    apply existsb_exists in Hex. destruct Hex as (x & Hin & Heq).
    apply Nat.eqb_eq in Heq. subst x.
    exfalso. exact (not_in_filter_self t _ Hin). }
  split; [exact Hup|]. split; [exact Hflag|].
  intros Hs. rewrite Hs in Hrec. split.
  { unfold recordingCount. rewrite Hrec, endTracks_not_recording. reflexivity. }
  split.
  - intros id rc Hid Hst.
    assert (Hl : recorders (cleanup s) !! id
                 = Some (mkRecorder inactive (rec_mimeType rc) true (rec_handlers rc))).
    { rewrite Hrec, list_lookup_fmap, Hid. cbn. unfold endTracks. rewrite Hst.
      reflexivity. }
    split; [exact Hl|]. cbn [step]. rewrite Hl. cbn [rec_stopQueued].
    eexists. reflexivity.
  - intros id rc Hid Hst.
    rewrite Hrec, list_lookup_fmap, Hid. cbn. unfold endTracks. rewrite Hst.
    reflexivity.
Qed.

Lemma X6_cleanup_witness :
  step Scenario.webmRuntime (EvInterval 0) (cleanup Scenario.atTheCap) = None
  /\ recordingCount Scenario.atTheCap = 1
  /\ recordingCount (cleanup Scenario.atTheCap) = 0
  /\ exists s',
      step Scenario.webmRuntime (EvStop 0) (cleanup Scenario.atTheCap) = Some s'.
Proof.
  destruct (X6_cleanup_ends_captures_and_timers
              Scenario.webmRuntime Scenario.atTheCap)
    as (_ & _ & Hint & _ & _ & Hstream).
  destruct (Hstream eq_refl) as (Hcount & Hstop & _).
  split; [apply Hint; vm_compute; reflexivity|].
  split; [vm_compute; reflexivity|].
  split; [exact Hcount|].
  edestruct (Hstop 0) as [_ H];
    [vm_compute; reflexivity | reflexivity | exact H].
Defined.

(** ** Every answer of the transcription endpoint *)

(** Blank for [trim]: a no-break space (U+00A0), a line separator
    (U+2028) and a byte order mark (U+FEFF) between ASCII spaces; not
    blank: a zero width space (U+200B), which [trim] keeps. *)
Lemma trimTruthy_unicode :
  trimTruthy (String (ascii_of_nat 32)
               (String (ascii_of_nat 194) (String (ascii_of_nat 160)
               (String (ascii_of_nat 226) (String (ascii_of_nat 128)
               (String (ascii_of_nat 168)
               (String (ascii_of_nat 239) (String (ascii_of_nat 187)
               (String (ascii_of_nat 191) (String (ascii_of_nat 9) ""))))))))))
  = false
  /\ trimTruthy (String (ascii_of_nat 226) (String (ascii_of_nat 128)
                 (String (ascii_of_nat 139) ""))) = true.
Proof. split; reflexivity. Qed.

Lemma trimTruthy_nonempty t : trimTruthy t = true -> truthy (Some t) = true.
Proof. destruct t; [discriminate | reflexivity]. Qed.

Lemma log_processRecording_response r resp s :
  log (processRecording_response r resp s)
  = log s
    ++ [ (now s, ObsVoiceMessage
                   match resp with
                   | TranscribeJson t =>
                       if trimTruthy t then mkResult t false
                       else mkResult listeningFallback true
                   | _ => mkResult errorFallback true
                   end);
         (now s, ObsProcessed) ].
Proof.
  unfold processRecording_response.
  destruct resp as [m|st tx|m|t];
    try (rewrite log_processRecording_finally, log_processRecording_catch,
           now_processRecording_catch, <- app_assoc; reflexivity).
  destruct (trimTruthy t) eqn:Ht.
  - rewrite (trimTruthy_nonempty t Ht). cbn [andb].
    rewrite log_processRecording_finally. cbn [log now set_voiceError].
    rewrite log_onVoiceMessage, now_onVoiceMessage, <- app_assoc. reflexivity.
  - rewrite andb_false_r.
    rewrite log_processRecording_finally. cbn [log now set_voiceError].
    rewrite log_onVoiceMessage, now_onVoiceMessage, <- app_assoc. reflexivity.
Qed.

(** X7. Whatever the transcription endpoint answers, exactly one message
    reaches the conversation: the transcription itself when [trim] leaves
    something of it (it has a character that is neither white space nor a
    line terminator, the Unicode ones included), the listening fallback
    when [trim] leaves nothing, and the error fallback when the request
    failed (network, HTTP status or invalid JSON).  Nothing is sent again, the processing flag is
    cleared, the clock is reset and the chunk list is emptied. *)
Theorem X7_every_answer_yields_one_message
        (r : Render) (resp : TranscribeResponse) (s : State) :
  voiceMessages (processRecording_response r resp s)
  = voiceMessages s
    ++ [ match resp with
         | TranscribeJson t =>
             if trimTruthy t then mkResult t false
             else mkResult listeningFallback true
         | _ => mkResult errorFallback true
         end ]
  /\ transcribeCalls (processRecording_response r resp s) = transcribeCalls s
  /\ uploads (processRecording_response r resp s) = uploads s
  /\ isProcessing (processRecording_response r resp s) = false
  /\ recordingTime (processRecording_response r resp s) = 0
  /\ audioChunksRef (processRecording_response r resp s) = [].
Proof.
  unfold voiceMessages, transcribeCalls.
  rewrite log_processRecording_response, !flat_map_app.
  cbn [flat_map app]. rewrite app_nil_r.
  split; [reflexivity|]. split; [reflexivity|].
  split; [apply uploads_processRecording_response|].
  unfold_processing. repeat case_match; repeat split.
Qed.

(** X8. Unmounting does not abandon a transcription in flight: when its
    answer arrives after [cleanup], a message is still handed to the
    conversation, and if the capture was started with auto-listen on, a new
    auto-listen timeout is set, due 3000 ms later. *)
Theorem X8_answer_after_cleanup_rearms_the_timer
        (isTypeSupported : string -> bool) (s : State) (i : nat) (u : Upload)
        (resp : TranscribeResponse) :
  uploads s !! i = Some u ->
  r_autoMode (up_render u) = true ->
  exists s',
    step isTypeSupported (EvTranscribed i resp) (cleanup s) = Some s'
    /\ autoListenTimeout (cleanup s) = None
    /\ autoListenTimeout s' = Some (now s + 3000, up_render u)
    /\ length (voiceMessages s') = S (length (voiceMessages s)).
Proof.
  intros Hu Hauto.
  assert (Hup : uploads (cleanup s) = uploads s
                /\ now (cleanup s) = now s /\ log (cleanup s) = log s
                /\ autoListenTimeout (cleanup s) = None).
  { destruct (cleanup_fields s) as (_ & _ & Ha & Hu' & _ & Hn & Hl & _).
    repeat split; assumption. }
  destruct Hup as (Hup & Hnow & Hlog & Hnone).
  cbn [step]. rewrite Hup, Hu. eexists. split; [reflexivity|].
  split; [exact Hnone|]. split.
  - match goal with
    | |- autoListenTimeout (processRecording_response ?r0 ?resp0 ?s0) = _ =>
        destruct (processRecording_response_effect r0 resp0 s0) as (_ & _ & E)
    end.
    rewrite E, Hauto. cbn [now set_uploads]. rewrite Hnow. reflexivity.
  - match goal with
    | |- context [processRecording_response ?r0 ?resp0 ?s0] =>
        pose proof (log_processRecording_response r0 resp0 s0) as E
    end.
    unfold voiceMessages. rewrite E, flat_map_app, length_app.
    cbn [flat_map app length log set_uploads]. rewrite Hlog. lia.
Qed.

Lemma X8_answer_after_cleanup_witness :
  exists s',
    step Scenario.webmRuntime (EvTranscribed 0 (TranscribeJson "hello"))
         (cleanup (set_uploads
                     [mkUpload (newBlob [Scenario.utterance] "audio/webm")
                               "recording.webm" "s1"
                               (mkRender false false true Scenario.session false true)]
                     Scenario.idle)) = Some s'
    /\ autoListenTimeout s'
       = Some (3000, mkRender false false true Scenario.session false true).
Proof.
  destruct (X8_answer_after_cleanup_rearms_the_timer
              Scenario.webmRuntime
              (set_uploads
                 [mkUpload (newBlob [Scenario.utterance] "audio/webm")
                           "recording.webm" "s1"
                           (mkRender false false true Scenario.session false true)]
                 Scenario.idle)
              0 _ (TranscribeJson "hello") eq_refl eq_refl)
    as (s' & Hstep & _ & Htimer & _).
  exists s'. split; [exact Hstep | exact Htimer].
Defined.

Lemma X10_rearm_waits_witness :
  rearmTimes Scenario.afterRearmDuringSpeech = [4400]
  /\ exists tp, In tp (processedTimes Scenario.afterRearmDuringSpeech)
                /\ tp + 3000 <= 4400.
Proof.
  split; [vm_compute; reflexivity|].
  assert (Hrun : run Scenario.webmRuntime Scenario.rearmDuringSpeech
                     (initial true Scenario.session)
                 = Some Scenario.afterRearmDuringSpeech)
    by (vm_compute; reflexivity).
  destruct (rearm_waits_for_processing
              Scenario.webmRuntime Scenario.rearmDuringSpeech true
              Scenario.session Scenario.afterRearmDuringSpeech Hrun)
    as (Hre & _).
  apply Hre. vm_compute. left. reflexivity.
Defined.

(** ** When speaking resolves *)

(** X9. The promise of [synthesizeAndPlayVoice] resolves in exactly these
    cases: voice is disabled or there is no session; the synthesis request
    fails, answers with a status that is not ok, with a body that is not
    JSON or with no audio; or the audio decodes and plays to its end.  In
    every other case, that is when audio was returned and it does not
    decode or does not play to its end, the promise is rejected. *)
Theorem X9_speak_resolves_exactly_when
        (voiceEnabled : bool) (sessionId : option string) (env : Speech.SpeakEnv) :
  Speech.synthesizeAndPlayVoice voiceEnabled sessionId env = Resolved
  <-> voiceEnabled = false
      \/ truthy sessionId = false
      \/ match Speech.env_synth env with
         | Speech.SynthHttp true (Speech.JsonVoice audio_data _) =>
             audio_data = ""
             \/ (Base64.atobAccepts audio_data = true
                 /\ Speech.env_playback env = Speech.PlaybackEnded)
         | _ => True
         end.
Proof.
  unfold Speech.synthesizeAndPlayVoice, Speech.synthesizeAndPlayVoice_start,
    Speech.synthesizeAndPlayVoice_response, Speech.playAudioFromBase64_start,
    Speech.playAudioFromBase64_finish.
  destruct voiceEnabled; cbn [negb orb]; [|split; auto].
  destruct (truthy sessionId); cbn [negb]; [|split; auto].
  destruct (Speech.env_synth env) as [|ok body];
    [split; auto|].
  destruct ok; [|split; auto].
  destruct body as [|audio_data audio_format]; [split; auto|].
  destruct (String.eqb_spec audio_data "") as [->|Hne]; cbn [negb];
    [split; auto|].
  destruct (Base64.atobAccepts audio_data).
  - destruct (Speech.env_playback env); split; auto;
      try discriminate;
      intros [H|[H|[H|[_ H]]]]; congruence.
  - split; [discriminate|].
    intros [H|[H|[H|[H _]]]]; congruence.
Qed.

(** ** The clock texts *)

Section Clock.

Import Display.

Lemma string_of_uint_digits d : allDigits (NilEmpty.string_of_uint d) = true.
Proof. induction d; cbn; auto. Qed.

Lemma toString_digits n : allDigits (toString n) = true.
Proof. apply string_of_uint_digits. Qed.

Lemma string_of_uint_inj d d' :
  NilEmpty.string_of_uint d = NilEmpty.string_of_uint d' -> d = d'.
Proof.
  intros H. apply (f_equal NilEmpty.uint_of_string) in H.
  rewrite !NilEmpty.usu in H. congruence.
Qed.

Lemma toString_inj a b : toString a = toString b -> a = b.
Proof.
  unfold toString. intros H. apply string_of_uint_inj in H.
  apply Unsigned.to_uint_inj in H. exact H.
Qed.

Lemma split_at_colon s1 : forall s2 t1 t2,
  allDigits s1 = true -> allDigits s2 = true ->
  String.append s1 (String ":" t1) = String.append s2 (String ":" t2) ->
  s1 = s2 /\ t1 = t2.
Proof.
  induction s1 as [|c s1 IH]; intros [|c' s2] t1 t2 H1 H2 H; cbn in *.
  - split; congruence.
  - injection H as <- _. cbn in H2. discriminate.
  - injection H as -> _. cbn in H1. discriminate.
  - injection H as <- H.
    apply andb_prop in H1 as [_ H1]. apply andb_prop in H2 as [_ H2].
    destruct (IH s2 t1 t2 H1 H2 H) as [-> ->]. split; reflexivity.
Qed.

Lemma padded_seconds_inj a b :
  a < 60 -> b < 60 ->
  padStart 2 "0" (toString a) = padStart 2 "0" (toString b) -> a = b.
Proof.
  intros Ha Hb H.
  assert (Hall : secondsDistinct = true) by (vm_compute; reflexivity).
  unfold secondsDistinct in Hall.
  rewrite List.forallb_forall in Hall.
  specialize (Hall a). rewrite List.in_seq in Hall.
  specialize (Hall ltac:(lia)).
  rewrite List.forallb_forall in Hall.
  specialize (Hall b). rewrite List.in_seq in Hall.
  specialize (Hall ltac:(lia)).
  rewrite H, String.eqb_refl in Hall. cbn in Hall.
  apply Nat.eqb_eq. exact Hall.
Qed.

Lemma formatTime_inj a b : formatTime a = formatTime b -> a = b.
Proof.
  unfold formatTime. intros H.
  apply split_at_colon in H; try apply toString_digits.
  destruct H as [Hm Hs].
  apply toString_inj in Hm.
  apply padded_seconds_inj in Hs; try (apply Nat.mod_upper_bound; lia).
  rewrite (Nat.div_mod_eq a 60), (Nat.div_mod_eq b 60). congruence.
Qed.

Lemma clock_up_to_sixty n :
  n <= 60 -> clockShape (formatTime n) = true.
Proof.
  intros Hn.
  assert (Hall : forallb (fun k => clockShape (formatTime k)) (seq 0 61) = true)
    by (vm_compute; reflexivity).
  rewrite List.forallb_forall in Hall. apply Hall. apply List.in_seq. lia.
Qed.

End Clock.

(** X11. The text of a clock determines the number of seconds it was made
    from: two different durations are never displayed alike, by
    [formatTime] of the recorder and by [formatSessionTime] of the shell,
    which is the same code. *)
Theorem X11_clock_text_determines_the_seconds (a b : nat) :
  Display.formatTime a = Display.formatTime b <-> a = b.
Proof.
  split; [apply formatTime_inj | intros ->; reflexivity].
Qed.

(** X12. In every state a mounted recorder can reach, the recording clock
    shows four characters: [1:00] at the cap and a text that starts with
    [0:] below it. *)
Theorem X12_recording_clock_stays_within_a_minute
        (isTypeSupported : string -> bool) (tr : list Event)
        (stream : bool) (sid : option string) (s : State) :
  run isTypeSupported tr (initial stream sid) = Some s ->
  String.length (Display.formatTime (recordingTime s)) = 4
  /\ (Display.formatTime (recordingTime s) = "1:00"
      \/ String.prefix "0:" (Display.formatTime (recordingTime s)) = true).
Proof.
  intros Hrun.
  assert (Hle : recordingTime s <= 60).
  { apply (recordingTime_run isTypeSupported tr (initial stream sid) s);
      [cbn; lia | exact Hrun]. }
  pose proof (clock_up_to_sixty _ Hle) as H. unfold Display.clockShape in H.
  apply andb_prop in H as [Hlen Hshape]. split.
  - apply Nat.eqb_eq. exact Hlen.
  - apply orb_prop in Hshape as [H|H];
      [left; apply String.eqb_eq; exact H | right; exact H].
Qed.

Lemma X12_clock_at_the_cap_witness :
  String.length (Display.formatTime (recordingTime Scenario.atTheCap)) = 4.
Proof.
  refine (proj1 (X12_recording_clock_stays_within_a_minute
                   Scenario.webmRuntime Scenario.sixtyTicks true
                   Scenario.session Scenario.atTheCap _)).
  vm_compute. reflexivity.
Defined.

(** ** The level monitor *)

Section Levels.

Import Level.

Lemma above_spec x y : above x y = true <-> (y < x)%Q.
Proof.
  unfold above. rewrite negb_true_iff. split.
  - intros H. apply Qnot_le_lt. intros Hle. apply Qle_bool_iff in Hle. congruence.
  - intros H. destruct (Qle_bool x y) eqn:E; [|reflexivity].
    apply Qle_bool_iff in E. exfalso. exact (Qlt_not_le _ _ H E).
Qed.

Lemma above_false x y : above x y = false <-> (x <= y)%Q.
Proof.
  unfold above. rewrite negb_false_iff. apply Qle_bool_iff.
Qed.

Lemma classify_rank_mono x y : (x <= y)%Q -> rank (classify x) <= rank (classify y).
Proof.
  intros H. unfold classify.
  destruct (above x (6#10)) eqn:E1.
  { apply above_spec in E1. assert (E: above y (6#10) = true) by (apply above_spec; eapply Qlt_le_trans; eassumption). rewrite E. cbn. lia. }
  destruct (above x (3#10)) eqn:E2.
  { apply above_spec in E2. assert (E: above y (3#10) = true) by (apply above_spec; eapply Qlt_le_trans; eassumption). rewrite E. destruct (above y (6#10)); cbn; lia. }
  destruct (above x (1#10)) eqn:E3.
  { apply above_spec in E3. assert (E: above y (1#10) = true) by (apply above_spec; eapply Qlt_le_trans; eassumption). rewrite E. destruct (above y (6#10)), (above y (3#10)); cbn; lia. }
  cbn. lia.
Qed.

Lemma average_nonneg (a n : nat) : (0 <= inject_Z (Z.of_nat a) / inject_Z (Z.of_nat n) / 128)%Q.
Proof.
  unfold Qdiv. apply Qmult_le_0_compat; [apply Qmult_le_0_compat|].
  - change 0%Q with (inject_Z 0). rewrite <- Zle_Qle. lia.
  - destruct n; [cbn; discriminate|]. apply Qlt_le_weak. apply Qinv_lt_0_compat.
    change 0%Q with (inject_Z 0). rewrite <- Zlt_Qlt. lia.
  - discriminate.
Qed.

Lemma normalizedLevel_range data :
  (0 <= normalizedLevel data)%Q /\ (normalizedLevel data <= 1)%Q.
Proof.
  unfold normalizedLevel. split.
  - apply Q.min_glb; [apply average_nonneg | discriminate].
  - apply Q.le_min_r.
Qed.

Lemma level_above (k : positive) (data : list byte) :
  (Z.pos k < 10)%Z -> data <> [] ->
  above (normalizedLevel data) (Z.pos k # 10) = true
  <-> 128 * Pos.to_nat k * length data < 10 * total data.
Proof.
  intros Hk Hdata. rewrite above_spec. unfold normalizedLevel.
  destruct data as [|b data]; [congruence|].
  set (a := total (b :: data)). set (n := length (b :: data)).
  assert (Hn : 0 < n) by (cbn; lia). clearbody a n.
  rewrite Q.min_glb_lt_iff.
  assert (H1 : (Z.pos k # 10 < 1)%Q) by (unfold Qlt; cbn; lia).
  destruct n as [|n]; [lia|].
  unfold Qdiv, Qmult, Qinv, Qlt, inject_Z. cbn -[Z.mul Nat.mul Z.of_nat].
  change (Z.of_nat (S n)) with (Z.pos (Pos.of_succ_nat n)).
  cbn [Qden Qnum].
  split.
  - intros [H _]. lia.
  - intros H. split; lia.
Qed.

Lemma normalizedLevel_mono d1 d2 :
  length d1 = length d2 -> total d1 <= total d2 ->
  (normalizedLevel d1 <= normalizedLevel d2)%Q.
Proof.
  intros Hlen Hsum. unfold normalizedLevel. rewrite Hlen.
  apply Q.min_le_compat_r.
  unfold Qdiv. apply Qmult_le_compat_r; [apply Qmult_le_compat_r|].
  - rewrite <- Zle_Qle. lia.
  - destruct (length d2); [cbn; discriminate|].
    apply Qlt_le_weak, Qinv_lt_0_compat.
    change 0%Q with (inject_Z 0). rewrite <- Zlt_Qlt. lia.
  - discriminate.
Qed.

End Levels.

(** X13. One sample of a non-empty analyser yields a level between 0 and
    1; the label is [excellent] exactly when the bins average more than
    76.8, [poor] exactly when they average at most 12.8, and the wave is
    animated exactly when the label is not [poor]. *)
Theorem X13_level_and_quality_of_a_sample
        (r : Render) (dataArray : list byte) (m : Level.Monitor) :
  dataArray <> [] ->
  exists m',
    Level.updateLevel r dataArray m = Some m'
    /\ (0 <= Level.audioLevel m')%Q /\ (Level.audioLevel m' <= 1)%Q
    /\ (Level.recordingQuality m' = Level.excellent
        <-> 768 * length dataArray < 10 * Level.total dataArray)
    /\ (Level.recordingQuality m' = Level.poor
        <-> 10 * Level.total dataArray <= 128 * length dataArray)
    /\ (Level.waveActive m' = true <-> Level.recordingQuality m' <> Level.poor).
Proof.
  intros Hdata. unfold Level.updateLevel.
  destruct dataArray as [|b data] eqn:E; [congruence|]. rewrite <- E in *.
  eexists. split; [reflexivity|].
  cbn [Level.audioLevel Level.recordingQuality].
  destruct (normalizedLevel_range dataArray) as [H0 H1].
  pose proof (level_above 6 dataArray ltac:(lia) Hdata) as A6.
  pose proof (level_above 3 dataArray ltac:(lia) Hdata) as A3.
  pose proof (level_above 1 dataArray ltac:(lia) Hdata) as A1.
  unfold Level.waveActive, Level.classify. cbn [Level.audioLevel].
  change (Pos.to_nat 6) with 6 in A6. change (Pos.to_nat 3) with 3 in A3.
  change (Pos.to_nat 1) with 1 in A1.
  repeat split; try assumption;
    destruct (Level.above (Level.normalizedLevel dataArray) (6 # 10)) eqn:G6;
    destruct (Level.above (Level.normalizedLevel dataArray) (3 # 10)) eqn:G3;
    destruct (Level.above (Level.normalizedLevel dataArray) (1 # 10)) eqn:G1;
    try discriminate; try congruence; try tauto;
    try (intros _; lia);
    try (intros ?; exfalso; lia).
Qed.

Lemma X13_loud_sample_witness :
  exists m', Level.updateLevel (mkRender false false false (Some "s1") false true)
               Level.loud Level.initialMonitor = Some m'
             /\ Level.recordingQuality m' = Level.excellent.
Proof.
  destruct (X13_level_and_quality_of_a_sample
              (mkRender false false false (Some "s1") false true)
              Level.loud Level.initialMonitor ltac:(discriminate))
    as (m' & Hm & _ & _ & Hex & _).
  exists m'. split; [exact Hm|]. apply Hex.
  apply Nat.ltb_lt. vm_compute. reflexivity.
Defined.

(** X14. Of two samples with the same number of bins, the one whose bins
    add up to more has the higher or the same level, and never the lower
    label. *)
Theorem X14_louder_sample_never_lowers_the_quality (d1 d2 : list byte) :
  length d1 = length d2 -> Level.total d1 <= Level.total d2 ->
  (Level.normalizedLevel d1 <= Level.normalizedLevel d2)%Q
  /\ Level.rank (Level.classify (Level.normalizedLevel d1))
     <= Level.rank (Level.classify (Level.normalizedLevel d2)).
Proof.
  intros Hlen Hsum.
  pose proof (normalizedLevel_mono d1 d2 Hlen Hsum) as H.
  split; [exact H | apply classify_rank_mono; exact H].
Qed.

Lemma X14_faint_and_loud_witness :
  Level.rank (Level.classify (Level.normalizedLevel Level.faint))
  <= Level.rank (Level.classify (Level.normalizedLevel Level.loud)).
Proof.
  refine (proj2 (X14_louder_sample_never_lowers_the_quality
                   Level.faint Level.loud _ _)).
  - reflexivity.
  - apply Nat.leb_le. vm_compute. reflexivity.
Defined.

(** X15. A click never has a frame requested for the level monitor: the
    monitor it starts reads the [isRecording] of the render of the click,
    which is false on the branch that starts a recording, so the level is
    sampled once per start.  The pending-frame flag after a click is the
    flag before it, taken down when the click stops a recording. *)
Theorem X15_click_never_requests_a_frame
        (r : Render) (o : RecorderOracle) (stream : bool)
        (analyserRef : option (list byte)) (m : Level.Monitor) :
  Level.framePending (Level.handleVoiceRecord_monitor r o stream analyserRef m)
  = Level.framePending m
    && (negb (truthy (r_sessionId r)) || negb (r_isRecording r)).
Proof.
  unfold Level.handleVoiceRecord_monitor, Level.monitorAudioLevel,
    Level.updateLevel, Level.cancelAnimationFrame.
  destruct (truthy (r_sessionId r)); cbn;
    [|rewrite andb_true_r; reflexivity].
  destruct (r_isRecording r) eqn:E; cbn;
    [rewrite andb_false_r; reflexivity|].
  rewrite andb_true_r.
  destruct stream; cbn; [|reflexivity].
  destruct o; try reflexivity.
  destruct analyserRef as [[|b data]|]; reflexivity.
Qed.

(** ** The suggested-actions dialog *)

Section Dialog.

Import Actions.

Lemma includes_In l i : includes l i = true <-> In i l.
Proof.
  unfold includes. rewrite existsb_exists. split.
  - intros (x & Hx & E). apply Nat.eqb_eq in E. subst. exact Hx.
  - intros H. exists i. split; [exact H | apply Nat.eqb_refl].
Qed.

Lemma includes_app l l' i : includes (l ++ l')%list i = includes l i || includes l' i.
Proof. apply existsb_app. Qed.

Lemma includes_cons x l i : includes (x :: l) i = (i =? x)%nat || includes l i.
Proof. reflexivity. Qed.

Lemma includes_filter l i j :
  includes (List.filter (fun idx => negb (idx =? j)%nat) l) i
  = includes l i && negb (i =? j)%nat.
Proof.
  induction l as [|x l IH]; [reflexivity|]. cbn [List.filter].
  destruct (Nat.eqb_spec x j) as [->|Hx]; cbn [negb];
    rewrite ?includes_cons, IH.
  - destruct (Nat.eqb_spec i j); cbn; [apply andb_false_r | reflexivity].
  - destruct (Nat.eqb_spec i x) as [->|Hi]; cbn; [|reflexivity].
    destruct (Nat.eqb_spec x j); [contradiction|]. reflexivity.
Qed.

Lemma includes_handleActionComplete j i s :
  includes (completedActions (handleActionComplete j s)) i
  = xorb (includes (completedActions s) i) (i =? j)%nat.
Proof.
  unfold handleActionComplete. cbn [completedActions].
  destruct (includes (completedActions s) j) eqn:E.
  - rewrite includes_filter.
    destruct (Nat.eqb_spec i j) as [->|Hi]; cbn.
    + rewrite E. reflexivity.
    + rewrite andb_true_r, xorb_false_r. reflexivity.
  - rewrite includes_app, includes_cons. cbn [includes existsb].
    rewrite orb_false_r.
    destruct (Nat.eqb_spec i j) as [->|Hi]; cbn.
    + rewrite E. reflexivity.
    + rewrite orb_false_r, xorb_false_r. reflexivity.
Qed.

Lemma NoDup_handleActionComplete j s :
  List.NoDup (completedActions s) ->
  List.NoDup (completedActions (handleActionComplete j s)).
Proof.
  intros H. unfold handleActionComplete. cbn [completedActions].
  destruct (includes (completedActions s) j) eqn:E.
  - apply List.NoDup_filter. exact H.
  - apply List.NoDup_app; [exact H | repeat constructor; cbn; tauto |].
    intros x Hx [<-|[]]. apply includes_In in Hx. congruence.
Qed.

Lemma marks_run tr : forall s s' i,
  run tr s = Some s' ->
  includes (completedActions s') i
  = xorb (includes (completedActions s) i) (Nat.odd (clicks i tr)).
Proof.
  induction tr as [|e tr IH]; intros s s' i Hrun; cbn [run] in Hrun.
  - simplify_eq. cbn. rewrite xorb_false_r. reflexivity.
  - destruct (step e s) as [s1|] eqn:Hstep; [|discriminate].
    rewrite (IH _ _ i Hrun).
    destruct e as [open sid|sid|resp|j]; cbn [step] in Hstep.
    + simplify_eq. unfold onOpen. destruct (open && truthy sid); reflexivity.
    + simplify_eq. reflexivity.
    + destruct (inFlight s); [discriminate|]. simplify_eq.
      destruct resp; reflexivity.
    + simplify_eq.
      rewrite includes_handleActionComplete. unfold clicks. cbn [List.filter].
      destruct (Nat.eqb_spec j i) as [->|Hj].
      * rewrite Nat.eqb_refl. cbn [length]. rewrite Nat.odd_succ, <- Nat.negb_odd.
        destruct (includes _ i), (Nat.odd _); reflexivity.
      * destruct (Nat.eqb_spec i j); [congruence|].
        rewrite xorb_false_r. reflexivity.
Qed.

Lemma NoDup_run tr : forall s s',
  run tr s = Some s' ->
  List.NoDup (completedActions s) -> List.NoDup (completedActions s').
Proof.
  induction tr as [|e tr IH]; intros s s' Hrun H; cbn [run] in Hrun.
  - simplify_eq. exact H.
  - destruct (step e s) as [s1|] eqn:Hstep; [|discriminate].
    apply (IH _ _ Hrun).
    destruct e as [open sid|sid|resp|j]; cbn [step] in Hstep.
    + simplify_eq. unfold onOpen. destruct (open && truthy sid); exact H.
    + simplify_eq. exact H.
    + destruct (inFlight s); [discriminate|]. simplify_eq.
      destruct resp; exact H.
    + simplify_eq. apply NoDup_handleActionComplete. exact H.
Qed.

Lemma actions_run tr : forall s s',
  run tr s = Some s' -> actions s' = lastFetched (actions s) tr.
Proof.
  induction tr as [|e tr IH]; intros s s' Hrun; cbn [run] in Hrun.
  - simplify_eq. reflexivity.
  - destruct (step e s) as [s1|] eqn:Hstep; [|discriminate].
    rewrite (IH _ _ Hrun).
    destruct e as [open sid|sid|resp|j]; cbn [step] in Hstep.
    + simplify_eq. unfold onOpen. destruct (open && truthy sid); reflexivity.
    + simplify_eq. reflexivity.
    + destruct (inFlight s); [discriminate|]. simplify_eq.
      destruct resp; reflexivity.
    + simplify_eq. reflexivity.
Qed.

Lemma loading_run tr : forall s s',
  run tr s = Some s' ->
  (loading s = true -> 0 < inFlight s) ->
  loading s' = true -> 0 < inFlight s'.
Proof.
  induction tr as [|e tr IH]; intros s s' Hrun H; cbn [run] in Hrun.
  - simplify_eq. exact H.
  - destruct (step e s) as [s1|] eqn:Hstep; [|discriminate].
    apply (IH _ _ Hrun).
    destruct e as [open sid|sid|resp|j]; cbn [step] in Hstep.
    + simplify_eq. unfold onOpen. destruct (open && truthy sid); cbn; auto; lia.
    + simplify_eq. cbn. lia.
    + destruct (inFlight s); [discriminate|]. simplify_eq.
      destruct resp; cbn; discriminate.
    + simplify_eq. exact H.
Qed.

End Dialog.

(** X16. An action of the dialog is shown as completed exactly when its
    button was clicked an odd number of times since the dialog was
    mounted, whatever was fetched, refreshed or failed in between: the
    marks belong to positions of the list, not to the actions fetched.
    No position is marked twice. *)
Theorem X16_mark_follows_the_parity_of_clicks
        (tr : list Actions.Event) (s : Actions.State) (index : nat) :
  Actions.run tr Actions.initial = Some s ->
  Actions.includes (Actions.completedActions s) index
  = Nat.odd (Actions.clicks index tr)
  /\ List.NoDup (Actions.completedActions s).
Proof.
  intros Hrun. split.
  - rewrite (marks_run _ _ _ index Hrun). reflexivity.
  - apply (NoDup_run _ _ _ Hrun). constructor.
Qed.

Lemma X16_marks_after_refresh_witness :
  Actions.includes (Actions.completedActions (Actions.after Actions.refreshFails)) 1
  = Nat.odd (Actions.clicks 1 Actions.refreshFails).
Proof.
  refine (proj1 (X16_mark_follows_the_parity_of_clicks
                   Actions.refreshFails (Actions.after Actions.refreshFails) 1 _)).
  vm_compute. reflexivity.
Defined.

(** X17. The list the dialog shows is the one the last successful fetch
    brought (the empty list when the answer had none, or before any
    answer): a fetch that fails keeps the list of the fetch before it.
    The spinner is on only while a fetch is in flight. *)
Theorem X17_list_is_the_last_successful_fetch
        (tr : list Actions.Event) (s : Actions.State) :
  Actions.run tr Actions.initial = Some s ->
  Actions.actions s = Actions.lastFetched [] tr
  /\ (Actions.loading s = true -> 0 < Actions.inFlight s).
Proof.
  intros Hrun. split.
  - apply (actions_run _ _ _ Hrun).
  - apply (loading_run _ _ _ Hrun). cbn. discriminate.
Qed.

Lemma X17_failed_refresh_witness :
  Actions.actions (Actions.after Actions.refreshFails)
  = Actions.lastFetched [] Actions.refreshFails.
Proof.
  refine (proj1 (X17_list_is_the_last_successful_fetch
                   Actions.refreshFails (Actions.after Actions.refreshFails) _)).
  vm_compute. reflexivity.
Defined.

(** ** The shell's conversation logic *)

Section Conversation.

Import Shell.

Lemma tasks_setTask i t s : tasks (setTask i t s) = <[i := t]> (tasks s).
Proof. reflexivity. Qed.

Lemma tasks_spawn t s : tasks (spawn t s) = (tasks s ++ [t])%list.
Proof. reflexivity. Qed.

Lemma Forall_finish (P : Task -> Prop) i l :
  P Finished -> Forall P l -> Forall P (<[i := Finished]> l).
Proof. intros HP H. apply Forall_insert; assumption. Qed.

Lemma welcomeSilent_speak o r text s :
  o <> Welcome -> welcomeSilent s -> welcomeSilent (speak o r text s).
Proof.
  intros Ho (H1 & H2 & H3). unfold speak, onSpoken.
  destruct (Speech.synthesizeAndPlayVoice_start _ _) as [[|]| |];
    try (destruct o; [congruence| |]); repeat case_match;
    repeat split; cbn; auto;
    try (apply Forall_app; split; [assumption|]; repeat constructor; cbn; auto).
Qed.

Ltac unfold_shell_handlers :=
  unfold initializeSession, initializeSession_response, onWelcomeDelay,
    sendMessage, onChat, onTypingDelay, handleVoiceMessage, sendVoiceMessage,
    resetConversation, resetConversation_response, changeGenerationMode,
    changeGenerationMode_response, toggleVoice, toggleInterfaceMode,
    toggleListening, speaking, onSpoken, spawn, setTask in *.

Ltac solve_tasks :=
  repeat first
    [ assumption
    | apply Forall_app; split
    | apply Forall_insert
    | apply Forall_cons; split
    | apply Forall_nil ];
  cbn; auto; try congruence.

Lemma welcomeSilent_step e s s' :
  welcomeSilent s -> step e s = Some s' -> welcomeSilent s'.
Proof.
  intros (H1 & H2 & H3) Hstep.
  destruct e; cbn [step] in Hstep; unfold onMainScreen in Hstep.
  all: repeat case_match; simplify_eq.
  all: repeat match goal with
       | H : tasks _ !! _ = Some _ |- _ =>
           let Ht := fresh "Ht" in
           pose proof (Forall_lookup_1 _ _ _ _ H2 H) as Ht; cbn in Ht;
           revert H
       end; intros.
  all: try (apply welcomeSilent_speak; [congruence|]).
  all: try (unfold onTypingDelay; case_match; [apply welcomeSilent_speak; [assumption|]|]).
  all: try match goal with
       | Ht : a_sessionId ?r = None |- context [speak Welcome ?r _ _] =>
           unfold speak, Speech.synthesizeAndPlayVoice_start;
           rewrite Ht, orb_true_r; cbn [truthy negb onSpoken]
       end.
  all: unfold_shell_handlers; unfold welcomeSilent; cbn.
  all: repeat case_match; cbn; repeat split; intros; solve_tasks.
Qed.

Lemma welcomeSilent_run tr : forall s s',
  welcomeSilent s -> run tr s = Some s' -> welcomeSilent s'.
Proof.
  induction tr as [|e tr IH]; intros s s' Hs Hrun; cbn [run] in Hrun.
  - simplify_eq. exact Hs.
  - destruct (step e s) as [s1|] eqn:Hstep; [|discriminate].
    exact (IH _ _ (welcomeSilent_step _ _ _ Hs Hstep) Hrun).
Qed.

Lemma welcomeSilent_initial : welcomeSilent initial.
Proof. repeat split; constructor. Qed.


Lemma chatTask_speak o r text s :
  (o = TextReply -> a_interfaceMode r = chat) ->
  Forall chatTask (tasks s) -> Forall chatTask (tasks (speak o r text s)).
Proof.
  intros Ho H. unfold speak, onSpoken.
  destruct (Speech.synthesizeAndPlayVoice_start _ _) as [[|]| |];
    destruct o; try rewrite Ho by reflexivity; cbn; solve_tasks.
Qed.

Lemma chatTask_step e s s' :
  Forall chatTask (tasks s) -> step e s = Some s' -> Forall chatTask (tasks s').
Proof.
  intros H2 Hstep.
  destruct e; cbn [step] in Hstep; unfold onMainScreen in Hstep.
  all: repeat case_match; simplify_eq.
  all: repeat match goal with
       | H : tasks _ !! _ = Some _ |- _ =>
           let Ht := fresh "Ht" in
           pose proof (Forall_lookup_1 _ _ _ _ H2 H) as Ht; cbn in Ht;
           revert H
       end; intros.
  all: try contradiction.
  all: try (apply chatTask_speak; [congruence|]).
  all: try match goal with
       | |- context [onTypingDelay ?o ?r ?t _] =>
           unfold onTypingDelay;
           destruct (a_voiceEnabled r && truthy (Some t));
           [apply chatTask_speak; [intros ->; exact Ht|]|]
       end.
  all: unfold_shell_handlers; cbn.
  all: repeat case_match; cbn; simplify_eq; solve_tasks.
  all: try (destruct (interfaceMode s); cbn in *; congruence).
  all: match goal with
       | Ht : a_interfaceMode ?r = chat, H : context [a_interfaceMode ?r] |- _ =>
           rewrite Ht in H; cbn in H; discriminate
       end.
Qed.

Lemma chatTask_run tr : forall s s',
  Forall chatTask (tasks s) -> run tr s = Some s' ->
  Forall chatTask (tasks s').
Proof.
  induction tr as [|e tr IH]; intros s s' Hs Hrun; cbn [run] in Hrun.
  - simplify_eq. exact Hs.
  - destruct (step e s) as [s1|] eqn:Hstep; [|discriminate].
    exact (IH _ _ (chatTask_step _ _ _ Hs Hstep) Hrun).
Qed.

Lemma Exists_insert_keep (P : Task -> Prop) i t t' l :
  l !! i = Some t -> (P t -> P t') -> Exists P l -> Exists P (<[i := t']> l).
Proof.
  intros Hi Himp H. apply Exists_exists in H as (x & Hx & HPx).
  apply list_elem_of_lookup in Hx as (j & Hj).
  apply Exists_exists.
  destruct (decide (i = j)) as [->|Hne].
  - exists t'. split.
    + apply list_elem_of_lookup. exists j.
      apply list_lookup_insert_eq. eapply lookup_lt_Some; eassumption.
    + apply Himp. congruence.
  - exists x. split; [|assumption].
    apply list_elem_of_lookup. exists j.
    rewrite list_lookup_insert_ne by assumption. assumption.
Qed.

Lemma Exists_insert_here (P : Task -> Prop) i t t' l :
  l !! i = Some t -> P t' -> Exists P (<[i := t']> l).
Proof.
  intros Hi HP. apply Exists_exists. exists t'. split; [|assumption].
  apply list_elem_of_lookup. exists i.
  apply list_lookup_insert_eq. eapply lookup_lt_Some; eassumption.
Qed.

Lemma flagsCovered_speak o r text s :
  flagsCovered s -> flagsCovered (speak o r text s).
Proof.
  intros [H1 H2]. unfold speak, onSpoken.
  destruct (Speech.synthesizeAndPlayVoice_start _ _) as [[|]| |];
    repeat case_match; split; cbn; intros; auto;
    apply Exists_app; left; auto.
Qed.

Lemma flagsCovered_step e s s' :
  flagsCovered s -> step e s = Some s' -> flagsCovered s'.
Proof.
  intros [H1 H2] Hstep.
  destruct e; cbn [step] in Hstep; unfold onMainScreen in Hstep.
  all: repeat case_match; simplify_eq.
  all: try (apply flagsCovered_speak).
  all: try match goal with
       | |- context [onTypingDelay ?o ?r ?t _] =>
           unfold onTypingDelay;
           destruct (a_voiceEnabled r && truthy (Some t));
           [apply flagsCovered_speak|]
       end.
  all: unfold_shell_handlers; unfold flagsCovered; cbn.
  all: repeat case_match; cbn; split; intros; try discriminate.
  all: try (apply Exists_app; right; constructor; reflexivity).
  all: try (apply Exists_app; left).
  all: try (eapply Exists_insert_keep; [eassumption| cbn; congruence |]).
  all: try (eapply Exists_insert_here; [eassumption| reflexivity]).
  all: auto.
Qed.

Lemma flagsCovered_run tr : forall s s',
  flagsCovered s -> run tr s = Some s' -> flagsCovered s'.
Proof.
  induction tr as [|e tr IH]; intros s s' Hs Hrun; cbn [run] in Hrun.
  - simplify_eq. exact Hs.
  - destruct (step e s) as [s1|] eqn:Hstep; [|discriminate].
    exact (IH _ _ (flagsCovered_step _ _ _ Hs Hstep) Hrun).
Qed.

Lemma isListening_speak o r text s :
  isListening (speak o r text s) = isListening s.
Proof.
  unfold speak, onSpoken.
  destruct (Speech.synthesizeAndPlayVoice_start _ _) as [[|]| |];
    repeat case_match; reflexivity.
Qed.

Lemma messages_speak o r text s :
  messages (speak o r text s) = messages s
  /\ messageCount (speak o r text s) = messageCount s.
Proof.
  unfold speak, onSpoken.
  destruct (Speech.synthesizeAndPlayVoice_start _ _) as [[|]| |];
    repeat case_match; split; reflexivity.
Qed.

Lemma userMessages_app l l' :
  userMessages (l ++ l') = (userMessages l ++ userMessages l')%list.
Proof. apply List.filter_app. Qed.

Lemma counted_step e s s' : counted s -> step e s = Some s' -> counted s'.
Proof.
  unfold counted. intros Hc Hstep.
  destruct e; cbn [step] in Hstep; unfold onMainScreen in Hstep.
  all: repeat case_match; simplify_eq.
  all: try match goal with
       | |- context [onTypingDelay ?o ?r ?t _] =>
           unfold onTypingDelay;
           destruct (a_voiceEnabled r && truthy (Some t))
       end.
  all: repeat match goal with
       | |- context [speak ?o ?r ?t ?s] =>
           destruct (messages_speak o r t s) as [-> ->]
       end.
  all: unfold_shell_handlers; cbn -[userMessages] in *.
  all: repeat case_match; cbn -[userMessages];
       rewrite ?userMessages_app, ?length_app; cbn; try lia.
Qed.

Lemma counted_run tr : forall s s',
  counted s -> run tr s = Some s' -> counted s'.
Proof.
  induction tr as [|e tr IH]; intros s s' Hs Hrun; cbn [run] in Hrun.
  - simplify_eq. exact Hs.
  - destruct (step e s) as [s1|] eqn:Hstep; [|discriminate].
    exact (IH _ _ (counted_step _ _ _ Hs Hstep) Hrun).
Qed.

Lemma isListening_step e s s' :
  (forall i, tasks s !! i = Some RelistenDelay -> False) ->
  step e s = Some s' ->
  isListening s' <> isListening s ->
  e = ToggleListening \/ exists r, e = VoiceToggle r.
Proof.
  intros Hno Hstep Hne.
  destruct e; cbn [step] in Hstep; unfold onMainScreen in Hstep.
  all: try (left; reflexivity).
  all: try (right; eexists; reflexivity).
  all: exfalso; repeat case_match; simplify_eq.
  all: try (eapply Hno; eassumption).
  all: apply Hne.
  all: try match goal with
       | |- context [onTypingDelay ?o ?r ?t _] =>
           unfold onTypingDelay;
           destruct (a_voiceEnabled r && truthy (Some t))
       end.
  all: rewrite ?isListening_speak.
  all: unfold_shell_handlers; cbn; repeat case_match; reflexivity.
Qed.




End Conversation.

(** X18. The welcome message is never spoken.  The timer that is to
    speak it belongs to the render of the welcome screen, in which there
    is no session yet, so [synthesizeAndPlayVoice] returns at once: in no
    run is a synthesis requested for the welcome message, and none is
    ever in flight for it. *)
Theorem X18_welcome_message_is_never_spoken
        (tr : list Shell.Event) (s : Shell.State) :
  Shell.run tr Shell.initial = Some s ->
  (forall text, ~ In (Shell.Welcome, text) (Shell.synthesized s))
  /\ (forall i r p,
        Shell.tasks s !! i = Some (Shell.Speaking Shell.Welcome r p) -> False).
Proof.
  intros Hrun.
  destruct (welcomeSilent_run tr Shell.initial s welcomeSilent_initial Hrun)
    as (_ & Htasks & Hsyn).
  split.
  - intros text Hin. rewrite List.Forall_forall in Hsyn.
    exact (Hsyn _ Hin eq_refl).
  - intros i r p Hi.
    pose proof (Forall_lookup_1 _ _ _ _ Htasks Hi) as Ht. cbn in Ht.
    congruence.
Qed.

Lemma X18_welcome_run_witness :
  Shell.run Shell.welcomeRun Shell.initial
  = Some (Shell.after Shell.welcomeRun)
  /\ forall text,
       ~ In (Shell.Welcome, text)
            (Shell.synthesized (Shell.after Shell.welcomeRun)).
Proof.
  assert (Hrun : Shell.run Shell.welcomeRun Shell.initial
                 = Some (Shell.after Shell.welcomeRun))
    by (vm_compute; reflexivity).
  split; [exact Hrun|].
  exact (proj1 (X18_welcome_message_is_never_spoken
                  Shell.welcomeRun (Shell.after Shell.welcomeRun) Hrun)).
Defined.

(** X19. The shell never starts listening by itself.  The text field
    exists in chat mode only, so the [then] handler of [sendMessage]
    always finds the interface mode of its render to be chat and never
    sets the timeout that would raise [isListening]: in no run is such a
    timeout pending, and [isListening] changes at no event but a toggle. *)
Theorem X19_listening_changes_only_by_the_toggle
        (tr : list Shell.Event) (s : Shell.State) :
  Shell.run tr Shell.initial = Some s ->
  (forall i, Shell.tasks s !! i = Some Shell.RelistenDelay -> False)
  /\ forall e s', Shell.step e s = Some s' ->
       Shell.isListening s' <> Shell.isListening s ->
       e = Shell.ToggleListening \/ exists r, e = Shell.VoiceToggle r.
Proof.
  intros Hrun.
  assert (Hinv : Forall Shell.chatTask (Shell.tasks s)).
  { apply (chatTask_run tr Shell.initial s); [constructor | exact Hrun]. }
  assert (Hno : forall i, Shell.tasks s !! i = Some Shell.RelistenDelay -> False).
  { intros i Hi. exact (Forall_lookup_1 _ _ _ _ Hinv Hi). }
  split; [exact Hno|].
  intros e s' Hstep Hne.
  exact (isListening_step e s s' Hno Hstep Hne).
Qed.

Lemma X19_chat_run_witness :
  Shell.run Shell.chatRun Shell.initial = Some (Shell.after Shell.chatRun)
  /\ forall i,
       Shell.tasks (Shell.after Shell.chatRun) !! i
       = Some Shell.RelistenDelay -> False.
Proof.
  assert (Hrun : Shell.run Shell.chatRun Shell.initial
                 = Some (Shell.after Shell.chatRun))
    by (vm_compute; reflexivity).
  split; [exact Hrun|].
  exact (proj1 (X19_listening_changes_only_by_the_toggle
                  Shell.chatRun (Shell.after Shell.chatRun) Hrun)).
Defined.

(** X20. Neither the loading flag nor the typing indicator is ever left
    on: in every state of every run, a flag that is up has a pending
    request, or the typing delay of an answered one, whose end takes it
    down. *)
Theorem X20_busy_flags_have_a_pending_task
        (tr : list Shell.Event) (s : Shell.State) :
  Shell.run tr Shell.initial = Some s ->
  (Shell.isLoading s = true ->
   exists i t, Shell.tasks s !! i = Some t /\ Shell.clearsLoading t = true)
  /\ (Shell.typingIndicator s = true ->
      exists i t, Shell.tasks s !! i = Some t /\ Shell.clearsTyping t = true).
Proof.
  intros Hrun.
  destruct (flagsCovered_run tr Shell.initial s) as [H1 H2]; [|exact Hrun|].
  { split; cbn; discriminate. }
  split; intros H; [specialize (H1 H)|specialize (H2 H)].
  - apply Exists_exists in H1 as (t & Hin & Ht).
    apply list_elem_of_lookup in Hin as (i & Hi). eauto.
  - apply Exists_exists in H2 as (t & Hin & Ht).
    apply list_elem_of_lookup in Hin as (i & Hi). eauto.
Qed.

Lemma X20_session_being_created_witness :
  exists i t,
    Shell.tasks (Shell.after [Shell.Start]) !! i = Some t
    /\ Shell.clearsLoading t = true.
Proof.
  refine (proj1 (X20_busy_flags_have_a_pending_task
                   [Shell.Start] (Shell.after [Shell.Start]) _) _).
  - vm_compute. reflexivity.
  - vm_compute. reflexivity.
Defined.



(** X22. The message counter of the session is never behind the user
    messages on display, in any run; the two are reset together and grow
    together, and the welcome message replaces the display only. *)
Theorem X22_counter_covers_the_user_messages_shown
        (tr : list Shell.Event) (s : Shell.State) :
  Shell.run tr Shell.initial = Some s ->
  length (Shell.userMessages (Shell.messages s)) <= Shell.messageCount s.
Proof.
  intros Hrun. apply (counted_run tr Shell.initial s); [|exact Hrun].
  unfold Shell.counted. cbn. lia.
Qed.

Lemma X22_chat_run_counter_witness :
  length (Shell.userMessages (Shell.messages (Shell.after Shell.chatRun)))
  <= Shell.messageCount (Shell.after Shell.chatRun).
Proof.
  refine (X22_counter_covers_the_user_messages_shown
            Shell.chatRun (Shell.after Shell.chatRun) _).
  vm_compute. reflexivity.
Defined.



(** X24. A reply outlives its session.  When the session is reset while a
    reply is in its typing delay, the end of the reset empties the
    conversation and clears the session, and the reply is displayed all
    the same when its delay is over: it is then the only message, in a
    state without a session that shows the welcome screen. *)
Theorem X24_reply_outlives_its_session
        (s : Shell.State) (i j : nat) (o : Shell.Origin) (r : Shell.Render)
        (response : string) :
  Shell.tasks s !! i = Some Shell.EndingSession ->
  Shell.tasks s !! j = Some (Shell.TypingDelay o r response) ->
  exists s1 s2,
    Shell.step (Shell.Deleted i) s = Some s1
    /\ Shell.sessionId s1 = None /\ Shell.showWelcome s1 = true
    /\ Shell.messages s1 = [] /\ Shell.messageCount s1 = 0
    /\ Shell.step (Shell.Timeout j) s1 = Some s2
    /\ Shell.sessionId s2 = None /\ Shell.showWelcome s2 = true
    /\ Shell.messages s2 = [Shell.mkMessage response Shell.therapist false].
Proof.
  intros Hi Hj.
  assert (Hne : i <> j) by (intros ->; congruence).
  eexists _, _. cbn [Shell.step]. rewrite Hi.
  split; [reflexivity|]. repeat (split; [reflexivity|]).
  cbn [Shell.step].
  change (Shell.tasks (Shell.resetConversation_response
                         (Shell.setTask i Shell.Finished s)))
    with (<[i := Shell.Finished]> (Shell.tasks s)).
  rewrite list_lookup_insert_ne by exact Hne. rewrite Hj.
  split; [reflexivity|].
  unfold Shell.onTypingDelay.
  destruct (Shell.a_voiceEnabled r && truthy (Some response)).
  - rewrite !(proj1 (messages_speak _ _ _ _)).
    unfold Shell.speak, Shell.onSpoken.
    destruct (Speech.synthesizeAndPlayVoice_start _ _) as [[|]| |];
      repeat case_match; repeat split; reflexivity.
  - repeat split; reflexivity.
Qed.

Lemma X24_reset_before_reply_witness :
  exists s1 s2,
    Shell.step (Shell.Deleted 4)
               (Shell.after (Shell.pendingReply ++ [Shell.Reset])) = Some s1
    /\ Shell.step (Shell.Timeout 3) s1 = Some s2
    /\ Shell.sessionId s2 = None
    /\ Shell.messages s2
       = [Shell.mkMessage "Tell me more." Shell.therapist false].
Proof.
  destruct (X24_reply_outlives_its_session
              (Shell.after (Shell.pendingReply ++ [Shell.Reset])) 4 3
              Shell.TextReply Shell.sendingRender "Tell me more.")
    as (s1 & s2 & H1 & _ & _ & _ & _ & H2 & H3 & _ & H4).
  - vm_compute. reflexivity.
  - vm_compute. reflexivity.
  - exists s1, s2. repeat split; assumption.
Defined.

(** X25. Whether a reply is spoken is decided by the render that sent the
    message, not by the state in which the reply is displayed: when its
    typing delay is over, a synthesis is requested exactly when voice was
    enabled and a session present in that render and the reply is not
    empty, so a voice toggle made after sending does not apply to it. *)
Theorem X25_reply_is_spoken_as_decided_at_sending
        (s : Shell.State) (i : nat) (o : Shell.Origin) (r : Shell.Render)
        (response : string) :
  Shell.tasks s !! i = Some (Shell.TypingDelay o r response) ->
  exists s',
    Shell.step (Shell.Timeout i) s = Some s'
    /\ Shell.synthesized s'
       = if Shell.a_voiceEnabled r && truthy (Some response)
            && truthy (Shell.a_sessionId r)
         then Shell.synthesized s ++ [(o, response)]
         else Shell.synthesized s.
Proof.
  intros Hi. eexists. cbn [Shell.step]. rewrite Hi. split; [reflexivity|].
  unfold Shell.onTypingDelay.
  destruct (Shell.a_voiceEnabled r) eqn:Ev; cbn [andb]; [|reflexivity].
  destruct (truthy (Some response)) eqn:Et; cbn [andb]; [|reflexivity].
  unfold Shell.speak, Speech.synthesizeAndPlayVoice_start. rewrite Ev.
  cbn [negb orb].
  destruct (truthy (Shell.a_sessionId r)); cbn [negb];
    [reflexivity|].
  unfold Shell.onSpoken. repeat case_match; reflexivity.
Qed.

Lemma X25_muted_before_reply_witness :
  Shell.voiceEnabled (Shell.after (Shell.pendingReply ++ [Shell.ToggleVoice]))
  = false
  /\ exists s',
       Shell.step (Shell.Timeout 3)
                  (Shell.after (Shell.pendingReply ++ [Shell.ToggleVoice]))
       = Some s'
       /\ Shell.synthesized s' = [(Shell.TextReply, "Tell me more.")].
Proof.
  split; [vm_compute; reflexivity|].
  destruct (X25_reply_is_spoken_as_decided_at_sending
              (Shell.after (Shell.pendingReply ++ [Shell.ToggleVoice])) 3
              Shell.TextReply Shell.sendingRender "Tell me more.")
    as (s' & H1 & H2).
  - vm_compute. reflexivity.
  - exists s'. split; [exact H1|]. rewrite H2. vm_compute. reflexivity.
Defined.
